(* ===== verification/_CoqProject ===== *)
-Q . S2P
Prelude.v
Moments.v
Pearson.v
Anova.v
GroupBy.v
Heatmap.v
Pyplot.v
Corr.v
Frame.v
Script.v
Tokenizer.v
Header.v
Csv.v
Main.v
Output.v
