(* ===== verification/Prelude.v ===== *)
(** * A verification development of Lab03_ANOVA ([src/venv/bin/main.py])

    The program is a top-to-bottom exploratory-analysis script over a table
    of automobile records.  It does no algorithmic work of its own: each
    line calls pandas, scipy or matplotlib.  What the script computes is
    therefore what those calls compute on its table.  This development
    models each call the script makes, at the semantics the library gives
    it, in exact arithmetic, and composes the calls in the script's order.

    ** Files, in dependency order, and the parts they model

    - [Prelude] (this file): the exceptions the calls raise ([py_error]),
      the error monad [result] with its [let*] notation, the loop [mapR]
      and the tactics [result_inv], [result_inv_as] and [result_step];
      float cells as [option Q] ([None] is NaN) and [finite_values]; finite
      sums [qsumf] (notation [Σ[ x <- l ] e]) with their linearity lemmas,
      the [Proper] instances for rewriting with [Qeq], and the hint
      databases [eda] and [eda_sum].
    - [Moments]: the mean [meanf] and the centred co-moment [comom] that
      numpy computes inside scipy and pandas; Cauchy-Schwarz; the real
      coefficient [ratio num ssq = num / sqrt ssq] and scipy's [clip].
    - [Pearson] (Module [Pearson]): [scipy.stats.pearsonr] (lines 99-125):
      its length errors, the NaN for a constant input, the two-point
      shortcut (NaN on a NaN cell), the [ValueError] [scipy.linalg.norm]
      raises on a NaN cell from three observations on, and the general
      formula.
    - [Anova] (Module [Anova]): [scipy.stats.f_oneway] (lines 135-152) as
      scipy computes it (square-of-sums formulas after subtracting the
      grand mean), with its [TypeError], its NaN results (empty or all
      length-1 samples, NaN cells) and its fix-up for constant samples
      (NaN or infinity); the textbook sums of squares as reference.
    - [GroupBy]: [value_counts] with [to_frame], [rename] and the index name
      (lines 48-51); [groupby(...).mean()] on one and two keys (lines 59,
      68); [pivot] (line 61); [groupby(...).head()] through the running
      count of each key (line 132); [get_group] (lines 135-150).  Group keys are
      ordered through the [KeyOrder] class, with instances for strings and
      for pairs (lexicographic).
    - [Heatmap] (Module [Heatmap]): the tick state of the heatmap axes
      (lines 77-86) as a state machine: each [set_xticklabels],
      [set_yticklabels], [set_xticks] or [set_yticks] call is a [step] on
      the [axes] record, and [run] folds a list of calls.
    - [Pyplot] (Module [Pyplot]): pyplot's global state for lines 29-37
      and 72-92: the open figures ([Gcf.figs], the active one last), their
      axes, current axes and current image, and what is drawn on each
      axes.  Each call is a function on that state ([plt_gca],
      [plt_regplot], [plt_ylim], [plt_pcolor], [plt_colorbar],
      [plt_subplots], [ax_pcolor], [ax_tick_calls] running [Heatmap.run]
      on an axes, [plt_xticks_rotation], [fig_colorbar], [plt_show] for a
      GUI or the Agg backend); [plots] runs the lines in order and returns
      what each [plt.show()] displays; [exec] and [reachable] are any
      sequence of such calls.
    - [Corr] (Module [Corr]): [DataFrame.corr] (lines 22, 26) as pandas'
      [nancorr] kernel: pairwise deletion of NaN rows, Welford's one-pass
      update ([welford_step]), the [min_periods] and zero-divisor NaN, and
      the mirrored fill of the K x K matrix.
    - [Frame] (Module [Frame]): the loaded table as named float or text
      columns; [df["c"]] and [df[[...]]] with pandas' [KeyError] messages;
      [corr] on a frame, which converts it to floats first.
    - [Script] (Module [Script]): the script after [read_csv] as one
      function [script] from the table to its results, one stage per block
      of lines, stopping at the first exception.
    - [Tokenizer] (Module [Tokenizer]): the C tokenizer of [read_csv]
      (line 11, pandas' [tokenizer.c]) as a state machine: [tok] is the
      parser state, [step] one character ([tokenize_bytes]), [end_line]
      the end of a record (its [ParserError] and the padding of short
      rows), [finish] the end of the input.  A CSV writer ([write_csv])
      states the round trip.
    - [Header] (Module [Header]): the column names ([_get_header]):
      ["Unnamed: i"] for empty header fields and the [while] loop renaming
      duplicates, with the [counts] dictionary as a [gmap] and the header
      list it rewrites by index.
    - [Csv] (Module [Csv]): [str_to_int64], [precise_xstrtod], the
      words for infinity and [to_boolean]; the per-column dtype inference
      ([_convert_tokens], [_maybe_upcast]) with pandas 2's NA words;
      [read_csv] from the text to named, typed columns (with the implicit
      index of wide rows and [EmptyDataError]); [head] (line 12) and
      [dtypes] (line 15).
    - [Main] (Module [Main]): [main.py] from line 9 on: [read_csv] of the
      text the URL gives, read into [Frame] by [to_frame], then [script].
    - [Output] (Module [Output]): what the program prints and shows.  [io]
      is [result] with an output log (a writer monad, [let!]); an [event]
      is a [print] or a [plt.show()] tagged with its line and the value
      printed.  [script_io] is the script written statement by statement
      with its twenty-four outputs at their places, [main_io] adds
      [read_csv] and the prints of lines 12 and 15.

    ** What the theorems show

    - [Anova]: scipy's sums of squares are the textbook ones and add up to
      the total ([scipy_sums_textbook]); a finite F is the textbook
      (SSB/(k-1))/(SSW/(N-k)) ([f_oneway_refines]), is non-negative, and its
      divisions are by positive numbers; F is finite exactly when some
      sample has two distinct values, NaN or infinity otherwise; the errors
      are exactly scipy's; F does not depend on the order of the samples or
      on a change of units; on two samples it is the square of the pooled t.
    - [Pearson]: the clipping never changes the coefficient, which lies
      in [-1, 1] by Cauchy-Schwarz ([pearsonr_clip_noop]); the errors are
      exactly scipy's, the NaN one included ([pearsonr_error]); it is
      symmetric, errors included; it is NaN exactly on a constant column; it is unchanged by a positive change of units; the
      two-point shortcut agrees with the general formula.
    - [Corr]: Welford's loop computes exactly the two-pass sums
      ([welford_exact]); every entry of the matrix is the Pearson
      coefficient of the complete pairs; the matrix is symmetric and
      bounded; its diagonal is 1 exactly on columns with two distinct
      finite values; on NaN-free columns [corr] and [pearsonr] agree.
    - [GroupBy]: the groups partition the rows; group-by means have one row
      per key in key order, each the mean of its group; pivoting them never
      raises; value counts list each value once with its count, by
      decreasing count; [head()] keeps, in table order, the first five rows
      of each group ([groupby_head_spec]); [get_group] returns the group or
      raises [KeyError];
      the [rename] of line 49 changes nothing under pandas 2.
    - [Heatmap]: on a pivot table the j-th tick sits at the centre of
      column j and carries its label; setting labels before ticks shows
      the same axes but warns once per axis.
    - [Pyplot]: with a GUI backend each [plt.show()] displays one figure,
      the last the labelled heatmap of [Heatmap] with rotated x labels and
      a colour bar ([plots_gui]); with Agg nothing is displayed and lines
      29, 36 and 72 draw on one axes ([plots_agg]); every reachable state
      is well formed, by induction on [reachable] ([pyplot_wf_reachable]);
      [plt.colorbar()] would raise on the axes of line 78, which is why
      line 91 passes the image ([colorbar_needs_image]).
    - [Frame]: selection succeeds exactly when every label exists, and
      otherwise raises a [KeyError]; [corr] on a numeric selection is the
      Pearson coefficient of the named columns at each position.
    - [Script]: on a table with the script's schema ([schema_ok]: the
      columns at their kinds, the three drive groups, no NaN in the price
      and the nine Pearson columns) the whole
      script runs to its end ([script_runs]); when it does, every column it
      names exists and the three drive groups are non-empty
      ([script_needs]); the samples of the ANOVA of line 135 partition the
      prices; the heatmap emits two warnings; and on NaN-free columns the
      bore/price coefficient of line 26 is the one of line 118.
    - [Tokenizer]: written records are tokenized back to themselves
      ([tokenize_write]); every successful run gives data records of one
      length, at least the header's ([tokenize_rect], by induction over
      the handlers); a longer record raises pandas' "Expected n fields"
      error and a shorter one is padded ([tokenize_ragged]); an unclosed
      quote raises "EOF inside string" ([tokenize_open_quote]).
    - [Header]: the renaming loops always end, with fuel the number of
      columns plus two, and give the same names for any larger fuel
      ([header_names_total]); the names are pairwise distinct
      ([header_names_nodup], by an invariant on [counts] over the columns
      visited); distinct non-empty names are kept.
    - [Csv]: an [int64] table written as CSV is read back as [int64]
      columns with its values and names ([read_csv_ints]); a column of
      integers and NA words is [int64] when no cell is missing, and
      otherwise [float64] with NaN, the NA sentinel [INT64_MIN] included
      ([convert_int_column]); whatever the
      tokens, every parsed cell is what its token denotes under the
      inferred dtype ([convert_column_sound]); a file of blank lines raises
      [EmptyDataError] ([read_csv_blank]); the frame [read_csv] returns is
      a table: distinct column names, every column one cell per data record
      ([read_csv_wf]).
    - [Main]: when [read_csv] accepts the downloaded text and its table
      has the script's schema, the whole program runs to its end
      ([main_runs]); its witness runs the program on the text of four rows
      of the automobile table.
    - [Output]: [script_io] and [main_io] compute what [script] and [main]
      compute, the same result or the same exception ([script_io_refines],
      [main_io_refines]); at every exit the outputs made are a prefix of
      the program's output lines in source order, all of them exactly when
      the script does not raise; on a table with the script's schema the
      program performs all twenty-six outputs in order ([main_io_live],
      liveness).  The proofs walk the chain of statements with the tactic
      [strong_chain] over the bind lemmas of the trace predicates
      [weak_trace] and [strong_trace].

    ** Modelling choices and bounds

    - Arithmetic is exact ([Q]).  pandas and scipy compute in binary64, so
      rounding is not modelled, and a NaN cell is [None].  Square roots
      appear only in the final value of a coefficient, a real number ([R])
      computed from rational sums.  A [float64] token is the rational its
      decimal text denotes.  Every loop is a structural recursion over a
      list, so each function is total, except the renaming loop of
      [Header], a [while] loop whose fuel [length header + 2] is enough by
      [header_names_total]: each iteration but the last two tries a name
      [old.k] already in the header, and these names are distinct
      ([run_bound], a pigeonhole argument).  [read_csv] uses that fuel.
    - The library behaviour is that of pandas 2.x (value_counts names its
      column ["count"]; [corr] has [numeric_only=False]), scipy 1.9 to 1.11
      and matplotlib 3.5 or later (the fixed-ticks warning); [boxplot]'s
      input check is seaborn 0.12's.  pandas sorts [value_counts] with a
      sort that is not stable; the model keeps ties in first-appearance
      order, and the theorems only use the decreasing order.
    - [read_csv] is pandas 2's C parser under the script's defaults
      (header 0, delimiter [','], the double-quote character, NA words on,
      blank lines skipped), on ASCII text read in one chunk (the file is
      far below [low_memory]'s chunk size).
    - Not modelled: the download of the URL (the text is a parameter
      [fetch] of [Main.main]); the imports (lines 1-6); the text a [print]
      writes for a value (an [Output.event] carries the value itself); the
      drawing itself (marks, colours, the space a colour bar takes) and
      seaborn's own labels and categorical ticks; the p-values of [pearsonr] and
      [f_oneway] (beta and F tail probabilities, special functions with no
      executable model here); in [read_csv], the [uint64] path after an
      [int64] overflow (the column is kept as [POverflow], with no
      dtype), binary64 rounding and the exponent range of
      [precise_xstrtod], the byte-order mark and non-ASCII encodings.
      [Main.to_frame] has no counterpart in [Frame] for a [bool] column,
      an infinity or a text column with a missing cell (the real file's
      [horsepower-binned] has one), and [Main.main] then gives [None].
      A text column where a float one is needed stands for the library's
      [TypeError]; the script's table never has one. *)

From stdpp Require Export base list strings sorting.
From Stdlib Require Export QArith Qfield Psatz.

Declare Scope eda_scope.
Delimit Scope eda_scope with eda.
Open Scope eda_scope.

Create HintDb eda.
Create Rewrite HintDb eda_sum.

(** ** Python exceptions and the error monad *)

(** The exceptions the modelled calls raise. *)
Inductive py_error :=
| KeyError (key : string)
| ValueError (msg : string)
| TypeError (msg : string)
| RuntimeError (msg : string).

(** A computation that returns a value or raises. *)
Inductive result (A : Type) :=
| Ok (a : A)
| Err (e : py_error).
Arguments Ok {A} a.
Arguments Err {A} e.

Definition result_bind {A B} (c : result A) (k : A -> result B) : result B :=
  match c with
  | Ok a => k a
  | Err e => Err e
  end.

Definition result_map {A B} (f : A -> B) (c : result A) : result B :=
  result_bind c (fun a => Ok (f a)).

Notation "'let*' x := c1 'in' c2" := (result_bind c1 (fun x => c2))
  (at level 10, x name, c1 at level 100, c2 at level 200) : eda_scope.

(** Raising and catching nothing: the script has no [try]. *)
Definition is_ok {A} (c : result A) : bool :=
  match c with Ok _ => true | Err _ => false end.

Lemma result_bind_ok {A B} (c : result A) (k : A -> result B) a :
  c = Ok a -> result_bind c k = k a.
Proof. now intros ->. Qed.

Lemma result_bind_err {A B} (c : result A) (k : A -> result B) e :
  c = Err e -> result_bind c k = Err e.
Proof. now intros ->. Qed.

Lemma result_bind_ret_r {A} (c : result A) : result_bind c (fun x => Ok x) = c.
Proof. now destruct c. Qed.

(** A loop [for x in l: f(x)] that stops at the first exception. *)
Fixpoint mapR {A B} (f : A -> result B) (l : list A) : result (list B) :=
  match l with
  | [] => Ok []
  | x :: l' => let* y := f x in let* ys := mapR f l' in Ok (y :: ys)
  end.

(** Invert a hypothesis [H : (let* x := c in k) = Ok v]: [c] returned. *)
Ltac result_inv H :=
  lazymatch type of H with
  | result_bind ?c _ = Ok _ =>
      let E := fresh "E" in
      destruct c eqn:E; cbn [result_bind] in H; [|discriminate H]
  end.

(** The same, naming the value [x] and the equation [E]. *)
Ltac result_inv_as H x E :=
  lazymatch type of H with
  | result_bind ?c _ = Ok _ => destruct c as [x|] eqn:E; cbn [result_bind] in H; [|discriminate H]
  end.

(** Rewrite the calls known to return in a goal [let* ... = ...]. *)
Ltac result_step :=
  repeat match goal with
  | H : ?c = Ok _ |- context [result_bind ?c _] => rewrite (result_bind_ok _ _ _ H)
  end; cbn [result_bind].

Lemma mapR_ok {A B} (f : A -> result B) l ys :
  mapR f l = Ok ys -> Forall2 (fun x y => f x = Ok y) l ys.
Proof.
  revert ys. induction l as [|x l IH]; intros ys H; simpl in H; [injection H as <-; constructor|].
  result_inv H. result_inv H. injection H as <-. constructor; auto.
Qed.

Lemma mapR_nth_error {A B} (f : A -> result B) l ys i x :
  mapR f l = Ok ys -> nth_error l i = Some x -> exists y, nth_error ys i = Some y /\ f x = Ok y.
Proof.
  intros H. apply mapR_ok in H. revert i. induction H as [|a b l ys Hab _ IH]; intros [|i] Hx;
    simpl in Hx; try discriminate; [injection Hx as <-; eauto|]. apply IH, Hx.
Qed.

Lemma mapR_in {A B} (f : A -> result B) l ys x :
  mapR f l = Ok ys -> In x l -> exists y, f x = Ok y.
Proof.
  intros H (i & Hi)%In_nth_error. destruct (mapR_nth_error f l ys i x H Hi) as (y & _ & Hy). eauto.
Qed.

Lemma mapR_all_ok {A B} (f : A -> result B) l :
  (forall x, In x l -> exists y, f x = Ok y) -> exists ys, mapR f l = Ok ys.
Proof.
  induction l as [|x l IH]; intros H; simpl; [eauto|].
  destruct (H x (or_introl eq_refl)) as [y Hy]. destruct IH as [ys Hys]; [intros; apply H; now right|].
  result_step. eauto.
Qed.

(** ** Float cells

    A numeric cell of a pandas column is a float or NaN: [option Q] with
    [None] for NaN. *)

(** The values of a column, or [None] when one of them is NaN. *)
Fixpoint finite_values (x : list (option Q)) : option (list Q) :=
  match x with
  | [] => Some []
  | Some v :: x' => option_map (cons v) (finite_values x')
  | None :: _ => None
  end.

Lemma finite_values_map_some xs : finite_values (map Some xs) = Some xs.
Proof. induction xs as [|a xs IH]; simpl; [reflexivity|]. now rewrite IH. Qed.

Lemma finite_values_spec x xs : finite_values x = Some xs <-> x = map Some xs.
Proof.
  split; [|intros ->; apply finite_values_map_some].
  revert xs. induction x as [|[v|] x IH]; intros xs; simpl; [now intros [= <-]| |discriminate].
  destruct (finite_values x) as [l|] eqn:E; simpl; [|discriminate].
  intros [= <-]. simpl. f_equal. now apply IH.
Qed.

(** [a * x + b] applied to every cell (NaN stays NaN). *)
Definition affine (a b : Q) (x : list (option Q)) : list (option Q) :=
  map (option_map (fun v => a * v + b)) x.

Lemma length_affine a b x : length (affine a b x) = length x.
Proof. apply length_map. Qed.

Lemma finite_values_affine a b x :
  finite_values (affine a b x) = option_map (map (fun v => a * v + b)) (finite_values x).
Proof.
  induction x as [|[v|] x IH]; [reflexivity| |reflexivity]. simpl.
  rewrite IH. now destruct (finite_values x).
Qed.

Lemma map_inj_Some {A} (xs ys : list A) : map Some xs = map Some ys -> xs = ys.
Proof.
  revert ys. induction xs as [|a xs IH]; intros [|b ys] H; simpl in H; try discriminate; [reflexivity|].
  injection H as -> H. f_equal. now apply IH.
Qed.

Lemma map_map_inj_Some {A} (xs ys : list (list A)) : map (map Some) xs = map (map Some) ys -> xs = ys.
Proof.
  revert ys. induction xs as [|a xs IH]; intros [|b ys] H; simpl in H; try discriminate; [reflexivity|].
  injection H as H1 H. f_equal; [now apply map_inj_Some|now apply IH].
Qed.

(** Two results agree when both raise the same exception or both return
    values related by [R]. *)
Definition result_eq {A} (R : relation A) : relation (result A) :=
  fun c d =>
    match c, d with
    | Ok a, Ok b => R a b
    | Err e, Err e' => e = e'
    | _, _ => False
    end.

#[export] Instance result_eq_equiv {A} (R : relation A) :
  Equivalence R -> Equivalence (result_eq R).
Proof.
  intros HR. split.
  - intros [a|e]; simpl; reflexivity.
  - intros [a|e] [b|e']; simpl; try easy; now symmetry.
  - intros [a|e] [b|e'] [c|e'']; simpl; try easy; try congruence; etransitivity; eauto.
Qed.

(** ** Generic list lemmas *)

Lemma nil_or_ne {A} (l : list A) : l = [] \/ l <> [].
Proof. destruct l; [now left|now right]. Qed.

Lemma forallb_false_exists {A} (f : A -> bool) (l : list A) :
  forallb f l = false -> exists x, In x l /\ f x = false.
Proof.
  induction l as [|x l IH]; simpl; [discriminate|].
  destruct (f x) eqn:E; simpl; [|eauto].
  intros H. destruct (IH H) as (y & Hy & Hf). eauto.
Qed.

Lemma perm_concat {A} (ls1 ls2 : list (list A)) :
  Permutation ls1 ls2 -> Permutation (concat ls1) (concat ls2).
Proof.
  induction 1 as [|l ls1 ls2 _ IH|l1 l2 ls|]; simpl.
  - constructor.
  - now apply Permutation_app_head.
  - rewrite !app_assoc. apply Permutation_app_tail, Permutation_app_comm.
  - etransitivity; eauto.
Qed.

Lemma existsb_perm {A} (f : A -> bool) l1 l2 : Permutation l1 l2 -> existsb f l1 = existsb f l2.
Proof.
  intros Hp. destruct (existsb f l1) eqn:E1, (existsb f l2) eqn:E2; try reflexivity.
  - apply existsb_exists in E1 as (x & Hx & Hf).
    assert (existsb f l2 = true) by (apply existsb_exists; exists x; split; [now rewrite <- Hp|exact Hf]).
    congruence.
  - apply existsb_exists in E2 as (x & Hx & Hf).
    assert (existsb f l1 = true) by (apply existsb_exists; exists x; split; [now rewrite Hp|exact Hf]).
    congruence.
Qed.

Lemma forallb_perm {A} (f : A -> bool) l1 l2 : Permutation l1 l2 -> forallb f l1 = forallb f l2.
Proof.
  intros Hp. destruct (forallb f l1) eqn:E1, (forallb f l2) eqn:E2; try reflexivity.
  - apply forallb_false_exists in E2 as (x & Hx & Hf). rewrite forallb_forall in E1.
    rewrite <- Hp in Hx. rewrite E1 in Hf by exact Hx. discriminate.
  - apply forallb_false_exists in E1 as (x & Hx & Hf). rewrite forallb_forall in E2.
    rewrite Hp in Hx. rewrite E2 in Hf by exact Hx. discriminate.
Qed.

Lemma existsb_map_ext {A B} (f : B -> bool) (g : A -> B) (h : A -> bool) l :
  (forall y, f (g y) = h y) -> existsb f (map g l) = existsb h l.
Proof. intros H. induction l as [|y l IH]; simpl; [reflexivity|]. now rewrite H, IH. Qed.

Lemma forallb_map_ext {A B} (f : B -> bool) (g : A -> B) (h : A -> bool) l :
  (forall y, f (g y) = h y) -> forallb f (map g l) = forallb h l.
Proof. intros H. induction l as [|y l IH]; simpl; [reflexivity|]. now rewrite H, IH. Qed.

(** ** Finite sums over [Q] *)

Definition qsum (l : list Q) : Q := fold_right Qplus 0 l.

(** [Σ[ x <- l ] e]: the sum of [e] over the elements [x] of [l]. *)
Definition qsumf {A} (f : A -> Q) (l : list A) : Q := qsum (map f l).

Notation "'Σ[' x '<-' l ']' e" := (qsumf (fun x => e) l)
  (at level 35, x name, l at level 50, e at level 35) : eda_scope.

(** The length of a list as a rational, the [n] of the statistics. *)
Definition qlen {A} (l : list A) : Q := inject_Z (Z.of_nat (length l)).

(** The arithmetic mean; pandas' and numpy's [mean] on a non-empty list. *)
Definition qmean (l : list Q) : Q := qsum l / qlen l.

Section Sums.
Context {A : Type}.
Implicit Types (f g : A -> Q) (l : list A).

Lemma qsumf_nil f : qsumf f [] == 0.
Proof. reflexivity. Qed.

Lemma qsumf_cons f x l : qsumf f (x :: l) == f x + qsumf f l.
Proof. reflexivity. Qed.

Lemma qsumf_app f l1 l2 : qsumf f (l1 ++ l2) == qsumf f l1 + qsumf f l2.
Proof.
  unfold qsumf. induction l1 as [|x l1 IH]; simpl; [ring|].
  rewrite IH. ring.
Qed.

Lemma qsumf_ext f g l : (forall x, In x l -> f x == g x) -> qsumf f l == qsumf g l.
Proof.
  induction l as [|x l IH]; intros H; [reflexivity|].
  unfold qsumf in *. simpl. rewrite (H x (or_introl eq_refl)), IH; [reflexivity|].
  intros y Hy. apply H. now right.
Qed.

Lemma qsumf_plus f g l : qsumf (fun x => f x + g x) l == qsumf f l + qsumf g l.
Proof.
  induction l as [|x l IH]; [reflexivity|].
  unfold qsumf in *. simpl. rewrite IH. ring.
Qed.

Lemma qsumf_minus f g l : qsumf (fun x => f x - g x) l == qsumf f l - qsumf g l.
Proof.
  induction l as [|x l IH]; [reflexivity|].
  unfold qsumf in *. simpl. rewrite IH. ring.
Qed.

Lemma qsumf_scale_l c f l : qsumf (fun x => c * f x) l == c * qsumf f l.
Proof.
  unfold qsumf. induction l as [|x l IH]; simpl; [ring|].
  rewrite IH. ring.
Qed.

Lemma qsumf_scale_r c f l : qsumf (fun x => f x * c) l == qsumf f l * c.
Proof.
  rewrite (qsumf_ext _ (fun x => c * f x)) by (intros; ring).
  rewrite qsumf_scale_l. ring.
Qed.

Lemma qsumf_const c l : qsumf (fun _ => c) l == qlen l * c.
Proof.
  unfold qlen. induction l as [|x l IH]; [reflexivity|].
  unfold qsumf in *. simpl length. simpl. rewrite IH.
  rewrite Nat2Z.inj_succ, <- Z.add_1_l, inject_Z_plus. ring.
Qed.

Lemma qsumf_nonneg f l : (forall x, In x l -> 0 <= f x) -> 0 <= qsumf f l.
Proof.
  induction l as [|x l IH]; intros H; [apply Qle_refl|].
  unfold qsumf in *. simpl.
  assert (0 <= f x) by (apply H; now left).
  assert (0 <= qsum (map f l)) by (apply IH; intros y Hy; apply H; now right).
  lra.
Qed.

(** A sum of non-negative terms vanishes only if every term does. *)
Lemma qsumf_nonneg_zero f l :
  (forall x, In x l -> 0 <= f x) -> qsumf f l == 0 -> forall x, In x l -> f x == 0.
Proof.
  induction l as [|y l IH]; intros Hnn Hz x Hx; [destruct Hx|].
  unfold qsumf in *. simpl in Hz.
  assert (Hy : 0 <= f y) by (apply Hnn; now left).
  assert (Hl : 0 <= qsum (map f l))
    by (apply (qsumf_nonneg f l); intros; apply Hnn; now right).
  destruct Hx as [<-|Hx]; [lra|].
  apply IH; [intros; apply Hnn; now right|lra|exact Hx].
Qed.

(** A sum of non-negative terms with a positive term is positive. *)
Lemma qsumf_pos f l x :
  (forall y, In y l -> 0 <= f y) -> In x l -> 0 < f x -> 0 < qsumf f l.
Proof.
  induction l as [|y l IH]; intros Hnn Hx Hpos; [destruct Hx|].
  rewrite qsumf_cons.
  assert (0 <= f y) by (apply Hnn; now left).
  assert (0 <= qsumf f l) by (apply qsumf_nonneg; intros; apply Hnn; now right).
  destruct Hx as [<-|Hx]; [lra|].
  assert (0 < qsumf f l) by (apply IH; auto; intros; apply Hnn; now right). lra.
Qed.

Lemma qsumf_perm f l1 l2 : Permutation l1 l2 -> qsumf f l1 == qsumf f l2.
Proof.
  induction 1; unfold qsumf in *; simpl; try reflexivity.
  - now rewrite IHPermutation.
  - ring.
  - now rewrite IHPermutation1.
Qed.

Lemma qsumf_map {B} (h : B -> A) f (l : list B) :
  qsumf f (map h l) = qsumf (fun x => f (h x)) l.
Proof. unfold qsumf. now rewrite map_map. Qed.

Lemma qlen_app l1 l2 : qlen (l1 ++ l2) == qlen l1 + qlen l2.
Proof. unfold qlen. now rewrite length_app, Nat2Z.inj_add, inject_Z_plus. Qed.

Lemma qlen_pos l : l <> [] -> 0 < qlen l.
Proof.
  intros H. unfold qlen. destruct l as [|x l]; [congruence|].
  simpl length. unfold Qlt. simpl. lia.
Qed.

Lemma qlen_lt {B} l (l' : list B) : (length l < length l')%nat -> qlen l < qlen l'.
Proof. intros H. unfold qlen, Qlt. simpl. lia. Qed.

Lemma qlen_two_le l : (2 <= length l)%nat -> 1 < qlen l.
Proof. intros H. unfold qlen, Qlt. simpl. lia. Qed.

Lemma qlen_nonneg l : 0 <= qlen l.
Proof. unfold qlen, Qle. simpl. lia. Qed.

Lemma qlen_map {B} (h : A -> B) l : qlen (map h l) = qlen l.
Proof. unfold qlen. now rewrite length_map. Qed.
End Sums.

Lemma qsum_qsumf (l : list Q) : qsum l = qsumf (fun x => x) l.
Proof. unfold qsumf. now rewrite map_id. Qed.

(** Rewriting under the sum with [Qeq]. *)
#[export] Instance qsumf_proper {A} :
  Proper (pointwise_relation A Qeq ==> eq ==> Qeq) (@qsumf A).
Proof. intros f g Hfg l ? <-. apply qsumf_ext. intros x _. apply Hfg. Qed.

#[export] Instance qsum_perm_proper :
  Proper (@Permutation Q ==> Qeq) qsum.
Proof. intros l1 l2 H. rewrite !qsum_qsumf. now apply qsumf_perm. Qed.

(** ** Sums of squared deviations *)

(** [Σ (x - m)] vanishes at the mean. *)
Lemma qsumf_centered {A} (f : A -> Q) (l : list A) :
  l <> [] -> qsumf (fun x => f x - qsumf f l / qlen l) l == 0.
Proof.
  intros Hne. pose proof (qlen_pos l Hne) as Hn.
  rewrite qsumf_minus, qsumf_const. field. lra.
Qed.

(** [Σ (x - m)^2 = Σ x^2 - (Σ x)^2 / n] at the mean, and the co-moment alike. *)
Lemma qsumf_comoment {A} (f g : A -> Q) (l : list A) :
  l <> [] ->
  qsumf (fun x => (f x - qsumf f l / qlen l) * (g x - qsumf g l / qlen l)) l
  == qsumf (fun x => f x * g x) l - qsumf f l * qsumf g l / qlen l.
Proof.
  intros Hne. pose proof (qlen_pos l Hne) as Hn.
  set (mf := qsumf f l / qlen l). set (mg := qsumf g l / qlen l).
  rewrite (qsumf_ext _ (fun x => f x * g x - (mg * f x + (mf * g x - mf * mg))))
    by (intros; ring).
  rewrite qsumf_minus, qsumf_plus, qsumf_minus, !qsumf_scale_l, qsumf_const.
  unfold mf, mg. field. lra.
Qed.

#[export] Hint Resolve qlen_nonneg qlen_pos : eda.
#[export] Hint Rewrite @qsumf_app @qsumf_plus @qsumf_minus @qsumf_scale_l
  @qsumf_const : eda_sum.
