(* ===== verification/Moments.v ===== *)
(** * Moments: centred sums of products, Cauchy-Schwarz, correlation ratio

    The quantities both correlation routines of the script compute
    ([scipy.stats.pearsonr], lines 99-125, and [DataFrame.corr], lines 22
    and 26): the means of two variables over a list of observations, the
    centred co-moment [Σ (x - mx)(y - my)] and the centred sums of squares.
    The correlation coefficient is the real number
    [ratio num ssq = num / sqrt ssq] with [num] the co-moment and [ssq] the
    product of the two sums of squares; the Cauchy-Schwarz inequality
    [num^2 <= ssq] puts it in [-1, 1]. *)

From S2P Require Import Prelude.
From Stdlib Require Import Reals Qreals.

(** ** Centred sums of products *)

Section Comoment.
Context {A : Type}.
Implicit Types (f g : A -> Q) (l : list A).

(** The mean of [f] over the observations [l]. *)
Definition meanf f l : Q := qsumf f l / qlen l.

(** [Σ (f x - mean f) (g x - mean g)]. *)
Definition comom f g l : Q :=
  Σ[ x <- l ] ((f x - meanf f l) * (g x - meanf g l)).

Lemma comom_sym f g l : comom f g l == comom g f l.
Proof. unfold comom. apply qsumf_ext. intros; ring. Qed.

Lemma comom_nonneg f l : 0 <= comom f f l.
Proof.
  apply qsumf_nonneg. intros x _.
  set (d := f x - meanf f l). nra.
Qed.

Lemma comom_expand f g l :
  l <> [] -> comom f g l == qsumf (fun x => f x * g x) l - qsumf f l * qsumf g l / qlen l.
Proof. intros Hne. apply qsumf_comoment, Hne. Qed.

Lemma meanf_ext f g l : (forall x, In x l -> f x == g x) -> meanf f l == meanf g l.
Proof. intros H. unfold meanf. now rewrite (qsumf_ext f g l H). Qed.

Lemma comom_ext f f' g g' l :
  (forall x, In x l -> f x == f' x) -> (forall x, In x l -> g x == g' x) ->
  comom f g l == comom f' g' l.
Proof.
  intros Hf Hg. unfold comom. apply qsumf_ext. intros x Hx.
  now rewrite (Hf x Hx), (Hg x Hx), (meanf_ext f f' l Hf), (meanf_ext g g' l Hg).
Qed.

Lemma meanf_affine a b f l :
  l <> [] -> meanf (fun x => a * f x + b) l == a * meanf f l + b.
Proof.
  intros Hne. pose proof (qlen_pos l Hne) as Hn. unfold meanf.
  rewrite qsumf_plus, qsumf_scale_l, qsumf_const. field. lra.
Qed.

(** A shift of [f] does not change the co-moment; a scaling scales it. *)
Lemma comom_affine_l a b f g l :
  comom (fun x => a * f x + b) g l == a * comom f g l.
Proof.
  destruct (nil_or_ne l) as [->|Hne]; [unfold comom, qsumf; simpl; ring|].
  unfold comom. rewrite <- qsumf_scale_l. apply qsumf_ext. intros x _.
  rewrite (meanf_affine a b f l Hne). ring.
Qed.

Lemma comom_affine_r a b f g l :
  comom f (fun x => a * g x + b) l == a * comom f g l.
Proof. rewrite comom_sym, comom_affine_l, comom_sym. reflexivity. Qed.

Lemma meanf_perm f l1 l2 : Permutation l1 l2 -> meanf f l1 == meanf f l2.
Proof.
  intros Hp. unfold meanf, qlen.
  now rewrite (Permutation_length Hp), (qsumf_perm f l1 l2 Hp).
Qed.

Lemma comom_perm f g l1 l2 : Permutation l1 l2 -> comom f g l1 == comom f g l2.
Proof.
  intros Hp. unfold comom. etransitivity; [apply qsumf_perm, Hp|].
  apply qsumf_ext. intros x _. now rewrite (meanf_perm f l1 l2 Hp), (meanf_perm g l1 l2 Hp).
Qed.

(** The sum of squares vanishes exactly when [f] is constant on [l]. *)
Lemma comom_zero_const f l :
  comom f f l == 0 -> forall x y, In x l -> In y l -> f x == f y.
Proof.
  intros Hz x y Hx Hy.
  assert (Hd : forall z, In z l -> (f z - meanf f l) * (f z - meanf f l) == 0).
  { apply (qsumf_nonneg_zero (fun z => (f z - meanf f l) * (f z - meanf f l)));
      [intros z _; set (d := f z - meanf f l); nra | exact Hz]. }
  pose proof (Hd x Hx) as H1. pose proof (Hd y Hy) as H2.
  apply Qmult_integral in H1, H2. destruct H1, H2; lra.
Qed.

Lemma comom_const_zero f l c :
  (forall x, In x l -> f x == c) -> comom f f l == 0.
Proof.
  intros Hc. destruct (nil_or_ne l) as [->|Hne]; [reflexivity|].
  pose proof (qlen_pos l Hne) as Hn.
  assert (Hm : meanf f l == c).
  { unfold meanf. rewrite (qsumf_ext f (fun _ => c) l Hc), qsumf_const. field. lra. }
  unfold comom. rewrite (qsumf_ext _ (fun _ => 0)); [rewrite qsumf_const; ring|].
  intros x Hx. rewrite (Hc x Hx), Hm. ring.
Qed.
(** With at least two distinct values the sum of squares is positive. *)
Lemma comom_pos f l x y :
  In x l -> In y l -> ~ f x == f y -> 0 < comom f f l.
Proof.
  intros Hx Hy Hne. pose proof (comom_nonneg f l).
  destruct (Qeq_dec (comom f f l) 0) as [Hz|Hz]; [|lra].
  exfalso. apply Hne. now apply (comom_zero_const f l Hz).
Qed.
End Comoment.

Lemma comom_map {A B} (h : B -> A) (f g : A -> Q) (l : list B) :
  comom f g (map h l) = comom (fun b => f (h b)) (fun b => g (h b)) l.
Proof. unfold comom, meanf. now rewrite !qsumf_map, !qlen_map. Qed.

#[export] Hint Resolve comom_nonneg : eda.

(** ** Cauchy-Schwarz *)

Section CauchySchwarz.
Context {A : Type}.
Implicit Types (f g : A -> Q) (l : list A).

(** The cross term of one new observation [(u, v)] against the rest:
    [u^2 Σg^2 + v^2 Σf^2 - 2uv Σfg = Σ (u g - v f)^2 >= 0]. *)
Lemma cross_term_nonneg f g l u v :
  0 <= u * u * qsumf (fun x => g x * g x) l + v * v * qsumf (fun x => f x * f x) l
       - 2 * u * v * qsumf (fun x => f x * g x) l.
Proof.
  assert (Hs : 0 <= qsumf (fun x => (u * g x - v * f x) * (u * g x - v * f x)) l).
  { apply qsumf_nonneg. intros x _. set (d := u * g x - v * f x). nra. }
  rewrite (qsumf_ext _ (fun x => u * u * (g x * g x) + (v * v * (f x * f x)
             - 2 * u * v * (f x * g x)))) in Hs by (intros; ring).
  rewrite qsumf_plus, qsumf_minus, !qsumf_scale_l in Hs. lra.
Qed.

Lemma cauchy_schwarz f g l :
  qsumf (fun x => f x * g x) l * qsumf (fun x => f x * g x) l
  <= qsumf (fun x => f x * f x) l * qsumf (fun x => g x * g x) l.
Proof.
  induction l as [|x l IH]; [apply Qle_refl|].
  rewrite !qsumf_cons.
  pose proof (cross_term_nonneg f g l (f x) (g x)). nra.
Qed.

(** The centred form used by the correlation coefficient. *)
Lemma comom_cauchy_schwarz f g l :
  comom f g l * comom f g l <= comom f f l * comom g g l.
Proof.
  apply (cauchy_schwarz (fun x => f x - meanf f l) (fun x => g x - meanf g l)).
Qed.
End CauchySchwarz.

(** ** The correlation coefficient as a real number *)

Open Scope R_scope.

(** [num / sqrt ssq]: the value of a correlation whose co-moment is [num]
    and whose product of sums of squares is [ssq]. *)
Definition ratio (num ssq : Q) : R := Q2R num / sqrt (Q2R ssq).

(** [max(min(r, 1.0), -1.0)], the clipping at the end of [pearsonr]. *)
Definition clip (r : R) : R := Rmax (Rmin r 1) (-1).

#[export] Instance ratio_proper : Proper (Qeq ==> Qeq ==> eq) ratio.
Proof. intros a b Hab c d Hcd. unfold ratio. now rewrite (Qeq_eqR _ _ Hab), (Qeq_eqR _ _ Hcd). Qed.

Lemma Q2R_unit_bounds (q : Q) : (-1 <= q <= 1)%Q -> -1 <= Q2R q <= 1.
Proof.
  intros [H1 H2]. apply Qle_Rle in H1, H2.
  replace (Q2R 1) with 1 in H2 by (unfold Q2R; simpl; field).
  replace (Q2R (-1)) with (-1) in H1 by (unfold Q2R; simpl; field).
  lra.
Qed.

Lemma clip_id r : -1 <= r <= 1 -> clip r = r.
Proof.
  intros [H1 H2]. unfold clip.
  rewrite Rmin_left by exact H2. apply Rmax_left. exact H1.
Qed.

(** Cauchy-Schwarz in [Q] puts the ratio in [-1, 1]. *)
Lemma ratio_bounded (num ssq : Q) :
  (0 < ssq)%Q -> (num * num <= ssq)%Q -> -1 <= ratio num ssq <= 1.
Proof.
  intros Hpos Hcs. unfold ratio.
  apply Qlt_Rlt in Hpos. apply Qle_Rle in Hcs.
  rewrite Q2R_mult in Hcs. rewrite RMicromega.Q2R_0 in Hpos.
  set (n := Q2R num) in *. set (s := Q2R ssq) in *.
  assert (Hsq : 0 < sqrt s) by (apply sqrt_lt_R0; lra).
  assert (Habs : Rabs n <= sqrt s).
  { rewrite <- sqrt_Rsqr_abs. apply sqrt_le_1_alt. unfold Rsqr. lra. }
  pose proof (Rle_abs n) as Hn1. pose proof (Rle_abs (- n)) as Hn2.
  rewrite Rabs_Ropp in Hn2.
  split.
  - apply (Rmult_le_reg_r (sqrt s)); [exact Hsq|].
    unfold Rdiv. rewrite Rmult_assoc, Rinv_l by lra. lra.
  - apply (Rmult_le_reg_r (sqrt s)); [exact Hsq|].
    unfold Rdiv. rewrite Rmult_assoc, Rinv_l by lra. lra.
Qed.

(** Scaling the co-moment by [a] and the squares by [a^2] multiplies the
    ratio by the sign of [a]. *)
Lemma ratio_scale (a num ssq : Q) :
  ~ (a == 0)%Q -> (0 <= ssq)%Q ->
  ratio (a * num) (a * a * ssq) = (Q2R a / Rabs (Q2R a)) * ratio num ssq.
Proof.
  intros Ha Hs. unfold ratio. rewrite !Q2R_mult.
  apply Qle_Rle in Hs. rewrite RMicromega.Q2R_0 in Hs.
  assert (Hna : Q2R a <> 0).
  { intros H. apply Ha. apply eqR_Qeq. now rewrite H, RMicromega.Q2R_0. }
  rewrite sqrt_mult_alt by (apply Rle_0_sqr).
  replace (sqrt (Q2R a * Q2R a)) with (Rabs (Q2R a)) by (rewrite <- sqrt_Rsqr_abs; reflexivity).
  assert (0 < Rabs (Q2R a)) by (apply Rabs_pos_lt, Hna).
  destruct (Req_dec (sqrt (Q2R ssq)) 0) as [Hz|Hz].
  - rewrite Hz, Rmult_0_r. unfold Rdiv. rewrite Rinv_0. ring.
  - field. split; [exact Hz|lra].
Qed.
