(* ===== verification/Pearson.v ===== *)
(** * Pearson: [scipy.stats.pearsonr], as called at lines 99-125

    The script calls [stats.pearsonr(df[c], df['price'])] for nine numeric
    columns [c] and prints the coefficient and its p-value.  The model
    follows scipy's [pearsonr] on two float columns: the length checks
    (a [ValueError] when the lengths differ or are below 2), the NaN result
    on a constant input, the shortcut [sign(x1-x0) * sign(y1-y0)] for two
    observations, and otherwise the centred co-moment divided by the
    product of the norms of the centred vectors, clipped to [-1, 1].  A NaN
    cell makes neither column constant ([NaN == x] is false); with two
    observations it makes the shortcut NaN, and with three or more the
    norm [scipy.linalg.norm], which checks that its input is finite,
    raises [ValueError] (scipy 1.9 to 1.11).  The p-value is not
    modelled. *)

From S2P Require Import Prelude Moments.
From Stdlib Require Import Reals Qreals.

Module Pearson.

(** ** The function *)

(** [a == b] on float cells: a NaN compares unequal to everything. *)
Definition cell_eqb (a b : option Q) : bool :=
  match a, b with
  | Some x, Some y => Qeq_bool x y
  | _, _ => false
  end.

(** [(x == x[0]).all()]. *)
Definition is_constant (x : list (option Q)) : bool :=
  match x with
  | [] => true
  | x0 :: _ => forallb (fun c => cell_eqb c x0) x
  end.

(** [np.sign]. *)
Definition qsign (q : Q) : Q :=
  if Qlt_le_dec 0 q then 1 else if Qeq_dec q 0 then 0 else -1.

(** The statistic scipy returns: NaN, the two-point shortcut, or the
    general coefficient given by the co-moment and the two sums of squares
    of the centred vectors. *)
Inductive pearson_stat :=
| PNaN
| PTwo (r : Q)
| PGen (num ssx ssy : Q).

(** [if n == 2: r = sign(x[1] - x[0]) * sign(y[1] - y[0])]. *)
Definition pearson_two (xs ys : list Q) : option Q :=
  match xs, ys with
  | [x0; x1], [y0; y1] => Some (qsign (x1 - x0) * qsign (y1 - y0))
  | _, _ => None
  end.

(** The computation on finite inputs: [xm = x - xmean], [ym = y - ymean],
    [r = dot(xm/norm(xm), ym/norm(ym))]. *)
Definition pearson_finite (xs ys : list Q) : pearson_stat :=
  match pearson_two xs ys with
  | Some r => PTwo r
  | None =>
      let ps := combine xs ys in
      PGen (comom fst snd ps) (comom fst fst ps) (comom snd snd ps)
  end.

(** The message of [np.asarray_chkfinite], which [scipy.linalg.norm]
    calls on [xm] and [ym] ([check_finite=True]). *)
Definition nan_msg : string := "array must not contain infs or NaNs".

(** [stats.pearsonr(x, y)]: a NaN cell gives NaN through the two-point
    shortcut, and otherwise makes [linalg.norm(xm)] or [linalg.norm(ym)]
    raise. *)
Definition pearsonr (x y : list (option Q)) : result pearson_stat :=
  let n := length x in
  if negb (n =? length y) then Err (ValueError "x and y must have the same length.")
  else if n <? 2 then Err (ValueError "x and y must have length at least 2.")
  else if is_constant x || is_constant y then Ok PNaN
  else match finite_values x, finite_values y with
       | Some xs, Some ys => Ok (pearson_finite xs ys)
       | _, _ => if n =? 2 then Ok PNaN else Err (ValueError nan_msg)
       end.

(** The statistic as a real number; [None] is NaN.  The general case is
    [max(min(r, 1.0), -1.0)] of [num / (norm(xm) * norm(ym))]. *)
Definition statistic (p : pearson_stat) : option R :=
  match p with
  | PNaN => None
  | PTwo r => Some (Q2R r)
  | PGen num ssx ssy => Some (clip (Q2R num / (sqrt (Q2R ssx) * sqrt (Q2R ssy))))
  end.

(** ** Lemmas on the helpers *)

Lemma is_constant_some xs :
  is_constant (map Some xs) = true <-> (forall a b, In a xs -> In b xs -> a == b).
Proof.
  destruct xs as [|a0 xs]; simpl; [split; [intros _ a b []|reflexivity]|].
  rewrite Qeq_bool_refl. simpl. rewrite forallb_forall. split.
  - intros H.
    assert (Ha : forall a, In a (a0 :: xs) -> a == a0).
    { intros a [<-|Ha]; [reflexivity|].
      apply Qeq_bool_eq, (H (Some a)). apply in_map, Ha. }
    intros a b Hina Hinb. rewrite (Ha a Hina), (Ha b Hinb). reflexivity.
  - intros H c Hc. apply in_map_iff in Hc as (a & <- & Ha). simpl.
    apply Qeq_bool_iff, H; [now right|now left].
Qed.

Lemma map_fst_combine {A B} (xs : list A) (ys : list B) :
  length xs = length ys -> map fst (combine xs ys) = xs.
Proof.
  revert ys. induction xs as [|a xs IH]; intros [|b ys] H; simpl in *; try easy.
  f_equal. apply IH. lia.
Qed.

Lemma map_snd_combine {A B} (xs : list A) (ys : list B) :
  length xs = length ys -> map snd (combine xs ys) = ys.
Proof.
  revert ys. induction xs as [|a xs IH]; intros [|b ys] H; simpl in *; try easy.
  f_equal. apply IH. lia.
Qed.

Lemma combine_swap {A B} (xs : list A) (ys : list B) :
  combine ys xs = map (fun p => (snd p, fst p)) (combine xs ys).
Proof.
  revert ys. induction xs as [|a xs IH]; intros [|b ys]; simpl; try easy.
  now rewrite IH.
Qed.

(** A non-constant coordinate has a positive centred sum of squares. *)
Lemma comom_pos_of_values {A} (f : A -> Q) (ps : list A) :
  (exists a b, In a (map f ps) /\ In b (map f ps) /\ ~ a == b) -> 0 < comom f f ps.
Proof.
  intros (a & b & Ha & Hb & Hne).
  apply in_map_iff in Ha as (p & <- & Hp). apply in_map_iff in Hb as (q & <- & Hq).
  exact (comom_pos f ps p q Hp Hq Hne).
Qed.

Lemma not_constant_witness xs :
  is_constant (map Some xs) = false -> exists a b, In a xs /\ In b xs /\ ~ a == b.
Proof.
  destruct xs as [|a0 xs]; [discriminate|]. simpl. rewrite Qeq_bool_refl. simpl.
  intros H. apply forallb_false_exists in H as (c & Hc & Hf).
  apply in_map_iff in Hc as (a & <- & Ha). simpl in Hf.
  exists a, a0. split; [now right|split; [now left|]].
  intros E. apply Qeq_bool_iff in E. congruence.
Qed.

Lemma qsign_bounded q : -1 <= qsign q <= 1.
Proof.
  unfold qsign. destruct (Qlt_le_dec 0 q); [lra|]. destruct (Qeq_dec q 0); lra.
Qed.

#[export] Instance qsign_proper : Proper (Qeq ==> eq) qsign.
Proof.
  intros p q Hpq. unfold qsign.
  destruct (Qlt_le_dec 0 p), (Qlt_le_dec 0 q); try reflexivity; try lra.
  destruct (Qeq_dec p 0), (Qeq_dec q 0); try reflexivity; lra.
Qed.

Lemma qsign_scale_pos a q : 0 < a -> qsign (a * q) = qsign q.
Proof.
  intros Ha. unfold qsign.
  destruct (Qlt_le_dec 0 (a * q)), (Qlt_le_dec 0 q); try reflexivity; try nra.
  destruct (Qeq_dec (a * q) 0) as [E|E], (Qeq_dec q 0) as [E'|E']; try reflexivity.
  - exfalso. apply Qmult_integral in E as [E|E]; lra.
  - exfalso. apply E. rewrite E'. ring.
Qed.

Lemma pearson_two_sym xs ys :
  option_map Q2R (pearson_two xs ys) = option_map Q2R (pearson_two ys xs).
Proof.
  destruct xs as [|x0 [|x1 [|x2 xs]]], ys as [|y0 [|y1 [|y2 ys]]]; try reflexivity.
  simpl. f_equal. apply Qeq_eqR. ring.
Qed.

Lemma gen_value num sx sy :
  (0 <= sx)%Q -> (Q2R num / (sqrt (Q2R sx) * sqrt (Q2R sy)))%R = ratio num (sx * sy).
Proof.
  intros Hx. unfold ratio. rewrite Q2R_mult, sqrt_mult_alt; [reflexivity|].
  apply Qle_Rle in Hx. now rewrite RMicromega.Q2R_0 in Hx.
Qed.

(** On two non-constant finite columns of equal length, the general case
    has positive sums of squares bounding the co-moment. *)
Lemma pearson_finite_gen xs ys num sx sy :
  length xs = length ys ->
  (exists a b, In a xs /\ In b xs /\ ~ a == b) ->
  (exists a b, In a ys /\ In b ys /\ ~ a == b) ->
  pearson_finite xs ys = PGen num sx sy ->
  0 < sx /\ 0 < sy /\ num * num <= sx * sy.
Proof.
  intros Hlen Hx Hy. unfold pearson_finite.
  destruct (pearson_two xs ys); [discriminate|]. intros [= <- <- <-].
  split; [|split]; [apply comom_pos_of_values..|apply comom_cauchy_schwarz].
  - now rewrite map_fst_combine.
  - now rewrite map_snd_combine.
Qed.

Lemma pearson_finite_two xs ys r :
  pearson_finite xs ys = PTwo r -> -1 <= r <= 1.
Proof.
  unfold pearson_finite.
  destruct xs as [|x0 [|x1 [|x2 xs]]], ys as [|y0 [|y1 [|y2 ys]]]; try discriminate.
  intros [= <-]. pose proof (qsign_bounded (x1 - x0)). pose proof (qsign_bounded (y1 - y0)).
  split; nra.
Qed.

Lemma pearson_finite_not_nan xs ys : pearson_finite xs ys <> PNaN.
Proof. unfold pearson_finite. now destruct (pearson_two xs ys). Qed.

(** What an [Ok] result is made of. *)
Lemma pearsonr_ok x y p :
  pearsonr x y = Ok p ->
  p = PNaN \/
  exists xs ys, x = map Some xs /\ y = map Some ys /\ length xs = length ys /\
    (2 <= length xs)%nat /\ is_constant x = false /\ is_constant y = false /\
    p = pearson_finite xs ys.
Proof.
  unfold pearsonr.
  destruct (length x =? length y) eqn:E1; simpl; [|discriminate].
  destruct (length x <? 2) eqn:E2; [discriminate|].
  destruct (is_constant x) eqn:E3, (is_constant y) eqn:E4; simpl; try (intros [= <-]; now left).
  destruct (finite_values x) as [xs|] eqn:Fx, (finite_values y) as [ys|] eqn:Fy;
    try (destruct (length x =? 2); [intros [= <-]; now left|discriminate]).
  intros [= <-]. right. exists xs, ys.
  apply finite_values_spec in Fx as ->, Fy as ->.
  rewrite !length_map in *. apply Nat.eqb_eq in E1. apply Nat.ltb_ge in E2.
  repeat split; auto.
Qed.

Lemma pearsonr_gen x y num sx sy :
  pearsonr x y = Ok (PGen num sx sy) -> 0 < sx /\ 0 < sy /\ num * num <= sx * sy.
Proof.
  intros H. destruct (pearsonr_ok x y _ H) as [?|(xs & ys & -> & -> & Hl & _ & Hcx & Hcy & Hp)];
    [discriminate|].
  apply (pearson_finite_gen xs ys); auto using not_constant_witness.
Qed.

(** ** Properties *)

(** The statistic is NaN or a value; a value is what the general formula or
    the two-point shortcut gives, and clipping never changes it. *)
Lemma pearsonr_gen_value x y num sx sy :
  pearsonr x y = Ok (PGen num sx sy) ->
  statistic (PGen num sx sy) = Some (ratio num (sx * sy)).
Proof.
  intros H. destruct (pearsonr_gen x y num sx sy H) as (Hx & Hy & Hcs).
  simpl. rewrite gen_value by lra. f_equal. apply clip_id, ratio_bounded; [nra|exact Hcs].
Qed.

(** C24: The clipping [max(min(r, 1.0), -1.0)] at the end of [pearsonr]
    never changes the coefficient: in exact arithmetic the general formula
    already lies in [-1, 1] (Cauchy-Schwarz). *)
Theorem pearsonr_clip_noop x y num sx sy :
  pearsonr x y = Ok (PGen num sx sy) ->
  clip (Q2R num / (sqrt (Q2R sx) * sqrt (Q2R sy))) = (Q2R num / (sqrt (Q2R sx) * sqrt (Q2R sy)))%R.
Proof.
  intros H. destruct (pearsonr_gen x y num sx sy H) as (Hx & Hy & Hcs).
  rewrite gen_value by lra. apply clip_id, ratio_bounded; [nra|exact Hcs].
Qed.

(** C32: [pearsonr] raises [ValueError] exactly when the columns differ in
    length, have fewer than two entries, or have three or more entries,
    neither column is constant and one of them holds a NaN (raised by
    [scipy.linalg.norm] on the centred vector), each with scipy's
    message. *)
Theorem pearsonr_error x y e :
  pearsonr x y = Err e <->
  (length x <> length y /\ e = ValueError "x and y must have the same length.") \/
  (length x = length y /\ (length x < 2)%nat /\ e = ValueError "x and y must have length at least 2.") \/
  (length x = length y /\ (3 <= length x)%nat /\ is_constant x = false /\ is_constant y = false /\
   (finite_values x = None \/ finite_values y = None) /\ e = ValueError nan_msg).
Proof.
  unfold pearsonr.
  destruct (Nat.eqb_spec (length x) (length y)) as [E1|E1]; simpl.
  2: { split; [intros [= <-]; left; auto|]. intros [[_ ->]|[[]|[]]]; [reflexivity|contradiction..]. }
  destruct (Nat.ltb_spec (length x) 2) as [E2|E2].
  { split; [intros [= <-]; right; left; auto|]. intros [[]|[(_ & _ & ->)|(_ & ? & _)]]; [done|done|lia]. }
  destruct (is_constant x) eqn:Cx, (is_constant y) eqn:Cy; simpl.
  1-3: split; [discriminate|intros [[]|[(_ & ? & _)|(_ & _ & ? & ? & _)]]; try done; try lia; congruence].
  destruct (finite_values x) eqn:Fx, (finite_values y) eqn:Fy.
  { split; [discriminate|intros [[]|[(_ & ? & _)|(_ & _ & _ & _ & [?|?] & _)]]; try done; try lia; congruence]. }
  all: destruct (Nat.eqb_spec (length x) 2).
  all: try (split; [discriminate|intros [[]|[(_ & ? & _)|(_ & ? & _)]]; try done; lia]).
  all: split; [intros [= <-]; right; right; split_and!; auto; lia|].
  all: intros [[]|[(_ & ? & _)|(_ & _ & _ & _ & _ & ->)]]; [done|lia|done].
Qed.

(** Whenever [pearsonr] returns a coefficient, it lies in [-1, 1]. *)
Theorem pearsonr_statistic_bounded x y p r :
  pearsonr x y = Ok p -> statistic p = Some r -> (-1 <= r <= 1)%R.
Proof.
  intros H Hs. destruct p as [|r'|num sx sy]; [discriminate| |].
  - simpl in Hs. injection Hs as <-.
    destruct (pearsonr_ok x y _ H) as [?|(xs & ys & _ & _ & _ & _ & _ & _ & Hp)]; [discriminate|].
    symmetry in Hp. now apply Q2R_unit_bounds, (pearson_finite_two xs ys).
  - rewrite (pearsonr_gen_value x y num sx sy H) in Hs. injection Hs as <-.
    destruct (pearsonr_gen x y num sx sy H) as (? & ? & ?).
    apply ratio_bounded; [nra|assumption].
Qed.

(** *** Symmetry *)

Lemma comom_swap_fst_snd (ps : list (Q * Q)) :
  comom fst snd (map (fun p => (snd p, fst p)) ps) == comom fst snd ps.
Proof. rewrite comom_map. apply comom_sym. Qed.

Lemma comom_swap_sq (ps : list (Q * Q)) :
  comom fst fst (map (fun p => (snd p, fst p)) ps) = comom snd snd ps /\
  comom snd snd (map (fun p => (snd p, fst p)) ps) = comom fst fst ps.
Proof. now rewrite !comom_map. Qed.

Lemma pearson_finite_sym xs ys :
  statistic (pearson_finite xs ys) = statistic (pearson_finite ys xs).
Proof.
  unfold pearson_finite.
  pose proof (pearson_two_sym xs ys) as Ht.
  destruct (pearson_two xs ys) as [r|], (pearson_two ys xs) as [r'|];
    simpl in Ht; try discriminate; simpl; [congruence|].
  rewrite (combine_swap xs ys). destruct (comom_swap_sq (combine xs ys)) as [-> ->].
  rewrite (Qeq_eqR _ _ (comom_swap_fst_snd _)), (Rmult_comm (sqrt _)). reflexivity.
Qed.

(** *** Affine maps of a column *)

Lemma cell_eqb_affine a b c d :
  ~ a == 0 ->
  cell_eqb (option_map (fun v => a * v + b) c) (option_map (fun v => a * v + b) d) = cell_eqb c d.
Proof.
  intros Ha. destruct c as [v|], d as [w|]; try reflexivity. simpl.
  destruct (Qeq_bool v w) eqn:E, (Qeq_bool (a * v + b) (a * w + b)) eqn:E'; try reflexivity.
  - exfalso. apply Qeq_bool_iff in E. rewrite E, Qeq_bool_refl in E'. discriminate.
  - exfalso. apply Qeq_bool_iff in E'.
    assert (Hvw : a * (v - w) == 0) by lra.
    apply Qmult_integral in Hvw as [?|?]; [contradiction|].
    assert (v == w) as Hv by lra. apply Qeq_bool_iff in Hv. congruence.
Qed.

Lemma forallb_cell_affine a b d l :
  ~ a == 0 ->
  forallb (fun c => cell_eqb c (option_map (fun v => a * v + b) d))
    (map (option_map (fun v => a * v + b)) l) = forallb (fun c => cell_eqb c d) l.
Proof.
  intros Ha. induction l as [|c l IH]; [reflexivity|]. simpl. now rewrite cell_eqb_affine, IH.
Qed.

Lemma is_constant_affine a b x :
  ~ a == 0 -> is_constant (affine a b x) = is_constant x.
Proof.
  intros Ha. destruct x as [|c0 x]; [reflexivity|].
  exact (forallb_cell_affine a b c0 (c0 :: x) Ha).
Qed.

Lemma pearson_two_affine a b xs ys :
  0 < a -> pearson_two (map (fun v => a * v + b) xs) ys = pearson_two xs ys.
Proof.
  intros Ha.
  destruct xs as [|x0 [|x1 [|x2 xs]]], ys as [|y0 [|y1 [|y2 ys]]]; try reflexivity.
  simpl. do 2 f_equal.
  rewrite (qsign_proper _ (a * (x1 - x0))) by ring. now apply qsign_scale_pos.
Qed.

Lemma combine_map_l {A B C} (f : A -> C) (xs : list A) (ys : list B) :
  combine (map f xs) ys = map (fun p => (f (fst p), snd p)) (combine xs ys).
Proof.
  revert ys. induction xs as [|a xs IH]; intros [|b ys]; simpl; try easy. now rewrite IH.
Qed.

(** Scaling the co-moment by [a > 0] and one sum of squares by [a^2]
    leaves the coefficient unchanged. *)
Lemma scaled_value_pos a num sx sy :
  0 < a -> 0 <= sx ->
  (Q2R (a * num) / (sqrt (Q2R (a * a * sx)) * sqrt (Q2R sy)) =
   Q2R num / (sqrt (Q2R sx) * sqrt (Q2R sy)))%R.
Proof.
  intros Ha Hx. apply Qlt_Rlt in Ha. apply Qle_Rle in Hx.
  rewrite RMicromega.Q2R_0 in Ha, Hx. rewrite !Q2R_mult.
  rewrite sqrt_mult_alt by nra. rewrite sqrt_square by lra.
  rewrite Rmult_assoc.
  destruct (Req_dec (sqrt (Q2R sx) * sqrt (Q2R sy)) 0) as [Z|Z].
  - rewrite Z, Rmult_0_r. unfold Rdiv. rewrite Rinv_0. ring.
  - assert (sqrt (Q2R sx) <> 0)%R by (intros E; apply Z; rewrite E; ring).
    assert (sqrt (Q2R sy) <> 0)%R by (intros E; apply Z; rewrite E; ring).
    field. repeat split; auto; lra.
Qed.

Lemma pearson_finite_affine a b xs ys :
  0 < a ->
  statistic (pearson_finite (map (fun v => a * v + b) xs) ys) = statistic (pearson_finite xs ys).
Proof.
  intros Ha. unfold pearson_finite. rewrite pearson_two_affine by exact Ha.
  destruct (pearson_two xs ys); [reflexivity|]. simpl.
  rewrite combine_map_l, !comom_map. simpl.
  set (ps := combine xs ys).
  assert (Hsx : comom (fun p => a * fst p + b) (fun p => a * fst p + b) ps
                == a * a * comom fst fst ps)
    by (rewrite comom_affine_l, comom_affine_r; ring).
  rewrite (Qeq_eqR _ _ (comom_affine_l a b fst (fun p => snd p) ps)), (Qeq_eqR _ _ Hsx).
  change (comom (fun p : Q * Q => snd p) (fun p => snd p) ps) with (comom snd snd ps).
  rewrite scaled_value_pos by auto with eda. reflexivity.
Qed.

(** ** Two observations *)

Lemma ratio_square q : ratio q (q * q) = (Q2R q / Rabs (Q2R q))%R.
Proof.
  unfold ratio. rewrite Q2R_mult.
  now replace (sqrt (Q2R q * Q2R q)) with (Rabs (Q2R q)) by (rewrite <- sqrt_Rsqr_abs; reflexivity).
Qed.

Lemma qsign_R q : ~ q == 0 -> Q2R (qsign q) = (Q2R q / Rabs (Q2R q))%R.
Proof.
  intros Hq. unfold qsign.
  destruct (Qlt_le_dec 0 q) as [H|H].
  - apply Qlt_Rlt in H. rewrite RMicromega.Q2R_0 in H.
    rewrite Rabs_right by lra. rewrite RMicromega.Q2R_1. field. lra.
  - destruct (Qeq_dec q 0) as [E|E]; [contradiction|].
    assert (H' : q < 0) by lra. apply Qlt_Rlt in H'. rewrite RMicromega.Q2R_0 in H'.
    rewrite Rabs_left by lra. replace (Q2R (-1)) with (-1)%R by (unfold Q2R; simpl; field).
    field. lra.
Qed.

(** C35: [pearsonr] is symmetric in its two columns, errors included: the
    same coefficient, NaN, or the same exception. *)
Theorem pearsonr_sym x y :
  result_map statistic (pearsonr x y) = result_map statistic (pearsonr y x).
Proof.
  unfold pearsonr. cbv zeta. rewrite (Nat.eqb_sym (length y)).
  destruct (Nat.eqb_spec (length x) (length y)) as [E|E]; simpl; [|reflexivity].
  rewrite E, orb_comm.
  destruct (length y <? 2); [reflexivity|].
  destruct (is_constant y || is_constant x); [reflexivity|].
  destruct (finite_values x), (finite_values y); try reflexivity.
  simpl. f_equal. apply pearson_finite_sym.
Qed.

(** on finite columns of equal length [n >= 2], the statistic is NaN
    exactly when one of the columns is constant. *)
Theorem pearsonr_nan_iff xs ys :
  length xs = length ys -> (2 <= length xs)%nat ->
  pearsonr (map Some xs) (map Some ys) = Ok PNaN <->
  (forall a b, In a xs -> In b xs -> a == b) \/ (forall a b, In a ys -> In b ys -> a == b).
Proof.
  intros Hl H2. unfold pearsonr. rewrite !length_map, Hl, Nat.eqb_refl. simpl.
  replace (length ys <? 2) with false by (symmetry; apply Nat.ltb_ge; lia).
  rewrite <- !is_constant_some, !finite_values_map_some.
  destruct (is_constant (map Some xs)), (is_constant (map Some ys)); simpl;
    try (split; [intros _|intros _; reflexivity]; auto; fail).
  split; [intros [= H]; exfalso; exact (pearson_finite_not_nan xs ys H)|].
  intros [H|H]; discriminate.
Qed.

(** A positive affine change of units of a column ([a * x + b], [a > 0])
    does not change the statistic. *)
Theorem pearsonr_affine_pos a b x y :
  0 < a -> result_map statistic (pearsonr (affine a b x) y) = result_map statistic (pearsonr x y).
Proof.
  intros Ha. unfold pearsonr. rewrite length_affine.
  rewrite is_constant_affine by lra. rewrite finite_values_affine.
  destruct (negb _); [reflexivity|]. destruct (_ <? 2); [reflexivity|].
  destruct (_ || _); [reflexivity|].
  destruct (finite_values x), (finite_values y); try reflexivity.
  simpl. f_equal. now apply pearson_finite_affine.
Qed.

(** The two-point shortcut against the general formula (shared with
    [Corr]). *)
Lemma two_point_ratio x0 x1 y0 y1 :
  ~ x0 == x1 -> ~ y0 == y1 ->
  Q2R (qsign (x1 - x0) * qsign (y1 - y0)) =
  ratio (comom fst snd [(x0, y0); (x1, y1)])
        (comom fst fst [(x0, y0); (x1, y1)] * comom snd snd [(x0, y0); (x1, y1)]).
Proof.
  intros Hx Hy. set (q := (x1 - x0) * (y1 - y0) / 2).
  assert (Hn : comom fst snd [(x0, y0); (x1, y1)] == q)
    by (unfold comom, meanf, qsumf, qlen, q; simpl; field).
  assert (Hs : comom fst fst [(x0, y0); (x1, y1)] * comom snd snd [(x0, y0); (x1, y1)] == q * q)
    by (unfold comom, meanf, qsumf, qlen, q; simpl; field).
  rewrite Hn, Hs, ratio_square, Q2R_mult, !qsign_R by lra.
  unfold q. rewrite Q2R_div by discriminate. rewrite Q2R_mult.
  replace (Q2R 2) with 2%R by (unfold Q2R; simpl; field).
  unfold Rdiv. rewrite !Rabs_mult, Rabs_inv, (Rabs_right 2) by lra.
  assert (Q2R (x1 - x0) <> 0)%R.
  { intros E. apply Hx. rewrite <- RMicromega.Q2R_0 in E. apply eqR_Qeq in E. lra. }
  assert (Q2R (y1 - y0) <> 0)%R.
  { intros E. apply Hy. rewrite <- RMicromega.Q2R_0 in E. apply eqR_Qeq in E. lra. }
  field. split; apply Rabs_no_R0; assumption.
Qed.

(** The two-point shortcut [sign(x1-x0) * sign(y1-y0)] is the value the
    general formula gives on two observations. *)
Theorem pearson_two_agrees x0 x1 y0 y1 :
  ~ x0 == x1 -> ~ y0 == y1 ->
  Q2R (qsign (x1 - x0) * qsign (y1 - y0)) =
  ratio (comom fst snd [(x0, y0); (x1, y1)])
        (comom fst fst [(x0, y0); (x1, y1)] * comom snd snd [(x0, y0); (x1, y1)]).
Proof. apply two_point_ratio. Qed.

(** ** Witnesses *)

Lemma pearsonr_clip_noop_witness :
  clip (Q2R (729 # 729) / (sqrt (Q2R (1458 # 729)) * sqrt (Q2R (1458 # 729)))) =
  (Q2R (729 # 729) / (sqrt (Q2R (1458 # 729)) * sqrt (Q2R (1458 # 729))))%R.
Proof. apply (pearsonr_clip_noop [Some 1; Some 2; Some 3] [Some 1; Some 3; Some 2]). reflexivity. Defined.

Definition x_ex : list (option Q) := [Some 1; Some 2; Some 3].
Definition y_ex : list (option Q) := [Some 1; Some 3; Some 2].

Lemma pearsonr_statistic_bounded_witness :
  pearsonr x_ex y_ex = Ok (PGen (729 # 729) (1458 # 729) (1458 # 729)) /\
  (-1 <= clip (Q2R (729 # 729) / (sqrt (Q2R (1458 # 729)) * sqrt (Q2R (1458 # 729)))) <= 1)%R.
Proof.
  split; [reflexivity|].
  apply (pearsonr_statistic_bounded x_ex y_ex (PGen (729 # 729) (1458 # 729) (1458 # 729)));
    reflexivity.
Defined.

Lemma pearsonr_nan_iff_witness :
  pearsonr (map Some [1; 2; 4]) (map Some [1; 1; 1]) = Ok PNaN <->
  (forall a b, In a [1; 2; 4] -> In b [1; 2; 4] -> a == b) \/
  (forall a b, In a [1; 1; 1] -> In b [1; 1; 1] -> a == b).
Proof. apply pearsonr_nan_iff; simpl; lia. Defined.

Lemma pearsonr_affine_pos_witness :
  result_map statistic (pearsonr (affine 2 3 x_ex) y_ex) = result_map statistic (pearsonr x_ex y_ex).
Proof. apply pearsonr_affine_pos. reflexivity. Defined.

Lemma pearson_two_agrees_witness :
  Q2R (qsign (3 - 1) * qsign (2 - 5)) =
  ratio (comom fst snd [(1, 5); (3, 2)]) (comom fst fst [(1, 5); (3, 2)] * comom snd snd [(1, 5); (3, 2)]).
Proof. apply pearson_two_agrees; discriminate. Defined.

End Pearson.
