(* ===== verification/Anova.v ===== *)
(** * Anova: [scipy.stats.f_oneway], as called at lines 135-152

    The script runs a one-way analysis of variance of [price] across the
    three [drive-wheels] groups (line 135) and then across each pair of
    groups (lines 142, 146, 150).  The model follows scipy's [f_oneway] on
    one-dimensional samples:
    - fewer than two samples raise [TypeError];
    - an empty sample, or samples all of length 1, give NaN;
    - otherwise scipy subtracts the grand mean ([offset]) from the data and
      computes the sums of squares with its square-of-sums formulas
      ([normalized_ss], [sstot], the loop accumulating [ssbn], [sswn]),
      then [f = (ssbn / dfbn) / (sswn / dfwn)];
    - the result is then replaced by NaN when all the data are equal, and
      by infinity when every sample is constant;
    - a NaN cell makes [f] NaN.
    The p-value ([special.fdtrc]) is not modelled.

    The reference definitions are the textbook sums of squares: between
    groups [Σ n_i (m_i - m)^2], within groups [Σ_i Σ_x (x - m_i)^2], total
    [Σ_x (x - m)^2]. *)

From S2P Require Import Prelude Moments.
From stdpp Require Import pretty.

Open Scope Q_scope.

Module Anova.

(** ** scipy's computation *)

(** The statistic: NaN, infinity, or a finite value. *)
Inductive fstat :=
| FNaN
| FInf
| FVal (f : Q).

(** [_square_of_sums]: [(Σ x)^2]. *)
Definition square_of_sums (l : list Q) : Q := qsum l * qsum l.

(** [_sum_of_squares]: [Σ x^2]. *)
Definition sum_of_squares (l : list Q) : Q := Σ[ x <- l ] (x * x).

(** [(_first(a) == a).all()] on finite data. *)
Definition all_equal (l : list Q) : bool :=
  match l with
  | [] => true
  | x0 :: _ => forallb (fun x => Qeq_bool x x0) l
  end.

(** [alldata.mean()]. *)
Definition offset (samples : list (list Q)) : Q := qmean (concat samples).

(** [sample - offset]. *)
Definition centre (o : Q) (l : list Q) : list Q := map (fun x => x - o) l.

Definition normalized_ss (samples : list (list Q)) : Q :=
  square_of_sums (centre (offset samples) (concat samples)) / qlen (concat samples).

Definition sstot (samples : list (list Q)) : Q :=
  sum_of_squares (centre (offset samples) (concat samples)) - normalized_ss samples.

(** [ssbn = 0; for sample in samples: ssbn = ssbn + smo_ss / len(sample);
    ssbn -= normalized_ss]. *)
Definition ssbn (samples : list (list Q)) : Q :=
  fold_left (fun acc s => acc + square_of_sums (centre (offset samples) s) / qlen s) samples 0
  - normalized_ss samples.

Definition sswn (samples : list (list Q)) : Q := sstot samples - ssbn samples.

(** [dfbn = num_groups - 1], [dfwn = bign - num_groups]. *)
Definition dfbn (samples : list (list Q)) : Q := qlen samples - 1.
Definition dfwn (samples : list (list Q)) : Q := qlen (concat samples) - qlen samples.

(** [msb / msw] with [msb = ssbn / dfbn] and [msw = sswn / dfwn]. *)
Definition f_value (samples : list (list Q)) : Q :=
  (ssbn samples / dfbn samples) / (sswn samples / dfwn samples).

(** The statistic on finite, non-empty samples, after the constant-input
    replacements. *)
Definition f_oneway_finite (samples : list (list Q)) : fstat :=
  if all_equal (concat samples) then FNaN
  else if forallb all_equal samples then FInf
  else FVal (f_value samples).

Definition f_oneway (samples : list (list (option Q))) : result fstat :=
  if length samples <? 2 then
    Err (TypeError ("at least two inputs are required; got " +:+ pretty (N.of_nat (length samples)) +:+ "."))
  else if existsb (fun s => length s =? 0) samples then Ok FNaN
  else if forallb (fun s => length s =? 1) samples then Ok FNaN
  else match mapM finite_values samples with
       | Some xs => Ok (f_oneway_finite xs)
       | None => Ok FNaN
       end.

(** ** The textbook definitions *)

Definition grand_mean (samples : list (list Q)) : Q := qmean (concat samples).

Definition ss_between (samples : list (list Q)) : Q :=
  Σ[ s <- samples ] (qlen s * ((qmean s - grand_mean samples) * (qmean s - grand_mean samples))).

Definition ss_within (samples : list (list Q)) : Q :=
  Σ[ s <- samples ] Σ[ x <- s ] ((x - qmean s) * (x - qmean s)).

Definition ss_total (samples : list (list Q)) : Q :=
  Σ[ x <- concat samples ] ((x - grand_mean samples) * (x - grand_mean samples)).

(** [F = (SSB / (k - 1)) / (SSW / (N - k))]. *)
Definition f_ref (samples : list (list Q)) : Q :=
  (ss_between samples / (qlen samples - 1)) / (ss_within samples / (qlen (concat samples) - qlen samples)).

(** The square of the pooled two-sample Student statistic:
    [t^2 = (m1 - m2)^2 / (sp^2 (1/n1 + 1/n2))] with the pooled variance
    [sp^2 = (Σ (x - m1)^2 + Σ (y - m2)^2) / (n1 + n2 - 2)]. *)
Definition pooled_t2 (s1 s2 : list Q) : Q :=
  ((qmean s1 - qmean s2) * (qmean s1 - qmean s2)) /
  ((Σ[ x <- s1 ] ((x - qmean s1) * (x - qmean s1)) + Σ[ x <- s2 ] ((x - qmean s2) * (x - qmean s2)))
     / (qlen s1 + qlen s2 - 2) * (1 / qlen s1 + 1 / qlen s2)).

(** Equality of statistics: NaN with NaN, infinity with infinity, values by [Qeq]. *)
Definition fstat_eq (a b : fstat) : Prop :=
  match a, b with
  | FNaN, FNaN | FInf, FInf => True
  | FVal x, FVal y => x == y
  | _, _ => False
  end.

#[export] Instance fstat_eq_equiv : Equivalence fstat_eq.
Proof.
  split.
  - intros [| |x]; simpl; easy.
  - intros [| |x] [| |y]; simpl; easy.
  - intros [| |x] [| |y] [| |z]; simpl; try easy. intros -> ->. reflexivity.
Qed.

(** ** Algebra of the sums *)

Lemma qsum_centre o l : qsum (centre o l) == qsum l - qlen l * o.
Proof.
  unfold centre. rewrite qsum_qsumf, qsumf_map, (qsum_qsumf l), qsumf_minus, qsumf_const. ring.
Qed.

Lemma qsumf_concat {A} (f : A -> Q) (ls : list (list A)) :
  qsumf f (concat ls) == Σ[ l <- ls ] qsumf f l.
Proof.
  induction ls as [|l ls IH]; [reflexivity|]. simpl.
  rewrite qsumf_app, qsumf_cons, IH. reflexivity.
Qed.

Lemma fold_left_sum {A} (f : A -> Q) (l : list A) (acc : Q) :
  fold_left (fun a x => a + f x) l acc == acc + qsumf f l.
Proof.
  revert acc. induction l as [|x l IH]; intros acc; simpl; [unfold qsumf; simpl; ring|].
  rewrite IH, qsumf_cons. ring.
Qed.

Lemma qmean_sum l : l <> [] -> qsum l == qlen l * qmean l.
Proof. intros Hne. pose proof (qlen_pos l Hne). unfold qmean. field. lra. Qed.

(** One group's contribution to [ssbn]: [(Σ (x - o))^2 / n = n (m - o)^2]. *)
Lemma group_square_of_sums o s :
  s <> [] -> square_of_sums (centre o s) / qlen s == qlen s * ((qmean s - o) * (qmean s - o)).
Proof.
  intros Hne. pose proof (qlen_pos s Hne). unfold square_of_sums.
  rewrite qsum_centre, (qmean_sum s Hne). field. lra.
Qed.

(** The parallel-axis identity: [Σ (x - o)^2 = Σ (x - m)^2 + n (m - o)^2]. *)
Lemma parallel_axis o s :
  s <> [] ->
  Σ[ x <- s ] ((x - o) * (x - o))
  == Σ[ x <- s ] ((x - qmean s) * (x - qmean s)) + qlen s * ((qmean s - o) * (qmean s - o)).
Proof.
  intros Hne. set (m := qmean s).
  rewrite (qsumf_ext _ (fun x => (x - m) * (x - m) + (2 * (m - o) * (x - m) + (m - o) * (m - o))))
    by (intros; ring).
  rewrite qsumf_plus, qsumf_plus, qsumf_scale_l, qsumf_const.
  assert (Hc : Σ[ x <- s ] (x - m) == 0).
  { unfold m, qmean. rewrite qsum_qsumf. exact (qsumf_centered (fun x => x) s Hne). }
  rewrite Hc. ring.
Qed.

Lemma normalized_ss_zero samples : normalized_ss samples == 0.
Proof.
  unfold normalized_ss, square_of_sums, offset.
  rewrite qsum_centre. set (all := concat samples).
  destruct (nil_or_ne all) as [E|Hne].
  - rewrite E. reflexivity.
  - pose proof (qlen_pos all Hne). rewrite (qmean_sum all Hne). field. lra.
Qed.

Lemma sum_of_squares_centre o l :
  sum_of_squares (centre o l) = Σ[ x <- l ] ((x - o) * (x - o)).
Proof. unfold sum_of_squares, centre. apply qsumf_map. Qed.

(** scipy's [ssbn] is the between-group sum of squares. *)
Lemma ssbn_between samples :
  (forall s, In s samples -> s <> []) -> ssbn samples == ss_between samples.
Proof.
  intros Hne. unfold ssbn.
  rewrite (fold_left_sum (fun s => square_of_sums (centre (offset samples) s) / qlen s)).
  rewrite normalized_ss_zero. unfold ss_between.
  rewrite (qsumf_ext _ (fun s => qlen s * ((qmean s - grand_mean samples) * (qmean s - grand_mean samples)))).
  - ring.
  - intros s Hs. apply group_square_of_sums, Hne, Hs.
Qed.

(** The total sum of squares splits into between and within. *)
Lemma ss_total_decomposition samples :
  (forall s, In s samples -> s <> []) -> ss_total samples == ss_between samples + ss_within samples.
Proof.
  intros Hne. unfold ss_total, ss_between, ss_within.
  rewrite qsumf_concat, <- qsumf_plus. apply qsumf_ext. intros s Hs.
  rewrite parallel_axis by (apply Hne, Hs). ring.
Qed.

Lemma sstot_total samples : sstot samples == ss_total samples.
Proof.
  unfold sstot. rewrite normalized_ss_zero, sum_of_squares_centre. unfold ss_total, grand_mean, offset. ring.
Qed.

(** scipy's [sswn = sstot - ssbn] is the within-group sum of squares. *)
Lemma sswn_within samples :
  (forall s, In s samples -> s <> []) -> sswn samples == ss_within samples.
Proof.
  intros Hne. unfold sswn. rewrite sstot_total, ssbn_between, ss_total_decomposition by exact Hne. ring.
Qed.

Lemma f_value_ref samples :
  (forall s, In s samples -> s <> []) -> f_value samples == f_ref samples.
Proof.
  intros Hne. unfold f_value, f_ref, dfbn, dfwn. now rewrite ssbn_between, sswn_within.
Qed.

(** ** Shape of the results *)

Lemma all_equal_iff l : all_equal l = true <-> (forall a b, In a l -> In b l -> a == b).
Proof.
  destruct l as [|a0 l]; simpl; [split; [intros _ a b []|reflexivity]|].
  rewrite Qeq_bool_refl. simpl. rewrite forallb_forall. split.
  - intros H.
    assert (Ha : forall a, In a (a0 :: l) -> a == a0).
    { intros a [<-|Ha]; [reflexivity|]. apply Qeq_bool_iff, H, Ha. }
    intros a b Hina Hinb. rewrite (Ha a Hina), (Ha b Hinb). reflexivity.
  - intros H c Hc. apply Qeq_bool_iff, H; [now right|now left].
Qed.

Lemma all_equal_false l : all_equal l = false -> exists a b, In a l /\ In b l /\ ~ a == b.
Proof.
  destruct l as [|a0 l]; [discriminate|]. simpl. rewrite Qeq_bool_refl. simpl.
  intros H. apply forallb_false_exists in H as (a & Ha & Hf).
  exists a, a0. split; [now right|split; [now left|]].
  intros E. apply Qeq_bool_iff in E. congruence.
Qed.

Lemma two_distinct_length l a b :
  In a l -> In b l -> ~ a == b -> (2 <= length l)%nat.
Proof.
  intros Ha Hb Hne. destruct l as [|x [|y l]]; simpl; try lia.
  - destruct Ha.
  - destruct Ha as [<-|[]], Hb as [<-|[]]. exfalso. now apply Hne.
Qed.

Lemma length_concat_gt {A} (ls : list (list A)) s0 :
  (forall s, In s ls -> s <> []) -> In s0 ls -> (2 <= length s0)%nat ->
  (length ls < length (concat ls))%nat.
Proof.
  induction ls as [|s ls IH]; intros Hne Hin H2; [destruct Hin|]. simpl. rewrite length_app.
  assert (Hs : s <> []) by (apply Hne; now left).
  destruct Hin as [->|Hin].
  - assert (length ls <= length (concat ls))%nat.
    { clear -Hne. induction ls as [|s' ls IH]; simpl; [lia|]. rewrite length_app.
      assert (s' <> []) by (apply Hne; right; now left). destruct s'; [congruence|]. simpl.
      enough (length ls <= length (concat ls))%nat by lia. apply IH.
      intros t [<-|Ht]; [apply Hne; now left|apply Hne; right; now right]. }
    lia.
  - destruct s; [congruence|]. simpl.
    enough (length ls < length (concat ls))%nat by lia.
    apply IH; auto. intros t Ht. apply Hne. now right.
Qed.

Lemma mapM_finite_values x xs : mapM finite_values x = Some xs <-> x = map (map Some) xs.
Proof.
  rewrite mapM_Some. split.
  - induction 1 as [|c s x xs Hc _ IH]; [reflexivity|]. simpl.
    apply finite_values_spec in Hc. now rewrite Hc, IH.
  - intros ->. induction xs as [|s xs IH]; constructor; [apply finite_values_map_some|exact IH].
Qed.

(** What a finite result of [f_oneway] is made of. *)
Lemma f_oneway_val x f :
  f_oneway x = Ok (FVal f) ->
  exists xs, x = map (map Some) xs /\ (2 <= length xs)%nat /\
    (forall s, In s xs -> s <> []) /\ forallb all_equal xs = false /\ f = f_value xs.
Proof.
  unfold f_oneway.
  destruct (Nat.ltb_spec (length x) 2) as [|H2]; [discriminate|].
  destruct (existsb _ x) eqn:E0; [discriminate|].
  destruct (forallb _ x) eqn:E1; [discriminate|].
  destruct (mapM finite_values x) as [xs|] eqn:Em; [|discriminate].
  apply mapM_finite_values in Em as ->.
  unfold f_oneway_finite.
  destruct (all_equal (concat xs)); [discriminate|].
  destruct (forallb all_equal xs) eqn:Ec; [discriminate|]. intros [= <-].
  exists xs. rewrite length_map in H2. repeat split; auto.
  intros s Hs ->. assert (Hin : In [] (map (map Some) xs)) by (apply (in_map (map Some)) in Hs; exact Hs).
  assert (existsb (fun s => length s =? 0) (map (map Some) xs) = true)
    by (apply existsb_exists; exists []; auto).
  congruence.
Qed.

(** The within-group sum of squares of one group is its centred sum of squares. *)
Lemma within_group_comom s :
  Σ[ x <- s ] ((x - qmean s) * (x - qmean s)) = comom (fun x => x) (fun x => x) s.
Proof. unfold comom, meanf, qmean. now rewrite qsum_qsumf. Qed.

(** In the finite branch the denominators are positive. *)
Lemma f_value_denominators xs :
  (2 <= length xs)%nat -> (forall s, In s xs -> s <> []) -> forallb all_equal xs = false ->
  0 < dfbn xs /\ 0 < sswn xs /\ 0 < dfwn xs.
Proof.
  intros H2 Hne Hc.
  apply forallb_false_exists in Hc as (s0 & Hs0 & Hc).
  apply all_equal_false in Hc as (a & b & Ha & Hb & Hab).
  split; [|split].
  - unfold dfbn. pose proof (qlen_two_le xs H2). lra.
  - rewrite sswn_within by exact Hne. unfold ss_within.
    apply (qsumf_pos _ _ s0); [|exact Hs0|].
    + intros s _. rewrite within_group_comom. apply comom_nonneg.
    + rewrite within_group_comom. exact (comom_pos (fun x => x) s0 a b Ha Hb Hab).
  - unfold dfwn. pose proof (two_distinct_length s0 a b Ha Hb Hab).
    pose proof (qlen_lt xs (concat xs) (length_concat_gt xs s0 Hne Hs0 H)). lra.
Qed.

(** ** Properties *)

(** C1: refinement.  Whenever [f_oneway] returns a finite statistic, its
    inputs are NaN-free and the statistic is the textbook
    [(SSB / (k - 1)) / (SSW / (N - k))] of the samples. *)
Theorem f_oneway_refines x f :
  f_oneway x = Ok (FVal f) -> exists xs, x = map (map Some) xs /\ f == f_ref xs.
Proof.
  intros H. destruct (f_oneway_val x f H) as (xs & -> & _ & Hne & _ & ->).
  exists xs. split; [reflexivity|]. now apply f_value_ref.
Qed.

(** C2: scipy's computational sums of squares (centred square-of-sums
    formulas) are the textbook between- and within-group sums, and they add
    up to the total sum of squares. *)
Theorem scipy_sums_textbook xs :
  (forall s, In s xs -> s <> []) ->
  ssbn xs == ss_between xs /\ sswn xs == ss_within xs /\ sstot xs == ss_between xs + ss_within xs.
Proof.
  intros Hne. split; [|split].
  - now apply ssbn_between.
  - now apply sswn_within.
  - rewrite sstot_total. now apply ss_total_decomposition.
Qed.

(** C16: in the finite branch the final division is well defined: the
    between-group degrees of freedom and the within-group mean square
    [msw = sswn / dfwn] are positive. *)
Theorem f_oneway_msw_pos x f :
  f_oneway x = Ok (FVal f) ->
  exists xs, x = map (map Some) xs /\ 0 < dfbn xs /\ 0 < sswn xs / dfwn xs.
Proof.
  intros H. destruct (f_oneway_val x f H) as (xs & -> & H2 & Hne & Hc & _).
  destruct (f_value_denominators xs H2 Hne Hc) as (Hb & Hw & Hd).
  exists xs. split; [reflexivity|]. split; [exact Hb|].
  apply Qlt_shift_div_l; [exact Hd|]. lra.
Qed.

(** C15: a finite F statistic is non-negative. *)
Theorem f_oneway_nonneg x f : f_oneway x = Ok (FVal f) -> 0 <= f.
Proof.
  intros H. destruct (f_oneway_val x f H) as (xs & -> & H2 & Hne & Hc & ->).
  destruct (f_value_denominators xs H2 Hne Hc) as (Hb & Hw & Hd).
  assert (0 <= ssbn xs).
  { rewrite ssbn_between by exact Hne. apply qsumf_nonneg. intros s _.
    apply Qmult_le_0_compat; [apply qlen_nonneg|].
    set (d := qmean s - grand_mean xs). nra. }
  unfold f_value. apply Qle_shift_div_l; [apply Qlt_shift_div_l; [exact Hd|lra]|].
  rewrite Qmult_0_l. apply Qle_shift_div_l; [exact Hb|lra].
Qed.

(** [f_oneway] raises [TypeError] exactly when it gets fewer than two
    samples. *)
Theorem f_oneway_error x e :
  f_oneway x = Err e <->
  (length x < 2)%nat /\
  e = TypeError ("at least two inputs are required; got " +:+ pretty (N.of_nat (length x)) +:+ ".").
Proof.
  unfold f_oneway. destruct (Nat.ltb_spec (length x) 2) as [H|H].
  - split; [intros [= <-]; auto|intros [_ ->]; reflexivity].
  - split; [|intros [? _]; lia].
    destruct (existsb _ x); [discriminate|]. destruct (forallb _ x); [discriminate|].
    destruct (mapM finite_values x); discriminate.
Qed.

(** C29: on at least two non-empty NaN-free samples, the statistic is finite
    exactly when some sample holds two distinct values. *)
Theorem f_oneway_finite_iff xs :
  (2 <= length xs)%nat -> (forall s, In s xs -> s <> []) ->
  (exists f, f_oneway (map (map Some) xs) = Ok (FVal f)) <->
  (exists s a b, In s xs /\ In a s /\ In b s /\ ~ a == b).
Proof.
  intros H2 Hne. split.
  - intros (f & H). destruct (f_oneway_val _ f H) as (xs' & Hx & _ & _ & Hc & _).
    apply map_map_inj_Some in Hx as <-.
    apply forallb_false_exists in Hc as (s & Hs & Hc).
    apply all_equal_false in Hc as (a & b & ?). eauto.
  - intros (s & a & b & Hs & Ha & Hb & Hab). unfold f_oneway.
    rewrite length_map. destruct (Nat.ltb_spec (length xs) 2); [lia|].
    destruct (existsb _ _) eqn:E0.
    { apply existsb_exists in E0 as (c & Hc & Hl). apply in_map_iff in Hc as (t & <- & Ht).
      rewrite length_map in Hl. apply Nat.eqb_eq, length_zero_iff_nil in Hl. exfalso. now apply (Hne t). }
    destruct (forallb _ _) eqn:E1.
    { rewrite forallb_forall in E1. specialize (E1 (map Some s) (in_map _ _ _ Hs)).
      rewrite length_map in E1. apply Nat.eqb_eq in E1.
      pose proof (two_distinct_length s a b Ha Hb Hab). lia. }
    assert (mapM finite_values (map (map Some) xs) = Some xs) as -> by now apply mapM_finite_values.
    unfold f_oneway_finite.
    destruct (all_equal (concat xs)) eqn:Ea.
    { exfalso. apply Hab. apply (proj1 (all_equal_iff _) Ea); apply in_concat; eauto. }
    destruct (forallb all_equal xs) eqn:Eb.
    { exfalso. apply Hab. rewrite forallb_forall in Eb. exact (proj1 (all_equal_iff s) (Eb s Hs) a b Ha Hb). }
    eauto.
Qed.

(** *** Reordering the samples *)

Lemma all_equal_perm l1 l2 : Permutation l1 l2 -> all_equal l1 = all_equal l2.
Proof.
  intros Hp. apply eq_true_iff_eq. rewrite !all_equal_iff.
  split; intros H a b Ha Hb; apply H.
  - now rewrite Hp.
  - now rewrite Hp.
  - now rewrite <- Hp.
  - now rewrite <- Hp.
Qed.

Lemma grand_mean_perm xs ys : Permutation xs ys -> grand_mean xs == grand_mean ys.
Proof.
  intros Hp. pose proof (perm_concat xs ys Hp) as Hc. unfold grand_mean, qmean, qlen.
  now rewrite (Permutation_length Hc), (qsum_perm_proper _ _ Hc).
Qed.

Lemma f_ref_perm xs ys : Permutation xs ys -> f_ref xs == f_ref ys.
Proof.
  intros Hp. pose proof (grand_mean_perm xs ys Hp) as Hm.
  unfold f_ref, ss_between, ss_within, qlen.
  rewrite (Permutation_length Hp), (Permutation_length (perm_concat xs ys Hp)).
  rewrite (qsumf_perm _ xs ys Hp), (qsumf_perm (fun s => Σ[ x <- s ] _) xs ys Hp).
  rewrite (qsumf_ext _ (fun s => qlen s * ((qmean s - grand_mean ys) * (qmean s - grand_mean ys))) ys)
    by (intros s _; now rewrite Hm).
  reflexivity.
Qed.

Lemma f_oneway_finite_perm xs ys :
  Permutation xs ys -> (forall s, In s xs -> s <> []) ->
  fstat_eq (f_oneway_finite xs) (f_oneway_finite ys).
Proof.
  intros Hp Hne. unfold f_oneway_finite.
  rewrite (all_equal_perm _ _ (perm_concat xs ys Hp)), (forallb_perm _ _ _ Hp).
  destruct (all_equal (concat ys)), (forallb all_equal ys); simpl; try easy.
  assert (Hne' : forall s, In s ys -> s <> []) by (intros s Hs; apply Hne; now rewrite Hp).
  rewrite (f_value_ref xs Hne), (f_value_ref ys Hne'). now apply f_ref_perm.
Qed.

Lemma existsb_empty_false (x : list (list (option Q))) s :
  existsb (fun s => length s =? 0) x = false -> In s x -> s <> [].
Proof.
  intros E Hs ->. assert (existsb (fun s => length s =? 0) x = true)
    by (apply existsb_exists; eauto). congruence.
Qed.

(** *** Changing units *)

Lemma all_equal_affine a b l :
  ~ a == 0 -> all_equal (map (fun v => a * v + b) l) = all_equal l.
Proof.
  intros Ha. apply eq_true_iff_eq. rewrite !all_equal_iff. split; intros H u v Hu Hv.
  - assert (E : a * u + b == a * v + b)
      by (apply H; apply (in_map (fun w => a * w + b)); assumption).
    assert (E' : a * (u - v) == 0) by lra.
    apply Qmult_integral in E' as [|]; [contradiction|lra].
  - apply in_map_iff in Hu as (u' & <- & Hu), Hv as (v' & <- & Hv). rewrite (H u' v' Hu Hv). reflexivity.
Qed.

Lemma qmean_affine a b s : s <> [] -> qmean (map (fun v => a * v + b) s) == a * qmean s + b.
Proof.
  intros Hne. pose proof (qlen_pos s Hne). unfold qmean.
  rewrite qlen_map, qsum_qsumf, qsumf_map, (qsum_qsumf s), qsumf_plus, qsumf_scale_l, qsumf_const.
  field. lra.
Qed.

Lemma ss_between_affine a b xs :
  (forall s, In s xs -> s <> []) -> xs <> [] ->
  ss_between (map (map (fun v => a * v + b)) xs) == a * a * ss_between xs.
Proof.
  intros Hne Hxs. unfold ss_between, grand_mean. rewrite <- concat_map.
  assert (Hm : qmean (map (fun v => a * v + b) (concat xs)) == a * qmean (concat xs) + b).
  { apply qmean_affine. destruct xs as [|s xs]; [congruence|]. simpl.
    assert (s <> []) by (apply Hne; now left). destruct s; [congruence|]. discriminate. }
  rewrite qsumf_map, <- qsumf_scale_l. apply qsumf_ext. intros s Hs.
  rewrite qlen_map, Hm, qmean_affine by (apply Hne, Hs). ring.
Qed.

Lemma ss_within_affine a b xs :
  (forall s, In s xs -> s <> []) ->
  ss_within (map (map (fun v => a * v + b)) xs) == a * a * ss_within xs.
Proof.
  intros Hne. unfold ss_within.
  rewrite qsumf_map, <- qsumf_scale_l. apply qsumf_ext. intros s Hs.
  rewrite qsumf_map, <- qsumf_scale_l. apply qsumf_ext. intros x _.
  rewrite qmean_affine by (apply Hne, Hs). ring.
Qed.

Lemma qdiv_zero_r x y : y == 0 -> x / y == 0.
Proof. intros H. unfold Qdiv. rewrite H. destruct x as [n d]. unfold Qeq. simpl. lia. Qed.

Lemma qdiv_zero_l x y : x == 0 -> x / y == 0.
Proof. intros H. unfold Qdiv. rewrite H. ring. Qed.

(** [(c B / p) / (c W / q) = (B / p) / (W / q)] for [c <> 0], also when a
    denominator vanishes ([x / 0 = 0] in [Q]). *)
Lemma ratio_of_ratios_scale c B W p q :
  ~ c == 0 -> (c * B / p) / (c * W / q) == (B / p) / (W / q).
Proof.
  intros Hc.
  destruct (Qeq_dec (W / q) 0) as [Hw|Hw].
  - rewrite !(qdiv_zero_r _ (_ / q)); [reflexivity|exact Hw|].
    unfold Qdiv in *. rewrite <- Qmult_assoc, Hw. ring.
  - assert (~ q == 0) by (intros E; apply Hw; now apply qdiv_zero_r).
    assert (~ W == 0) by (intros E; apply Hw; now apply qdiv_zero_l).
    destruct (Qeq_dec p 0) as [Hp|Hp].
    + rewrite !(qdiv_zero_l (_ / p)); [reflexivity| |]; apply qdiv_zero_r, Hp.
    + field. auto.
Qed.

Lemma mapM_affine a b x :
  mapM finite_values (map (affine a b) x)
  = option_map (map (map (fun v => a * v + b))) (mapM finite_values x).
Proof.
  induction x as [|c x IH]; [reflexivity|]. simpl.
  rewrite finite_values_affine, IH.
  destruct (finite_values c), (mapM finite_values x); reflexivity.
Qed.

Lemma f_ref_affine a b xs :
  ~ a == 0 -> (forall s, In s xs -> s <> []) -> xs <> [] ->
  f_ref (map (map (fun v => a * v + b)) xs) == f_ref xs.
Proof.
  intros Ha Hne Hxs. unfold f_ref.
  rewrite ss_between_affine, ss_within_affine by assumption.
  rewrite <- concat_map, !qlen_map. apply ratio_of_ratios_scale.
  intros E. apply Qmult_integral in E as [|]; contradiction.
Qed.

Lemma f_oneway_finite_affine a b xs :
  ~ a == 0 -> (forall s, In s xs -> s <> []) -> xs <> [] ->
  fstat_eq (f_oneway_finite (map (map (fun v => a * v + b)) xs)) (f_oneway_finite xs).
Proof.
  intros Ha Hne Hxs. unfold f_oneway_finite.
  rewrite <- concat_map, all_equal_affine by exact Ha.
  rewrite (forallb_map_ext _ _ all_equal) by (intros s; now apply all_equal_affine).
  destruct (all_equal (concat xs)), (forallb all_equal xs); simpl; try easy.
  assert (Hne' : forall s, In s (map (map (fun v => a * v + b)) xs) -> s <> []).
  { intros s Hs. apply in_map_iff in Hs as (t & <- & Ht). intros E.
    apply map_eq_nil in E. exact (Hne t Ht E). }
  rewrite (f_value_ref _ Hne'), (f_value_ref xs Hne). now apply f_ref_affine.
Qed.

(** C34: The statistic does not depend on the order in which the samples
    are passed (line 135 passes fwd, rwd, 4wd; lines 146 and 150 pass
    pairs in different orders). *)
Theorem f_oneway_perm x y :
  Permutation x y -> result_eq fstat_eq (f_oneway x) (f_oneway y).
Proof.
  intros Hp. unfold f_oneway.
  rewrite (Permutation_length Hp), (existsb_perm _ _ _ Hp), (forallb_perm _ _ _ Hp).
  destruct (length y <? 2); [reflexivity|].
  destruct (existsb _ y) eqn:E0; [reflexivity|].
  destruct (forallb _ y); [reflexivity|].
  destruct (mapM finite_values x) as [xs|] eqn:Ex.
  - apply mapM_finite_values in Ex as ->.
    destruct (Permutation_map_inv _ _ (Permutation_sym Hp)) as (ys & -> & Hxy).
    rewrite (proj2 (mapM_finite_values _ ys) eq_refl). simpl.
    apply f_oneway_finite_perm; [exact Hxy|].
    intros s Hs E. apply (existsb_empty_false _ (map Some s) E0); [|now rewrite E].
    rewrite <- Hp. now apply in_map.
  - destruct (mapM finite_values y) as [ys|] eqn:Ey; [|reflexivity].
    apply mapM_finite_values in Ey as ->.
    destruct (Permutation_map_inv _ _ Hp) as (xs & -> & _).
    rewrite (proj2 (mapM_finite_values _ xs) eq_refl) in Ex. discriminate.
Qed.

(** A change of units of the prices ([a * x + b], [a <> 0]) applied to
    every sample does not change the statistic. *)
Theorem f_oneway_affine a b x :
  ~ a == 0 -> result_eq fstat_eq (f_oneway (map (affine a b) x)) (f_oneway x).
Proof.
  intros Ha. unfold f_oneway. rewrite length_map.
  rewrite (existsb_map_ext _ _ (fun s => length s =? 0)) by (intros s; now rewrite length_affine).
  rewrite (forallb_map_ext _ _ (fun s => length s =? 1)) by (intros s; now rewrite length_affine).
  destruct (Nat.ltb_spec (length x) 2); [reflexivity|].
  destruct (existsb _ x) eqn:E0; [reflexivity|].
  destruct (forallb _ x); [reflexivity|].
  rewrite mapM_affine. destruct (mapM finite_values x) as [xs|] eqn:Ex; simpl; [|reflexivity].
  apply mapM_finite_values in Ex as ->. rewrite length_map in *.
  apply f_oneway_finite_affine; [exact Ha| |].
  - intros s Hs E. apply (existsb_empty_false _ (map Some s) E0); [now apply in_map|now rewrite E].
  - intros ->. simpl in *. lia.
Qed.

Lemma grand_mean_two s1 s2 :
  s1 <> [] -> s2 <> [] ->
  grand_mean [s1; s2] == (qlen s1 * qmean s1 + qlen s2 * qmean s2) / (qlen s1 + qlen s2).
Proof.
  intros H1 H2. pose proof (qlen_pos s1 H1). pose proof (qlen_pos s2 H2).
  unfold grand_mean, qmean at 1. simpl. rewrite app_nil_r, qlen_app.
  rewrite qsum_qsumf, qsumf_app, <- !qsum_qsumf, (qmean_sum s1 H1), (qmean_sum s2 H2).
  reflexivity.
Qed.

(** C33: On two samples (the pairwise tests of lines 142, 146 and 150) the F
    statistic is the square of the pooled two-sample t statistic. *)
Theorem f_oneway_two_groups x1 x2 f :
  f_oneway [x1; x2] = Ok (FVal f) ->
  exists s1 s2, x1 = map Some s1 /\ x2 = map Some s2 /\ f == pooled_t2 s1 s2.
Proof.
  intros H. destruct (f_oneway_val _ f H) as (xs & Hx & H2 & Hne & Hc & ->).
  destruct (f_value_denominators xs H2 Hne Hc) as (_ & Hw & Hd).
  destruct xs as [|s1 [|s2 [|s3 xs]]]; try discriminate.
  injection Hx as -> ->. exists s1, s2. split; [reflexivity|split; [reflexivity|]].
  assert (N1 : s1 <> []) by (apply Hne; now left).
  assert (N2 : s2 <> []) by (apply Hne; right; now left).
  pose proof (qlen_pos s1 N1). pose proof (qlen_pos s2 N2).
  rewrite sswn_within in Hw by exact Hne.
  rewrite f_value_ref by exact Hne. unfold f_ref, pooled_t2, ss_between, ss_within in *.
  unfold qsumf at 1 in Hw. unfold qsumf at 1 2.
  cbn [map qsum fold_right] in Hw |- *.
  rewrite grand_mean_two by assumption.
  unfold dfwn in Hd. cbn [concat] in Hd |- *. rewrite app_nil_r, qlen_app in *.
  replace (qlen [s1; s2]) with 2 in * by reflexivity.
  field. repeat split; lra.
Qed.

(** C30: when every sample is constant (and not all have length 1), scipy
    replaces the statistic by NaN if all the data are equal and by infinity
    otherwise. *)
Theorem f_oneway_constant xs :
  (2 <= length xs)%nat -> (forall s, In s xs -> s <> []) ->
  (exists s, In s xs /\ (2 <= length s)%nat) -> (forall s, In s xs -> all_equal s = true) ->
  f_oneway (map (map Some) xs) = Ok (if all_equal (concat xs) then FNaN else FInf).
Proof.
  intros H2 Hne (s0 & Hs0 & Hl0) Hc. unfold f_oneway. rewrite length_map.
  destruct (Nat.ltb_spec (length xs) 2); [lia|].
  destruct (existsb _ _) eqn:E0.
  { apply existsb_exists in E0 as (c & Hc' & Hl). apply in_map_iff in Hc' as (t & <- & Ht).
    rewrite length_map in Hl. apply Nat.eqb_eq, length_zero_iff_nil in Hl. exfalso. now apply (Hne t). }
  destruct (forallb _ _) eqn:E1.
  { rewrite forallb_forall in E1. specialize (E1 (map Some s0) (in_map _ _ _ Hs0)).
    rewrite length_map in E1. apply Nat.eqb_eq in E1. lia. }
  rewrite (proj2 (mapM_finite_values _ xs) eq_refl). unfold f_oneway_finite.
  replace (forallb all_equal xs) with true by (symmetry; now apply forallb_forall).
  now destruct (all_equal (concat xs)).
Qed.

(** ** Witnesses *)

Definition samples_ex : list (list (option Q)) := [[Some 1; Some 2]; [Some 4; Some 6]].

Lemma f_oneway_refines_witness :
  exists f, f_oneway samples_ex = Ok (FVal f) /\
    exists xs, samples_ex = map (map Some) xs /\ f == f_ref xs.
Proof.
  eexists. split; [vm_compute; reflexivity|].
  eapply (f_oneway_refines samples_ex). vm_compute. reflexivity.
Defined.

Lemma scipy_sums_textbook_witness :
  ssbn [[1; 2]; [4; 6]] == ss_between [[1; 2]; [4; 6]] /\
  sswn [[1; 2]; [4; 6]] == ss_within [[1; 2]; [4; 6]] /\
  sstot [[1; 2]; [4; 6]] == ss_between [[1; 2]; [4; 6]] + ss_within [[1; 2]; [4; 6]].
Proof. apply scipy_sums_textbook. intros s [<-|[<-|[]]]; discriminate. Defined.

Lemma f_oneway_msw_pos_witness :
  exists f, f_oneway samples_ex = Ok (FVal f) /\
    exists xs, samples_ex = map (map Some) xs /\ 0 < dfbn xs /\ 0 < sswn xs / dfwn xs.
Proof.
  eexists. split; [vm_compute; reflexivity|].
  eapply (f_oneway_msw_pos samples_ex). vm_compute. reflexivity.
Defined.

Lemma f_oneway_nonneg_witness :
  exists f, f_oneway samples_ex = Ok (FVal f) /\ 0 <= f.
Proof.
  eexists. split; [vm_compute; reflexivity|].
  eapply (f_oneway_nonneg samples_ex). vm_compute. reflexivity.
Defined.

Lemma f_oneway_finite_iff_witness :
  (exists f, f_oneway (map (map Some) [[1; 2]; [4; 6]]) = Ok (FVal f)) <->
  (exists s a b, In s [[1; 2]; [4; 6]] /\ In a s /\ In b s /\ ~ a == b).
Proof.
  apply f_oneway_finite_iff; [simpl; lia|]. intros s [<-|[<-|[]]]; discriminate.
Defined.

Lemma f_oneway_perm_witness :
  result_eq fstat_eq (f_oneway [[Some 1; Some 2]; [Some 4; Some 6]; [Some 3]])
                     (f_oneway [[Some 3]; [Some 1; Some 2]; [Some 4; Some 6]]).
Proof.
  apply f_oneway_perm.
  apply (Permutation_trans (l' := [[Some 1; Some 2]; [Some 3]; [Some 4; Some 6]])).
  - apply perm_skip, perm_swap.
  - apply perm_swap.
Defined.

Lemma f_oneway_affine_witness :
  result_eq fstat_eq (f_oneway (map (affine 2 5) samples_ex)) (f_oneway samples_ex).
Proof. apply f_oneway_affine. discriminate. Defined.

Lemma f_oneway_two_groups_witness :
  exists f, f_oneway [[Some 1; Some 2]; [Some 4; Some 6]] = Ok (FVal f) /\
    exists s1 s2, [Some 1; Some 2] = map Some s1 /\ [Some 4; Some 6] = map Some s2 /\ f == pooled_t2 s1 s2.
Proof.
  eexists. split; [vm_compute; reflexivity|].
  eapply f_oneway_two_groups. vm_compute. reflexivity.
Defined.

Lemma f_oneway_constant_witness :
  f_oneway (map (map Some) [[3; 3]; [4]]) = Ok (if all_equal (concat [[3; 3]; [4]]) then FNaN else FInf).
Proof.
  apply f_oneway_constant.
  - simpl. lia.
  - intros s [<-|[<-|[]]]; discriminate.
  - exists [3; 3]. split; [now left|simpl; lia].
  - intros s [<-|[<-|[]]]; reflexivity.
Defined.

End Anova.
