(* ===== verification/GroupBy.v ===== *)
(** * GroupBy: [value_counts], [groupby(...).mean()], [pivot], [head], [get_group]

    The pandas grouping operations of the script:
    - line 48: [df["drive-wheels"].value_counts().to_frame()], renamed at
      lines 49-50;
    - line 59: [groupby(["drive-wheels", "body-style"], as_index=False).mean()]
      of the price;
    - line 61: [pivot(index="drive-wheels", columns="body-style")] of that;
    - line 68: [groupby(["body-style"], as_index=False).mean()] of the price;
    - lines 131-150: [groupby("drive-wheels")] and [get_group(g)["price"]];
    - line 132: [grouped.head()], which keeps the rows whose running count
      within their group ([_cumcount_array], here [cumcount]) is below 5.

    A grouped column is a list of rows [(key, value)].  Group keys are
    ordered through the [KeyOrder] interface (a strict total order given
    as a boolean test); pandas sorts group keys ([sort=True]), strings by
    code point and tuples lexicographically, the two instances given
    here.  The group keys are computed by inserting each key into a
    strictly sorted list. *)

From S2P Require Import Prelude.
From Stdlib Require Import Sorted.

Open Scope Q_scope.

(** ** Ordered keys *)

(** What the grouping code needs of a key type with decidable equality:
    a strict total order. *)
Class KeyOrder (K : Type) `{EqDecision K} := {
  key_ltb : K -> K -> bool;
  key_ltb_irrefl : forall k, key_ltb k k = false;
  key_ltb_trans : forall a b c, key_ltb a b = true -> key_ltb b c = true -> key_ltb a c = true;
  key_ltb_total : forall a b, a <> b -> key_ltb a b = true \/ key_ltb b a = true
}.

Definition key_lt {K} `{KeyOrder K} (a b : K) : Prop := key_ltb a b = true.

(** Strings in code-point order, as Python compares them. *)
Definition string_ltb (a b : string) : bool := bool_decide (String.le a b /\ a <> b).

Lemma string_ltb_irrefl k : string_ltb k k = false.
Proof. apply bool_decide_eq_false. tauto. Qed.

Lemma string_ltb_trans a b c : string_ltb a b = true -> string_ltb b c = true -> string_ltb a c = true.
Proof.
  unfold string_ltb. intros Hab Hbc.
  apply bool_decide_eq_true in Hab as [Hab Nab], Hbc as [Hbc Nbc].
  apply bool_decide_eq_true. split; [etransitivity; eauto|].
  intros ->. apply Nab. now apply (anti_symm String.le).
Qed.

Lemma string_ltb_total a b : a <> b -> string_ltb a b = true \/ string_ltb b a = true.
Proof.
  unfold string_ltb. intros Hne. destruct (total String.le a b) as [H|H]; [left|right];
    apply bool_decide_eq_true; split; auto.
Qed.

#[export] Instance string_key_order : KeyOrder string :=
  {| key_ltb := string_ltb; key_ltb_irrefl := string_ltb_irrefl;
     key_ltb_trans := string_ltb_trans; key_ltb_total := string_ltb_total |}.

Section PairOrder.
Context {A B : Type} `{KeyOrder A} `{KeyOrder B}.

(** Tuples of keys lexicographically, as Python compares tuples. *)
Definition pair_ltb (p q : A * B) : bool :=
  key_ltb p.1 q.1 || (bool_decide (p.1 = q.1) && key_ltb p.2 q.2).

Lemma pair_ltb_irrefl p : pair_ltb p p = false.
Proof. destruct p as [a b]. unfold pair_ltb. simpl. rewrite !key_ltb_irrefl. now rewrite andb_false_r. Qed.

Lemma pair_ltb_trans p q r : pair_ltb p q = true -> pair_ltb q r = true -> pair_ltb p r = true.
Proof.
  destruct p as [a1 b1], q as [a2 b2], r as [a3 b3]. unfold pair_ltb. simpl.
  rewrite !orb_true_iff, !andb_true_iff, !bool_decide_eq_true.
  intros [H12|[-> H12]] [H23|[-> H23]]; eauto using key_ltb_trans.
Qed.

Lemma pair_ltb_total p q : p <> q -> pair_ltb p q = true \/ pair_ltb q p = true.
Proof.
  destruct p as [a1 b1], q as [a2 b2]. unfold pair_ltb. simpl. intros Hne.
  rewrite !orb_true_iff, !andb_true_iff, !bool_decide_eq_true.
  destruct (decide (a1 = a2)) as [->|Ha].
  - assert (b1 <> b2) by congruence.
    destruct (key_ltb_total b1 b2 H1) as [?|?]; [left|right]; right; auto.
  - destruct (key_ltb_total a1 a2 Ha) as [?|?]; [left|right]; left; auto.
Qed.

#[export] Instance pair_key_order : KeyOrder (A * B) :=
  {| key_ltb := pair_ltb; key_ltb_irrefl := pair_ltb_irrefl;
     key_ltb_trans := pair_ltb_trans; key_ltb_total := pair_ltb_total |}.
End PairOrder.

Section Keys.
Context {K : Type} `{KeyOrder K}.

(** Insert a key into a strictly sorted list of keys, once. *)
Fixpoint insert_key (k : K) (ks : list K) : list K :=
  match ks with
  | [] => [k]
  | k' :: ks' =>
      if decide (k = k') then ks
      else if key_ltb k k' then k :: ks
      else k' :: insert_key k ks'
  end.

(** The sorted distinct keys of a key column: the group labels of
    [groupby(..., sort=True)]. *)
Definition group_keys (col : list K) : list K := fold_right insert_key [] col.

Lemma insert_key_in k ks x : In x (insert_key k ks) <-> x = k \/ In x ks.
Proof.
  induction ks as [|k' ks IH]; simpl; [intuition congruence|].
  destruct (decide (k = k')) as [->|]; [simpl; intuition congruence|].
  destruct (key_ltb k k'); simpl; [intuition congruence|]. rewrite IH. intuition congruence.
Qed.

Lemma group_keys_in col x : In x (group_keys col) <-> In x col.
Proof.
  induction col as [|k col IH]; simpl; [tauto|].
  rewrite insert_key_in, IH. intuition congruence.
Qed.

Lemma insert_key_sorted k ks :
  StronglySorted key_lt ks -> StronglySorted key_lt (insert_key k ks).
Proof.
  induction 1 as [|k' ks Hs IH Hall]; simpl; [repeat constructor|].
  destruct (decide (k = k')) as [->|Hne]; [now constructor|].
  destruct (key_ltb k k') eqn:Hlt.
  - constructor; [now constructor|]. constructor; [exact Hlt|].
    eapply Forall_impl; [exact Hall|]. intros x Hx. eapply key_ltb_trans; eauto.
  - constructor; [exact IH|]. apply List.Forall_forall. intros x Hx.
    apply insert_key_in in Hx as [->|Hx].
    + destruct (key_ltb_total k k' Hne) as [E|E]; [congruence|exact E].
    + rewrite List.Forall_forall in Hall. now apply Hall.
Qed.

Lemma group_keys_sorted col : StronglySorted key_lt (group_keys col).
Proof. induction col as [|k col IH]; simpl; [constructor|]. now apply insert_key_sorted. Qed.

Lemma sorted_nodup ks : StronglySorted key_lt ks -> List.NoDup ks.
Proof.
  induction 1 as [|k ks _ IH Hall]; constructor; [|exact IH].
  intros Hin. rewrite List.Forall_forall in Hall. specialize (Hall k Hin).
  unfold key_lt in Hall. now rewrite key_ltb_irrefl in Hall.
Qed.

End Keys.

(** ** Groups *)

Section Groups.
Context {K V : Type} `{KeyOrder K}.
Implicit Types (rows : list (K * V)) (k : K).

(** The rows of one group, in the order of the table. *)
Definition group_rows k rows : list (K * V) := List.filter (fun r => bool_decide (r.1 = k)) rows.

(** [grouped.get_group(k)[value]]: the values of one group. *)
Definition group_of k rows : list V := map snd (group_rows k rows).

Lemma perm_filter_split {A} (f : A -> bool) (l : list A) :
  Permutation l (List.filter f l ++ List.filter (fun a => negb (f a)) l).
Proof.
  induction l as [|a l IH]; simpl; [constructor|].
  destruct (f a); simpl; [now constructor|].
  rewrite <- Permutation_middle. now constructor.
Qed.

Lemma group_rows_other k k' rows :
  k' <> k -> group_rows k' rows = group_rows k' (List.filter (fun r => negb (bool_decide (r.1 = k))) rows).
Proof.
  intros Hne. unfold group_rows. induction rows as [|r rows IH]; simpl; [reflexivity|].
  destruct (decide (r.1 = k)) as [E|E].
  - rewrite (bool_decide_eq_true_2 _ E). simpl. rewrite bool_decide_eq_false_2 by congruence. exact IH.
  - rewrite (bool_decide_eq_false_2 _ E). simpl. destruct (bool_decide (r.1 = k')); [f_equal|]; exact IH.
Qed.

(** Grouping by a duplicate-free list of keys that covers every row
    rearranges the rows: no row is lost and none is in two groups. *)
Lemma groups_partition_keys (ks : list K) rows :
  List.NoDup ks -> (forall r, In r rows -> In r.1 ks) ->
  Permutation (concat (map (fun k => group_rows k rows) ks)) rows.
Proof.
  revert rows. induction ks as [|k ks IH]; intros rows Hnd Hcov; simpl.
  - destruct rows as [|r rows]; [constructor|]. destruct (Hcov r (or_introl eq_refl)).
  - inversion Hnd as [|? ? Hk Hnd']; subst.
    set (rest := List.filter (fun r => negb (bool_decide (r.1 = k))) rows).
    rewrite (map_ext_in _ (fun k' => group_rows k' rest) ks)
      by (intros k' Hk'; apply group_rows_other; intros ->; contradiction).
    rewrite IH; [symmetry; apply perm_filter_split|exact Hnd'|].
    intros r Hr. unfold rest in Hr. apply filter_In in Hr as [Hr Hn].
    destruct (Hcov r Hr) as [E|E]; [|exact E].
    rewrite E, bool_decide_eq_true_2 in Hn by reflexivity. discriminate.
Qed.

Lemma group_keys_nodup (col : list K) : List.NoDup (group_keys col).
Proof. apply sorted_nodup, group_keys_sorted. Qed.

(** The groups of [groupby], taken in key order, partition the values. *)
Lemma groups_partition rows :
  Permutation (concat (map (fun k => group_of k rows) (group_keys (map fst rows)))) (map snd rows).
Proof.
  unfold group_of. rewrite <- (map_map (fun k => group_rows k rows) (map snd)), <- concat_map.
  apply Permutation_map, groups_partition_keys; [apply group_keys_nodup|].
  intros r Hr. apply group_keys_in, in_map, Hr.
Qed.

Lemma group_of_in k rows v : In v (group_of k rows) <-> In (k, v) rows.
Proof.
  unfold group_of, group_rows. rewrite in_map_iff. split.
  - intros ([k' v'] & <- & Hr). apply filter_In in Hr as [Hr Hk]. simpl in *.
    apply bool_decide_eq_true in Hk. now subst.
  - intros Hr. exists (k, v). split; [reflexivity|]. apply filter_In. split; [exact Hr|].
    now apply bool_decide_eq_true.
Qed.

Lemma group_of_nil k rows : ~ In k (map fst rows) -> group_of k rows = [].
Proof.
  intros Hk. destruct (group_of k rows) as [|v vs] eqn:E; [reflexivity|].
  exfalso. apply Hk. assert (In v (group_of k rows)) by (rewrite E; now left).
  apply group_of_in in H0. change k with (k, v).1. now apply in_map.
Qed.

Lemma group_rows_app_filter k (l1 l2 : list (K * V)) : group_rows k (l1 ++ l2) = group_rows k l1 ++ group_rows k l2.
Proof.
  unfold group_rows. induction l1 as [|r l1 IH]; simpl; [done|].
  destruct (bool_decide _); simpl; congruence.
Qed.

End Groups.

(** ** The first rows of each group *)

Section Head.
Context {K V : Type} `{KeyOrder K}.
Implicit Types (rows : list (K * V)) (k : K) (c : K -> nat).

(** One more row seen in the group [k]. *)
Definition bump c k : K -> nat := fun k' => if decide (k' = k) then S (c k') else c k'.

(** [GroupBy._cumcount_array()]: the position of each row in its group,
    the counters [c] giving how many rows of each group came before. *)
Fixpoint cumcount_go c rows : list nat :=
  match rows with
  | [] => []
  | r :: rows' => c r.1 :: cumcount_go (bump c r.1) rows'
  end.

Definition cumcount rows : list nat := cumcount_go (fun _ => 0%nat) rows.

(** [grouped.head(n)] (line 132, [n = 5]): [mask = self._cumcount_array() < n],
    then the rows of the frame where the mask holds, in table order. *)
Definition groupby_head (n : nat) rows : list (K * V) :=
  map fst (List.filter (fun p => (p.2 <? n)%nat) (combine rows (cumcount rows))).

Lemma head_go_cons n c r rows :
  map fst (List.filter (fun p => (p.2 <? n)%nat) (combine (r :: rows) (cumcount_go c (r :: rows)))) =
  (if (c r.1 <? n)%nat then [r] else []) ++
  map fst (List.filter (fun p => (p.2 <? n)%nat) (combine rows (cumcount_go (bump c r.1) rows))).
Proof. simpl. destruct (c r.1 <? n)%nat; reflexivity. Qed.

Lemma head_go_group n k : forall c rows,
  group_rows k (map fst (List.filter (fun p => (p.2 <? n)%nat) (combine rows (cumcount_go c rows)))) =
  firstn (n - c k) (group_rows k rows).
Proof.
  intros c rows. revert c. induction rows as [|r rows IH]; intros c; [by rewrite firstn_nil|].
  rewrite head_go_cons, group_rows_app_filter, IH. unfold group_rows at 3. simpl.
  unfold bump. destruct (decide (r.1 = k)) as [<-|Hne].
  - rewrite decide_True by done. rewrite bool_decide_eq_true_2 by done.
    destruct (Nat.ltb_spec (c r.1) n); simpl.
    + rewrite bool_decide_eq_true_2 by done. replace (n - c r.1)%nat with (S (n - S (c r.1))) by lia.
      reflexivity.
    + replace (n - c r.1)%nat with 0%nat by lia. replace (n - S (c r.1))%nat with 0%nat by lia. done.
  - rewrite decide_False by done. rewrite (bool_decide_eq_false_2 (r.1 = k)) by done.
    destruct (c r.1 <? n)%nat; simpl; [rewrite (bool_decide_eq_false_2 (r.1 = k)) by done|]; reflexivity.
Qed.

Lemma head_go_sublist n : forall c rows,
  sublist (map fst (List.filter (fun p => (p.2 <? n)%nat) (combine rows (cumcount_go c rows)))) rows.
Proof.
  intros c rows. revert c. induction rows as [|r rows IH]; intros c; [constructor|].
  rewrite head_go_cons. destruct (c r.1 <? n)%nat; simpl; constructor; apply IH.
Qed.

End Head.

(** ** Group means *)

(** The non-missing values of a float column. *)
Fixpoint present (vs : list (option Q)) : list Q :=
  match vs with
  | [] => []
  | Some x :: vs' => x :: present vs'
  | None :: vs' => present vs'
  end.

(** [Series.mean()] with [skipna=True]: NaN when no value is present. *)
Definition nanmean (vs : list (option Q)) : option Q :=
  match present vs with
  | [] => None
  | xs => Some (qmean xs)
  end.

Section Means.
Context {K : Type} `{KeyOrder K}.

(** [df[[key, "price"]].groupby(key, as_index=False).mean()]: one row per
    group key, in key order, with the mean price of the group. *)
Definition groupby_mean (rows : list (K * option Q)) : list (K * option Q) :=
  map (fun k => (k, nanmean (group_of k rows))) (group_keys (map fst rows)).

End Means.

(** [grouped.get_group(name)]: the group's values, or [KeyError(name)]. *)
Definition get_group {V} (rows : list (string * V)) (name : string) : result (list V) :=
  if existsb (fun r => bool_decide (r.1 = name)) rows then Ok (group_of name rows)
  else Err (KeyError name).

(** ** Value counts *)

Section Counts.
Context {K : Type} `{KeyOrder K}.

(** The number of occurrences of [k] in the column. *)
Definition count_of (k : K) (col : list K) : nat :=
  length (List.filter (fun x => bool_decide (x = k)) col).

(** The distinct values in order of first appearance (pandas' hash table
    of [value_counts]). *)
Fixpoint uniq_first (col : list K) : list K :=
  match col with
  | [] => []
  | k :: col' => k :: List.filter (fun x => negb (bool_decide (x = k))) (uniq_first col')
  end.

(** Insert [(k, c)] after every pair whose count is at least [c]. *)
Fixpoint insert_desc (p : K * nat) (l : list (K * nat)) : list (K * nat) :=
  match l with
  | [] => [p]
  | q :: l' => if q.2 <? p.2 then p :: l else q :: insert_desc p l'
  end.

(** [sort_values(ascending=False)] on the counts, ties in first-appearance
    order. *)
Definition sort_desc (l : list (K * nat)) : list (K * nat) :=
  fold_left (fun acc p => insert_desc p acc) l [].

(** [col.value_counts()]: each distinct value with its count, by
    decreasing count. *)
Definition value_counts (col : list K) : list (K * nat) :=
  sort_desc (map (fun k => (k, count_of k col)) (uniq_first col)).

Definition count_ge (p q : K * nat) : Prop := (q.2 <= p.2)%nat.

Lemma insert_desc_perm p l : Permutation (insert_desc p l) (p :: l).
Proof.
  induction l as [|q l IH]; simpl; [reflexivity|].
  destruct (q.2 <? p.2); [reflexivity|]. rewrite IH. apply perm_swap.
Qed.

Lemma sort_desc_perm l : Permutation (sort_desc l) l.
Proof.
  unfold sort_desc. assert (Hg : forall acc, Permutation (fold_left (fun a p => insert_desc p a) l acc) (acc ++ l)).
  { induction l as [|p l IH]; intros acc; simpl; [now rewrite app_nil_r|].
    rewrite IH, insert_desc_perm. apply Permutation_middle. }
  apply Hg.
Qed.

Lemma insert_desc_sorted p l : Sorted count_ge l -> Sorted count_ge (insert_desc p l).
Proof.
  induction 1 as [|q l Hs IH Hhd]; simpl; [repeat constructor|].
  destruct (Nat.ltb_spec q.2 p.2) as [Hlt|Hge].
  - constructor; [now constructor|]. constructor. unfold count_ge. lia.
  - constructor; [exact IH|].
    destruct l as [|q' l]; simpl; [constructor; unfold count_ge; lia|].
    inversion Hhd as [|? ? Hqq']; subst. unfold count_ge in Hqq'.
    destruct (q'.2 <? p.2); constructor; unfold count_ge; lia.
Qed.

Lemma sort_desc_sorted l : Sorted count_ge (sort_desc l).
Proof.
  unfold sort_desc. assert (Hg : forall acc, Sorted count_ge acc ->
    Sorted count_ge (fold_left (fun a p => insert_desc p a) l acc)).
  { induction l as [|p l IH]; intros acc Hacc; simpl; [exact Hacc|].
    apply IH, insert_desc_sorted, Hacc. }
  apply Hg. constructor.
Qed.

Lemma uniq_first_in col x : In x (uniq_first col) <-> In x col.
Proof.
  induction col as [|k col IH]; simpl; [tauto|].
  rewrite filter_In, IH, negb_true_iff, bool_decide_eq_false.
  destruct (decide (x = k)); intuition congruence.
Qed.

Lemma uniq_first_nodup col : List.NoDup (uniq_first col).
Proof.
  induction col as [|k col IH]; simpl; constructor.
  - rewrite filter_In, negb_true_iff, bool_decide_eq_false. tauto.
  - apply List.NoDup_filter, IH.
Qed.

Lemma count_of_group k col :
  count_of k col = length (group_rows k (map (fun x => (x, tt)) col)).
Proof.
  unfold count_of, group_rows. rewrite filter_map_swap, length_map. reflexivity.
Qed.

(** The counts of a duplicate-free list of keys covering the column add
    up to the length of the column. *)
Lemma count_of_sum (ks col : list K) :
  List.NoDup ks -> (forall x, In x col -> In x ks) ->
  list_sum (map (fun k => count_of k col) ks) = length col.
Proof.
  intros Hnd Hcov.
  set (rows := map (fun x => (x, tt)) col).
  transitivity (length (concat (map (fun k => group_rows k rows) ks))).
  - rewrite length_concat, map_map. f_equal. apply map_ext. intros k. apply count_of_group.
  - assert (Hc : forall r, In r rows -> In r.1 ks).
    { intros r Hr. unfold rows in Hr. apply in_map_iff in Hr as (x & <- & Hx). now apply Hcov. }
    rewrite (Permutation_length (groups_partition_keys ks rows Hnd Hc)). apply length_map.
Qed.

End Counts.

(** ** The counts table (lines 48-51) *)

(** A one-column frame of counts: the index name, the column names and the
    rows. *)
Record count_frame := {
  cf_index_name : string;
  cf_columns : list string;
  cf_rows : list (string * nat)
}.

(** [df[c].value_counts().to_frame()]: pandas 2 names the counts column
    ["count"] and the index after the column [c]. *)
Definition value_counts_frame (c : string) (col : list string) : count_frame :=
  {| cf_index_name := c; cf_columns := ["count"]; cf_rows := value_counts col |}.

(** [rename(columns=mapping)]: a column named in the mapping is renamed;
    names absent from the frame are ignored ([errors="ignore"]). *)
Definition rename_columns (mapping : list (string * string)) (f : count_frame) : count_frame :=
  {| cf_index_name := cf_index_name f;
     cf_columns := map (fun c => match List.find (fun p => bool_decide (p.1 = c)) mapping with
                                 | Some p => p.2
                                 | None => c
                                 end) (cf_columns f);
     cf_rows := cf_rows f |}.

(** [counts.index.name = name]. *)
Definition set_index_name (name : string) (f : count_frame) : count_frame :=
  {| cf_index_name := name; cf_columns := cf_columns f; cf_rows := cf_rows f |}.

(** Lines 48-50. *)
Definition counts_table (col : list string) : count_frame :=
  set_index_name "drive-wheels"
    (rename_columns [("drive-wheels", "value_counts")] (value_counts_frame "drive-wheels" col)).

(** ** Pivot (line 61) *)

Record pivot_table (R C : Type) := {
  pv_index : list R;
  pv_columns : list C;
  pv_cells : list (list (option Q))
}.
Arguments pv_index {R C} p.
Arguments pv_columns {R C} p.
Arguments pv_cells {R C} p.

Section Pivot.
Context {R C : Type} `{KeyOrder R} `{KeyOrder C}.

(** The value of the row with index [key], NaN if there is none. *)
Definition cell_at (key : R * C) (rows : list ((R * C) * option Q)) : option Q :=
  match List.find (fun r => bool_decide (r.1 = key)) rows with
  | Some r => r.2
  | None => None
  end.

(** [pivot(index=..., columns=...)]: rows are the sorted distinct index
    values, columns the sorted distinct column values, a missing
    combination is NaN; duplicate (index, column) pairs raise. *)
Definition pivot (rows : list ((R * C) * option Q)) : result (pivot_table R C) :=
  if bool_decide (NoDup (map fst rows)) then
    let idx := group_keys (map (fun r => r.1.1) rows) in
    let cols := group_keys (map (fun r => r.1.2) rows) in
    Ok {| pv_index := idx; pv_columns := cols;
          pv_cells := map (fun i => map (fun c => cell_at (i, c) rows) cols) idx |}
  else Err (ValueError "Index contains duplicate entries, cannot reshape").

End Pivot.

(** ** Lemmas *)

Section KeyLemmas.
Context {K : Type} `{KeyOrder K}.

(** A strictly sorted list is determined by its elements. *)
Lemma sorted_ext (l1 l2 : list K) :
  StronglySorted key_lt l1 -> StronglySorted key_lt l2 -> (forall x, In x l1 <-> In x l2) -> l1 = l2.
Proof.
  intros S1. revert l2. induction S1 as [|a l1 S1 IH A1]; intros l2 S2 Hx.
  - destruct l2 as [|b l2]; [reflexivity|]. exfalso. apply (Hx b). now left.
  - destruct S2 as [|b l2 S2 A2]; [exfalso; apply (Hx a); now left|].
    rewrite List.Forall_forall in A1, A2. unfold key_lt in *.
    assert (a = b) as <-.
    { destruct (decide (a = b)) as [|Hne]; [assumption|exfalso].
      assert (Ha : In a (b :: l2)) by (apply Hx; now left).
      assert (Hb : In b (a :: l1)) by (apply Hx; now left).
      destruct Ha as [<-|Ha]; [congruence|]. destruct Hb as [->|Hb]; [congruence|].
      pose proof (key_ltb_trans _ _ _ (A1 b Hb) (A2 a Ha)). now rewrite key_ltb_irrefl in H0. }
    f_equal. apply IH; [exact S2|]. intros x. split; intros Hin.
    + assert (In x (a :: l2)) as [<-|?] by (apply Hx; now right); [|assumption].
      specialize (A1 a Hin). now rewrite key_ltb_irrefl in A1.
    + assert (In x (a :: l1)) as [<-|?] by (apply Hx; now right); [|assumption].
      specialize (A2 a Hin). now rewrite key_ltb_irrefl in A2.
Qed.

Lemma group_keys_ext (c1 c2 : list K) :
  (forall x, In x c1 <-> In x c2) -> group_keys c1 = group_keys c2.
Proof.
  intros Hx. apply sorted_ext; [apply group_keys_sorted..|].
  intros x. rewrite !group_keys_in. apply Hx.
Qed.

Lemma existsb_key_in (l : list K) k : existsb (fun x => bool_decide (x = k)) l = true <-> In k l.
Proof.
  rewrite existsb_exists. split; [intros (x & Hx & E); apply bool_decide_eq_true in E; now subst|].
  intros Hk. exists k. split; [exact Hk|]. now apply bool_decide_eq_true.
Qed.

Lemma existsb_key_ext (l1 l2 : list K) k :
  (forall x, In x l1 <-> In x l2) ->
  existsb (fun x => bool_decide (x = k)) l1 = existsb (fun x => bool_decide (x = k)) l2.
Proof. intros Hx. apply eq_true_iff_eq. rewrite !existsb_key_in. apply Hx. Qed.

Lemma find_keyed {V} (f : K -> V) (ks : list K) key :
  List.find (fun r => bool_decide (r.1 = key)) (map (fun k => (k, f k)) ks)
  = if existsb (fun x => bool_decide (x = key)) ks then Some (key, f key) else None.
Proof.
  induction ks as [|k ks IH]; [reflexivity|]. simpl.
  destruct (decide (k = key)) as [->|Hne].
  - now rewrite !bool_decide_eq_true_2 by reflexivity.
  - rewrite !bool_decide_eq_false_2 by exact Hne. exact IH.
Qed.

Lemma map_fst_keyed {V} (f : K -> V) (ks : list K) : map fst (map (fun k => (k, f k)) ks) = ks.
Proof. rewrite map_map. apply map_id. Qed.

Lemma existsb_rows_keys {V} (rows : list (K * V)) k :
  existsb (fun r => bool_decide (r.1 = k)) rows = existsb (fun x => bool_decide (x = k)) (map fst rows).
Proof. induction rows as [|r rows IH]; simpl; [reflexivity|]. now rewrite IH. Qed.

End KeyLemmas.

Lemma list_sum_perm (l1 l2 : list nat) : Permutation l1 l2 -> list_sum l1 = list_sum l2.
Proof. induction 1; simpl; lia. Qed.

Lemma value_counts_perm {K} `{KeyOrder K} (col : list K) :
  Permutation (value_counts col) (map (fun k => (k, count_of k col)) (uniq_first col)).
Proof. apply sort_desc_perm. Qed.

(** Pivoting a group-by result never raises (shared with [Script]). *)
Lemma pivot_groupby_ok {R C} `{KeyOrder R} `{KeyOrder C} (rows : list ((R * C) * option Q)) :
  exists t, pivot (groupby_mean rows) = Ok t.
Proof.
  unfold pivot. rewrite bool_decide_eq_true_2; [eauto|].
  unfold groupby_mean. rewrite map_fst_keyed. apply NoDup_ListNoDup, group_keys_nodup.
Qed.

Lemma cell_at_groupby {R C} `{KeyOrder R} `{KeyOrder C} (rows : list ((R * C) * option Q)) i c :
  cell_at (i, c) (groupby_mean rows)
  = if existsb (fun r => bool_decide (r.1 = (i, c))) rows then nanmean (group_of (i, c) rows) else None.
Proof.
  unfold cell_at, groupby_mean. rewrite find_keyed, existsb_rows_keys.
  rewrite (existsb_key_ext (group_keys (map fst rows)) (map fst rows)) by apply group_keys_in.
  now destruct (existsb _ (map fst rows)).
Qed.

Lemma groupby_mean_proj {R C} `{KeyOrder R} `{KeyOrder C} (rows : list ((R * C) * option Q))
    (g : R * C -> R + C) x :
  In x (map (fun r => g r.1) (groupby_mean rows)) <-> In x (map (fun r => g r.1) rows).
Proof.
  unfold groupby_mean. rewrite map_map. simpl. rewrite !in_map_iff. split.
  - intros (k & <- & Hk). apply group_keys_in, in_map_iff in Hk as (r & <- & Hr). eauto.
  - intros (r & <- & Hr). exists r.1. split; [reflexivity|]. apply group_keys_in, in_map, Hr.
Qed.

(** ** Properties *)

Section GroupProperties.
Context {K V : Type} `{KeyOrder K}.

(** C17: the groups of [groupby], one per distinct key and in key order,
    partition the values: no value is lost and none is in two groups. *)
Theorem groupby_partition (rows : list (K * V)) :
  List.NoDup (group_keys (map fst rows)) /\
  Permutation (concat (map (fun k => group_of k rows) (group_keys (map fst rows)))) (map snd rows).
Proof. split; [apply group_keys_nodup|apply groups_partition]. Qed.

(** [groupby(..., as_index=False).mean()] has one row per distinct key,
    strictly sorted by key. *)
Theorem groupby_mean_keys (rows : list (K * option Q)) :
  StronglySorted key_lt (map fst (groupby_mean rows)) /\
  (forall k, In k (map fst (groupby_mean rows)) <-> In k (map fst rows)).
Proof.
  unfold groupby_mean. rewrite map_fst_keyed. split; [apply group_keys_sorted|apply group_keys_in].
Qed.

(** The present values of a group are the present values of the rows
    with its key. *)
Lemma present_group (rows : list (K * option Q)) k :
  present (group_of k rows) = omap (fun r => if decide (r.1 = k) then r.2 else None) rows.
Proof.
  unfold group_of, group_rows. induction rows as [|[k' v] rows IH]; [done|]. simpl.
  case_bool_decide as E; simpl; destruct (decide (k' = k)); try done; destruct v; simpl; by rewrite IH.
Qed.

(** C31: a row [(k, m)] of the group-by mean is there exactly when [k] is a
    key of the table, and [m] is the sum of the prices present in the rows
    of key [k] divided by their number, NaN when none is present. *)
Theorem groupby_mean_spec (rows : list (K * option Q)) k m :
  In (k, m) (groupby_mean rows) <->
  In k (map fst rows) /\
  m = match omap (fun r => if decide (r.1 = k) then r.2 else None) rows with
      | [] => None
      | vs => Some (qsum vs / qlen vs)
      end.
Proof.
  rewrite <- present_group. unfold groupby_mean. rewrite in_map_iff, <- group_keys_in. split.
  - intros (k' & [= <- <-] & Hk). unfold nanmean. by destruct (present _).
  - intros [Hk ->]. exists k. split; [|done]. unfold nanmean. by destruct (present _).
Qed.
(** C18: [grouped.head()] (line 132) keeps, in table order, the first [n]
    rows of each group: its rows are a subsequence of the table's, and its
    rows of each group [k] are the first [n] rows of [k] in the table. *)
Theorem groupby_head_spec n (rows : list (K * V)) :
  sublist (groupby_head n rows) rows /\
  forall k, group_rows k (groupby_head n rows) = firstn n (group_rows k rows).
Proof.
  split; [apply head_go_sublist|]. intros k. unfold groupby_head, cumcount.
  rewrite head_go_group. rewrite Nat.sub_0_r. reflexivity.
Qed.
End GroupProperties.

Section CountProperties.
Context {K : Type} `{KeyOrder K}.

(** C36: [value_counts] lists its values by decreasing count. *)
Theorem value_counts_sorted (col : list K) : Sorted count_ge (value_counts col).
Proof. apply sort_desc_sorted. Qed.

(** [value_counts] lists each value of the column exactly once, with
    its number of occurrences. *)
Theorem value_counts_spec (col : list K) :
  List.NoDup (map fst (value_counts col)) /\
  (forall k c, In (k, c) (value_counts col) <-> In k col /\ c = count_of k col).
Proof.
  pose proof (value_counts_perm col) as Hp. split.
  - rewrite (Permutation_map fst Hp), map_fst_keyed. apply uniq_first_nodup.
  - intros k c. rewrite Hp, in_map_iff, <- uniq_first_in. split.
    + intros (k' & [= <- <-] & Hk). auto.
    + intros [Hk ->]. eauto.
Qed.

(** The counts add up to the number of rows. *)
Theorem value_counts_total (col : list K) : list_sum (map snd (value_counts col)) = length col.
Proof.
  rewrite (list_sum_perm _ _ (Permutation_map snd (value_counts_perm col))), map_map. simpl.
  apply count_of_sum; [apply uniq_first_nodup|]. intros x. apply uniq_first_in.
Qed.
End CountProperties.

(** [rename(columns=mapping)] leaves a frame unchanged when none of its
    columns is named in the mapping; pandas 2 names the column of
    [value_counts().to_frame()] ["count"], so the rename of line 49 leaves
    the counts table of line 51 with its column ["count"]. *)
Theorem rename_absent_noop (mapping : list (string * string)) (f : count_frame) :
  (forall c p, In c (cf_columns f) -> In p mapping -> p.1 <> c) -> rename_columns mapping f = f.
Proof.
  intros Hn. destruct f as [n cols rs]. unfold rename_columns. simpl in *. f_equal.
  rewrite <- (map_id cols) at 2. apply map_ext_in. intros c Hc.
  destruct (List.find _ mapping) as [p|] eqn:E; [|reflexivity].
  apply find_some in E as [Hp E]. apply bool_decide_eq_true in E. exfalso. exact (Hn c p Hc Hp E).
Qed.

(** pivoting a two-key group-by mean never raises; its rows and columns
    are the sorted distinct values of the two keys, and each cell is the
    mean of its group, or NaN when the combination does not occur. *)
Theorem pivot_groupby {R C} `{KeyOrder R} `{KeyOrder C} (rows : list ((R * C) * option Q)) :
  pivot (groupby_mean rows) =
  Ok {| pv_index := group_keys (map (fun r => r.1.1) rows);
        pv_columns := group_keys (map (fun r => r.1.2) rows);
        pv_cells := map (fun i => map (fun c =>
                      if existsb (fun r => bool_decide (r.1 = (i, c))) rows
                      then nanmean (group_of (i, c) rows) else None)
                      (group_keys (map (fun r => r.1.2) rows)))
                      (group_keys (map (fun r => r.1.1) rows)) |}.
Proof.
  unfold pivot. rewrite bool_decide_eq_true_2.
  2: { unfold groupby_mean. rewrite map_fst_keyed. apply NoDup_ListNoDup, group_keys_nodup. }
  assert (Ei : group_keys (map (fun r => r.1.1) (groupby_mean rows)) = group_keys (map (fun r => r.1.1) rows)).
  { apply group_keys_ext. intros x.
    pose proof (groupby_mean_proj rows (fun k => inl k.1) (inl x)) as Hp. rewrite !in_map_iff in Hp |- *.
    split; intros (r & E & Hr); [destruct (proj1 Hp (ex_intro _ r (conj (f_equal inl E) Hr))) as (r' & E' & Hr')
                                |destruct (proj2 Hp (ex_intro _ r (conj (f_equal inl E) Hr))) as (r' & E' & Hr')];
      injection E' as E'; eauto. }
  assert (Ec : group_keys (map (fun r => r.1.2) (groupby_mean rows)) = group_keys (map (fun r => r.1.2) rows)).
  { apply group_keys_ext. intros x.
    pose proof (groupby_mean_proj rows (fun k => inr k.2) (inr x)) as Hp. rewrite !in_map_iff in Hp |- *.
    split; intros (r & E & Hr); [destruct (proj1 Hp (ex_intro _ r (conj (f_equal inr E) Hr))) as (r' & E' & Hr')
                                |destruct (proj2 Hp (ex_intro _ r (conj (f_equal inr E) Hr))) as (r' & E' & Hr')];
      injection E' as E'; eauto. }
  rewrite Ei, Ec. do 2 f_equal. apply map_ext. intros i. apply map_ext. intros c. apply cell_at_groupby.
Qed.

(** The two outcomes of [get_group] (shared with [Script]). *)
Lemma get_group_cases {V} (rows : list (string * V)) (name : string) :
  (In name (map fst rows) -> get_group rows name = Ok (group_of name rows)) /\
  (~ In name (map fst rows) -> get_group rows name = Err (KeyError name)).
Proof.
  unfold get_group. rewrite existsb_rows_keys. split; intros Hn.
  - now rewrite (proj2 (existsb_key_in _ _) Hn).
  - destruct (existsb _ _) eqn:E; [|reflexivity]. exfalso. now apply Hn, existsb_key_in.
Qed.

(** [get_group(name)] returns the values of the rows with key [name],
    in table order, and raises [KeyError(name)] when no row has that key. *)
Theorem get_group_spec {V} (rows : list (string * V)) (name : string) :
  (In name (map fst rows) -> get_group rows name = Ok (group_of name rows)) /\
  (~ In name (map fst rows) -> get_group rows name = Err (KeyError name)).
Proof. apply get_group_cases. Qed.

(** ** Witnesses and examples *)

Definition drive_ex : list string := ["fwd"; "rwd"; "fwd"; "4wd"; "fwd"; "rwd"].

Lemma rename_absent_noop_witness :
  rename_columns [("drive-wheels", "value_counts")] (value_counts_frame "drive-wheels" drive_ex)
  = value_counts_frame "drive-wheels" drive_ex.
Proof. apply rename_absent_noop. intros c p [<-|[]] [<-|[]]. simpl. discriminate. Defined.

Example value_counts_drive_ex : value_counts drive_ex = [("fwd", 3%nat); ("rwd", 2%nat); ("4wd", 1%nat)].
Proof. vm_compute. reflexivity. Qed.

Example counts_table_drive_ex : cf_columns (counts_table drive_ex) = ["count"].
Proof. vm_compute. reflexivity. Qed.

Example groupby_mean_ex :
  groupby_mean [("rwd", Some 20); ("fwd", Some 10); ("rwd", None); ("fwd", Some 14)]
  = [("fwd", Some (24 # 2)); ("rwd", Some (20 # 1))].
Proof. vm_compute. reflexivity. Qed.

Example pivot_ex :
  pivot (groupby_mean [(("fwd", "sedan"), Some 10); (("rwd", "wagon"), Some 30); (("fwd", "wagon"), Some 12)])
  = Ok {| pv_index := ["fwd"; "rwd"]; pv_columns := ["sedan"; "wagon"];
          pv_cells := [[Some (10 # 1); Some (12 # 1)]; [None; Some (30 # 1)]] |}.
Proof. vm_compute. reflexivity. Qed.

Example pivot_duplicate_ex :
  pivot [(("fwd", "sedan"), Some 10); (("fwd", "sedan"), Some 12)]
  = Err (ValueError "Index contains duplicate entries, cannot reshape").
Proof. vm_compute. reflexivity. Qed.
