(* ===== verification/Heatmap.v ===== *)
(** * Heatmap: the labelled heatmap of lines 77-92

    [axis.pcolor(df_test_one_pivot)] draws cell [(i, j)] of the pivot
    table (row [i], column [j]) as the unit square [[j, j+1] x [i, i+1]].
    Lines 81-86 then label the axes: [set_xticklabels] and
    [set_yticklabels] with the pivot's column and index labels, then
    [set_xticks] and [set_yticks] at [np.arange(n) + 0.5].

    A matplotlib axis is modelled as its state: a tick locator (automatic,
    or fixed at given positions) and a tick formatter (numeric, or fixed
    labels given by position).  Each call is a step on that state; setting
    labels while the locator is not fixed emits a warning, and setting
    fixed labels whose number differs from the fixed positions raises
    [ValueError] unless no label is given (matplotlib 3.5 and later).  A
    fixed formatter labels the [k]-th tick with the [k]-th label, or with
    the empty string when there are fewer labels than ticks. *)

From S2P Require Import Prelude GroupBy.

Open Scope Q_scope.

Module Heatmap.

(** ** Axis state and calls *)

Inductive locator :=
| AutoLocator
| FixedLocator (locs : list Q).

Inductive formatter :=
| ScalarFormatter
| FixedFormatter (labels : list string).

Record axis := { ax_loc : locator; ax_fmt : formatter }.

(** The state of the axes of [plt.subplots()] after [pcolor]: automatic
    ticks with numeric labels on both axes, and the warnings emitted. *)
Record axes := { xaxis : axis; yaxis : axis; warnings : list string }.

Definition fresh_axis : axis := {| ax_loc := AutoLocator; ax_fmt := ScalarFormatter |}.
Definition fresh_axes : axes := {| xaxis := fresh_axis; yaxis := fresh_axis; warnings := [] |}.

Definition fixed_ticks_warning : string :=
  "set_ticklabels() should only be used with a fixed number of ticks, i.e. after set_ticks() or using a FixedLocator.".

(** [Axis.set_ticklabels(labels)]: the new axis and the warning it emits;
    under a [FixedLocator] a count mismatch raises unless [labels] is
    empty (which removes the labels). *)
Definition set_ticklabels (labels : list string) (a : axis) : result (axis * list string) :=
  match ax_loc a with
  | FixedLocator locs =>
      if (length locs =? length labels) || (length labels =? 0) then Ok ({| ax_loc := ax_loc a; ax_fmt := FixedFormatter labels |}, [])
      else Err (ValueError "The number of FixedLocator locations does not match the number of labels.")
  | AutoLocator => Ok ({| ax_loc := AutoLocator; ax_fmt := FixedFormatter labels |}, [fixed_ticks_warning])
  end.

(** [Axis.set_ticks(locs)]. *)
Definition set_ticks (locs : list Q) (a : axis) : axis := {| ax_loc := FixedLocator locs; ax_fmt := ax_fmt a |}.

(** The calls of lines 81-86, on the x or the y axis. *)
Inductive axis_call :=
| SetXTickLabels (labels : list string)
| SetYTickLabels (labels : list string)
| SetXTicks (locs : list Q)
| SetYTicks (locs : list Q).

Definition on_x (f : axis -> result (axis * list string)) (s : axes) : result axes :=
  let* r := f (xaxis s) in Ok {| xaxis := r.1; yaxis := yaxis s; warnings := warnings s ++ r.2 |}.

Definition on_y (f : axis -> result (axis * list string)) (s : axes) : result axes :=
  let* r := f (yaxis s) in Ok {| xaxis := xaxis s; yaxis := r.1; warnings := warnings s ++ r.2 |}.

(** One call as a step on the axes. *)
Definition step (c : axis_call) (s : axes) : result axes :=
  match c with
  | SetXTickLabels l => on_x (set_ticklabels l) s
  | SetYTickLabels l => on_y (set_ticklabels l) s
  | SetXTicks p => on_x (fun a => Ok (set_ticks p a, [])) s
  | SetYTicks p => on_y (fun a => Ok (set_ticks p a, [])) s
  end.

(** A sequence of calls, stopping at the first exception. *)
Fixpoint run (cs : list axis_call) (s : axes) : result axes :=
  match cs with
  | [] => Ok s
  | c :: cs' => let* s' := step c s in run cs' s'
  end.

(** What the axis shows: each fixed tick with its label. *)
Definition shown_ticks (a : axis) : list (Q * string) :=
  match ax_loc a, ax_fmt a with
  | FixedLocator locs, FixedFormatter labels =>
      map (fun '(k, p) => (p, nth k labels "")) (combine (seq 0 (length locs)) locs)
  | _, _ => []
  end.

(** ** The heatmap of the pivot table *)

(** [np.arange(n) + 0.5]. *)
Definition centres (n : nat) : list Q := map (fun k => inject_Z (Z.of_nat k) + (1 # 2)) (seq 0 n).

(** The x and y extent of cell [(i, j)] drawn by [pcolor]. *)
Definition cell_box (i j : nat) : (Q * Q) * (Q * Q) :=
  ((inject_Z (Z.of_nat j), inject_Z (Z.of_nat j) + 1), (inject_Z (Z.of_nat i), inject_Z (Z.of_nat i) + 1)).

(** [df_test_one_pivot.columns]: the pivot of the price keeps the value
    name as the first level of its column labels. *)
Definition column_labels {R C} (t : pivot_table R C) : list (string * C) :=
  map (fun c => ("price", c)) (pv_columns t).

(** [columns.levels[1]]: the sorted distinct second components. *)
Definition levels1 {R C} `{KeyOrder C} (t : pivot_table R C) : list C :=
  group_keys (map snd (column_labels t)).

(** [df.shape] of the pivot table. *)
Definition shape {R C} (t : pivot_table R C) : nat * nat := (length (pv_index t), length (column_labels t)).

(** Lines 81-86 on a pivot table with string labels. *)
Definition label_calls (t : pivot_table string string) : list axis_call :=
  [SetXTickLabels (levels1 t); SetYTickLabels (pv_index t);
   SetXTicks (centres (shape t).2); SetYTicks (centres (shape t).1)].

Definition labelled_heatmap (t : pivot_table string string) : result axes :=
  run (label_calls t) fresh_axes.

(** What a correct labelling of the heatmap of [t] shows on axes [s]:
    one x tick per column and one y tick per row, the [j]-th x tick at the
    centre of the cells of column [j] with that column's label, and
    likewise for the rows. *)
Definition ticks_aligned (t : pivot_table string string) (s : axes) : Prop :=
  length (shown_ticks (xaxis s)) = length (pv_columns t) /\
  length (shown_ticks (yaxis s)) = length (pv_index t) /\
  (forall j c, nth_error (pv_columns t) j = Some c ->
     exists p, nth_error (shown_ticks (xaxis s)) j = Some (p, c) /\
               p == ((cell_box 0 j).1.1 + (cell_box 0 j).1.2) / 2) /\
  (forall i r, nth_error (pv_index t) i = Some r ->
     exists p, nth_error (shown_ticks (yaxis s)) i = Some (p, r) /\
               p == ((cell_box i 0).2.1 + (cell_box i 0).2.2) / 2).

(** The same calls with the ticks fixed before the labels. *)
Definition ticks_first_calls (t : pivot_table string string) : list axis_call :=
  [SetXTicks (centres (shape t).2); SetYTicks (centres (shape t).1);
   SetXTickLabels (levels1 t); SetYTickLabels (pv_index t)].

(** ** Lemmas *)

Lemma group_keys_sorted_id {K} `{KeyOrder K} (l : list K) :
  StronglySorted key_lt l -> group_keys l = l.
Proof.
  intros Hs. apply sorted_ext; [apply group_keys_sorted|exact Hs|]. intros x. apply group_keys_in.
Qed.

Lemma pivot_sorted {R C} `{KeyOrder R} `{KeyOrder C} (rows : list ((R * C) * option Q)) t :
  pivot rows = Ok t -> StronglySorted key_lt (pv_index t) /\ StronglySorted key_lt (pv_columns t).
Proof.
  unfold pivot. case_bool_decide; [|discriminate]. intros [= <-]. simpl.
  split; apply group_keys_sorted.
Qed.

Lemma levels1_pivot {R} `{KeyOrder R} (rows : list ((R * string) * option Q)) t :
  pivot rows = Ok t -> levels1 t = pv_columns t.
Proof.
  intros Hp. unfold levels1, column_labels. rewrite map_map. simpl. rewrite map_id.
  apply group_keys_sorted_id, (pivot_sorted rows t Hp).
Qed.

Lemma shown_combine (locs : list Q) (labels : list string) :
  length locs = length labels ->
  map (fun '(k, p) => (p, nth k labels "")) (combine (seq 0 (length locs)) locs) = combine locs labels.
Proof.
  revert labels. induction locs as [|p locs IH]; intros [|l labels] Hl; simpl in *; try easy.
  f_equal. rewrite <- seq_shift.
  assert (Hc : forall (ks : list nat) (ps : list Q),
             combine (map S ks) ps = map (fun '(k, q) => (S k, q)) (combine ks ps)).
  { induction ks as [|k ks IHk]; intros [|q ps]; simpl; try reflexivity. now rewrite IHk. }
  rewrite Hc, map_map, <- (IH labels) by lia. apply map_ext. intros [k q]. reflexivity.
Qed.

Lemma nth_error_combine {A B} (l1 : list A) (l2 : list B) j :
  nth_error (combine l1 l2) j =
  match nth_error l1 j, nth_error l2 j with Some a, Some b => Some (a, b) | _, _ => None end.
Proof.
  revert l2 j. induction l1 as [|a l1 IH]; intros [|b l2] [|j]; simpl; try reflexivity.
  - now destruct (nth_error l1 j).
  - apply IH.
Qed.

Lemma nth_error_centres n j :
  (j < n)%nat -> nth_error (centres n) j = Some (inject_Z (Z.of_nat j) + (1 # 2)).
Proof.
  intros Hj. unfold centres. rewrite nth_error_map, nth_error_seq.
  destruct (Nat.ltb_spec j n); [reflexivity|lia].
Qed.

Lemma length_centres n : length (centres n) = n.
Proof. unfold centres. now rewrite length_map, length_seq. Qed.

(** The tick of position [k] of [np.arange(n) + 0.5] is the midpoint of
    the [k]-th unit interval drawn by [pcolor]. *)
Lemma centre_midpoint (k : nat) :
  inject_Z (Z.of_nat k) + (1 # 2) == (inject_Z (Z.of_nat k) + (inject_Z (Z.of_nat k) + 1)) / 2.
Proof. field. Qed.

(** The ticks shown for fixed positions [centres n] and [n] labels. *)
Lemma shown_ticks_fixed (labels : list string) :
  shown_ticks {| ax_loc := FixedLocator (centres (length labels)); ax_fmt := FixedFormatter labels |}
  = combine (centres (length labels)) labels.
Proof. simpl. apply shown_combine, length_centres. Qed.

Lemma shown_ticks_nth (labels : list string) j l :
  nth_error labels j = Some l ->
  exists p, nth_error (combine (centres (length labels)) labels) j = Some (p, l) /\
            p == (inject_Z (Z.of_nat j) + (inject_Z (Z.of_nat j) + 1)) / 2.
Proof.
  intros Hl. pose proof (nth_error_Some labels j) as [Hj _]. rewrite Hl in Hj.
  specialize (Hj ltac:(discriminate)).
  rewrite nth_error_combine, nth_error_centres, Hl by exact Hj.
  eexists. split; [reflexivity|]. apply centre_midpoint.
Qed.

(** ** Properties *)

(** C37: on a pivot table, the labelled heatmap of lines 77-86 shows one x
    tick per column and one y tick per row; the [j]-th x tick sits at the
    centre of the cells of column [j] and carries that column's label, and
    likewise for the rows. *)
Theorem heatmap_labels_aligned (rows : list ((string * string) * option Q)) t :
  pivot rows = Ok t -> exists s, labelled_heatmap t = Ok s /\ ticks_aligned t s.
Proof.
  intros Hp. pose proof (levels1_pivot rows t Hp) as Hl.
  unfold labelled_heatmap, label_calls, shape, column_labels. rewrite Hl, length_map.
  eexists. split; [reflexivity|]. unfold ticks_aligned. simpl xaxis. simpl yaxis. unfold set_ticks. simpl ax_fmt.
  rewrite !shown_ticks_fixed, !length_combine, !length_centres, !Nat.min_id.
  split; [reflexivity|split; [reflexivity|split]].
  - intros j c Hc. apply shown_ticks_nth, Hc.
  - intros i r Hr. apply shown_ticks_nth, Hr.
Qed.

(** C38: the order of the calls of lines 81-86 does not change what the
    axes show: fixing the ticks before the labels gives the same axes, but
    the script's order (labels first) emits matplotlib's warning once per
    axis. *)
Theorem heatmap_order_irrelevant (rows : list ((string * string) * option Q)) t :
  pivot rows = Ok t ->
  exists s1 s2, labelled_heatmap t = Ok s1 /\ run (ticks_first_calls t) fresh_axes = Ok s2 /\
    xaxis s1 = xaxis s2 /\ yaxis s1 = yaxis s2 /\
    warnings s1 = [fixed_ticks_warning; fixed_ticks_warning] /\ warnings s2 = [].
Proof.
  intros Hp. pose proof (levels1_pivot rows t Hp) as Hl.
  unfold labelled_heatmap, label_calls, ticks_first_calls, shape, column_labels.
  rewrite Hl, length_map. simpl. unfold on_x, on_y, set_ticklabels, set_ticks, fresh_axis. simpl.
  rewrite length_centres, Nat.eqb_refl. simpl. rewrite length_centres, Nat.eqb_refl. simpl.
  eexists _, _. split; [reflexivity|split; [reflexivity|]]. repeat split.
Qed.

(** ** Witnesses *)

Definition rows_ex : list ((string * string) * option Q) :=
  [(("fwd", "sedan"), Some 10); (("rwd", "wagon"), Some 30); (("fwd", "hatchback"), Some 8)].

Lemma heatmap_labels_aligned_witness :
  exists t, pivot rows_ex = Ok t /\ exists s, labelled_heatmap t = Ok s /\ ticks_aligned t s.
Proof.
  eexists. split; [vm_compute; reflexivity|].
  eapply (heatmap_labels_aligned rows_ex). vm_compute. reflexivity.
Defined.

Lemma heatmap_order_irrelevant_witness :
  exists t, pivot rows_ex = Ok t /\
  exists s1 s2, labelled_heatmap t = Ok s1 /\ run (ticks_first_calls t) fresh_axes = Ok s2 /\
    xaxis s1 = xaxis s2 /\ yaxis s1 = yaxis s2 /\
    warnings s1 = [fixed_ticks_warning; fixed_ticks_warning] /\ warnings s2 = [].
Proof.
  eexists. split; [vm_compute; reflexivity|].
  eapply (heatmap_order_irrelevant rows_ex). vm_compute. reflexivity.
Defined.

End Heatmap.
