(* ===== verification/Pyplot.v ===== *)
(** * Pyplot: the figures of lines 29-92 and pyplot's global state

    [matplotlib.pyplot] keeps a global state: the open figures, in the
    order they were last activated ([Gcf.figs]; the active figure is the
    last), each figure its list of axes ([Figure.axes]) and its current
    axes, and each axes its current image ([Axes._current_image]).  The
    script draws through that state: [sns.regplot] and [sns.boxplot]
    (lines 29, 36) draw on [plt.gca()], [plt.ylim] (line 30) sets the
    bottom of [plt.gca()], [plt.pcolor] (line 72) draws on [plt.gca()] and
    makes the mesh the current image, [plt.colorbar()] (line 73) needs
    that image, [plt.subplots()] (line 77) opens a figure and gives its
    axes by handle, [axis.pcolor] (line 78) draws on that axes without
    making the mesh current, [plt.xticks(rotation=90)] (line 89) rotates
    the x labels of [plt.gca()], and [figure.colorbar(image)] (line 91)
    adds a colour bar to the figure of [image].

    [plt.show()] (lines 31, 37, 74, 92) depends on the backend: with a
    GUI backend (or the inline backend of a notebook) it displays every
    open figure and closes them all once the windows are closed; with the
    non-interactive Agg backend it displays nothing and the figures stay
    open.  The state is [pyplot], a list of [figure] records; each call is
    a function on it ([plt_*] for pyplot's functions, [ax_*] and [fig_*]
    for methods called on a handle); [plots] runs lines 29-92 and returns
    what each [show] displays.  The tick state of an axes is
    [Heatmap.axes], so lines 81-86 are [Heatmap.run] on the axes of
    line 77.

    Seaborn's own changes to its axes (labels, categorical ticks of the
    box plot) and the geometry (the space a colour bar takes from its
    axes) are not modelled: an axes records what is drawn on it, in
    order. *)

From S2P Require Import Prelude GroupBy Heatmap.

Module Pyplot.

Import Heatmap.

(** ** State *)

(** What is drawn on an axes. *)
Inductive artist :=
| ARegplot
| ABoxplot
| AMesh (t : pivot_table string string)
| AColorbar.

Record paxes := PAxes {
  artists : list artist;
  ylim_bottom : option Q;
  ticks : Heatmap.axes;
  xrotation : option Z;
  cur_image : option nat
}.

Record figure := Fig {
  num : nat;
  fig_axes : list paxes;
  fig_cur : option nat
}.

(** [Gcf.figs]: the open figures, the active one last. *)
Definition pyplot := list figure.

(** The [axis] of [figure, axis = plt.subplots()]: its figure's number and
    its position in [Figure.axes]. *)
Record ax_handle := AxH { h_fig : nat; h_ax : nat }.

(** The collection [pcolor] returns: its axes and its position there. *)
Record mesh := Mesh { m_axes : ax_handle; m_idx : nat }.

Definition empty_axes : paxes := PAxes [] None fresh_axes None None.

Definition draw (a : artist) (p : paxes) : paxes :=
  PAxes (artists p ++ [a]) (ylim_bottom p) (ticks p) (xrotation p) (cur_image p).

Definition with_ylim (q : Q) (p : paxes) : paxes :=
  PAxes (artists p) (Some q) (ticks p) (xrotation p) (cur_image p).

Definition with_ticks (tk : Heatmap.axes) (p : paxes) : paxes :=
  PAxes (artists p) (ylim_bottom p) tk (xrotation p) (cur_image p).

Definition with_xrotation (r : Z) (p : paxes) : paxes :=
  PAxes (artists p) (ylim_bottom p) (ticks p) (Some r) (cur_image p).

(** [Axes._sci(im)]. *)
Definition with_image (k : nat) (p : paxes) : paxes :=
  PAxes (artists p) (ylim_bottom p) (ticks p) (xrotation p) (Some k).

(** ** Figures *)

(** [Figure.sca(ax)]. *)
Definition sca (i : nat) (f : figure) : figure := Fig (num f) (fig_axes f) (Some i).

(** [Figure._add_axes_internal]: append the axes and make it current. *)
Definition add_axes (p : paxes) (f : figure) : figure * nat :=
  (Fig (num f) (fig_axes f ++ [p]) (Some (length (fig_axes f))), length (fig_axes f)).

(** [Figure.add_subplot()]. *)
Definition add_subplot (f : figure) : figure * nat := add_axes empty_axes f.

(** [Figure.gca()]: the current axes, a new subplot when there is none. *)
Definition fig_gca (f : figure) : figure * nat :=
  match fig_cur f with Some i => (f, i) | None => add_subplot f end.

(** [Figure._gci()]: the current image of the current axes, else of the
    last axes ([reversed(self.axes)]) that has one. *)
Definition fig_gci (f : figure) : option mesh :=
  match fig_cur f with
  | None => None
  | Some i =>
      match fig_axes f !! i ≫= cur_image with
      | Some k => Some (Mesh (AxH (num f) i) k)
      | None => head (omap (fun '(j, p) => Mesh (AxH (num f) j) <$> cur_image p)
                           (rev (imap pair (fig_axes f))))
      end
  end.

(** ** pyplot *)

(** [plt.figure()]: the number [max(get_fignums()) + 1], or 1. *)
Definition next_num (s : pyplot) : nat := S (list_max (map num s)).

(** [plt.gcf()]: the active figure, a new one when none is open; returned
    with the other figures, the state being [pre ++ [f]]. *)
Definition plt_gcf (s : pyplot) : pyplot * figure :=
  match last s with
  | Some f => (removelast s, f)
  | None => ([], Fig (next_num s) [] None)
  end.

(** [plt.gca()] = [gcf().gca()]. *)
Definition plt_gca (s : pyplot) : pyplot * ax_handle :=
  let '(pre, f) := plt_gcf s in
  let '(f', i) := fig_gca f in
  (pre ++ [f'], AxH (num f') i).

Definition on_figure (n : nat) (g : figure -> figure) (s : pyplot) : pyplot :=
  map (fun f => if num f =? n then g f else f) s.

Definition on_axes (h : ax_handle) (g : paxes -> paxes) : pyplot -> pyplot :=
  on_figure (h_fig h) (fun f => Fig (num f) (alter g (h_ax h) (fig_axes f)) (fig_cur f)).

Definition axes_at (h : ax_handle) (s : pyplot) : option paxes :=
  f ← List.find (fun f => num f =? h_fig h) s; fig_axes f !! h_ax h.

(** [sns.regplot(..., data=df)] and [sns.boxplot(...)] with [ax=None]
    draw on [plt.gca()]. *)
Definition plt_regplot (s : pyplot) : pyplot := let '(s1, h) := plt_gca s in on_axes h (draw ARegplot) s1.

Definition plt_boxplot (s : pyplot) : pyplot := let '(s1, h) := plt_gca s in on_axes h (draw ABoxplot) s1.

(** [plt.ylim(q,)] = [gca().set_ylim(q)]: the bottom, the top kept. *)
Definition plt_ylim (q : Q) (s : pyplot) : pyplot := let '(s1, h) := plt_gca s in on_axes h (with_ylim q) s1.

(** [axis.pcolor(C)]: the collection is added and returned. *)
Definition ax_pcolor (h : ax_handle) (t : pivot_table string string) (s : pyplot) : pyplot * mesh :=
  let k := match axes_at h s with Some p => length (artists p) | None => 0%nat end in
  (on_axes h (draw (AMesh t)) s, Mesh h k).

(** [plt.pcolor(C)]: [gca().pcolor(C)], then [sci] of the result. *)
Definition plt_pcolor (t : pivot_table string string) (s : pyplot) : pyplot * mesh :=
  let '(s1, h) := plt_gca s in
  let '(s2, m) := ax_pcolor h t s1 in
  (on_axes h (with_image (m_idx m)) s2, m).

(** [plt.gci()] = [gcf()._gci()]. *)
Definition plt_gci (s : pyplot) : pyplot * option mesh :=
  let '(pre, f) := plt_gcf s in (pre ++ [f], fig_gci f).

Definition colorbar_axes : paxes := draw AColorbar empty_axes.

(** [Figure.colorbar(mappable)]: the colour bar axes goes into the figure
    of [mappable.axes]; [fig.sca(current_ax)] undoes the change of the
    current axes. *)
Definition fig_colorbar (m : mesh) (s : pyplot) : pyplot :=
  on_figure (h_fig (m_axes m))
    (fun f => let '(f1, i) := fig_gca f in sca i (add_axes colorbar_axes f1).1) s.

Definition colorbar_msg : string :=
  "No mappable was found to use for colorbar creation. First define a mappable such as an image (with imshow) or a contour set (with contourf).".

(** [plt.colorbar()]: [gci()], [RuntimeError] when there is none. *)
Definition plt_colorbar (s : pyplot) : result pyplot :=
  let '(s1, om) := plt_gci s in
  match om with
  | None => Err (RuntimeError colorbar_msg)
  | Some m => Ok (fig_colorbar m s1)
  end.

(** [plt.xticks(rotation=r)]: the x tick labels of [plt.gca()]. *)
Definition plt_xticks_rotation (r : Z) (s : pyplot) : pyplot :=
  let '(s1, h) := plt_gca s in on_axes h (with_xrotation r) s1.

(** [plt.subplots()]: a new active figure with one axes. *)
Definition plt_subplots (s : pyplot) : pyplot * ax_handle :=
  let '(f, i) := add_subplot (Fig (next_num s) [] None) in (s ++ [f], AxH (num f) i).

(** Tick calls on the axes of a handle (lines 81-86). *)
Definition ax_tick_calls (h : ax_handle) (cs : list axis_call) (s : pyplot) : result pyplot :=
  match axes_at h s with
  | Some p => let* tk := Heatmap.run cs (ticks p) in Ok (on_axes h (with_ticks tk) s)
  | None => Ok s
  end.

Inductive backend := Gui | Agg.

(** [plt.show()]: what it displays, and the state after it. *)
Definition plt_show (b : backend) (s : pyplot) : list figure * pyplot :=
  match b with Gui => (s, []) | Agg => ([], s) end.

(** ** Lines 29-92 *)

Definition plots (b : backend) (t : pivot_table string string) : result (list (nat * list figure) * pyplot) :=
  let s := plt_regplot [] in
  let s := plt_ylim 0 s in
  let '(d31, s) := plt_show b s in
  let s := plt_boxplot s in
  let '(d37, s) := plt_show b s in
  let '(s, _) := plt_pcolor t s in
  let* s := plt_colorbar s in
  let '(d74, s) := plt_show b s in
  let '(s, axis) := plt_subplots s in
  let '(s, image) := ax_pcolor axis t s in
  let* s := ax_tick_calls axis (label_calls t) s in
  let s := plt_xticks_rotation 90 s in
  let s := fig_colorbar image s in
  let '(d92, s) := plt_show b s in
  Ok ([(31%nat, d31); (37%nat, d37); (74%nat, d74); (92%nat, d92)], s).

(** ** Any sequence of calls *)

(** A pyplot call of the kinds the script makes, with any arguments. *)
Inductive call :=
| CRegplot
| CBoxplot
| CYlim (q : Q)
| CShow
| CPcolor (t : pivot_table string string)
| CColorbar
| CSubplots
| CAxPcolor (h : ax_handle) (t : pivot_table string string)
| CAxTicks (h : ax_handle) (cs : list axis_call)
| CXticks (r : Z)
| CFigColorbar (m : mesh).

Definition exec (b : backend) (c : call) (s : pyplot) : result pyplot :=
  match c with
  | CRegplot => Ok (plt_regplot s)
  | CBoxplot => Ok (plt_boxplot s)
  | CYlim q => Ok (plt_ylim q s)
  | CShow => Ok (plt_show b s).2
  | CPcolor t => Ok (plt_pcolor t s).1
  | CColorbar => plt_colorbar s
  | CSubplots => Ok (plt_subplots s).1
  | CAxPcolor h t => Ok (ax_pcolor h t s).1
  | CAxTicks h cs => ax_tick_calls h cs s
  | CXticks r => Ok (plt_xticks_rotation r s)
  | CFigColorbar m => Ok (fig_colorbar m s)
  end.

(** The states a program reaches from [import matplotlib.pyplot]. *)
Inductive reachable (b : backend) : pyplot -> Prop :=
| reach_init : reachable b []
| reach_step c s s' : reachable b s -> exec b c s = Ok s' -> reachable b s'.

(** A current image is an artist of its axes; a figure with axes has a
    current one among them; figure numbers are distinct. *)
Definition paxes_wf (p : paxes) : Prop :=
  match cur_image p with Some k => (k < length (artists p))%nat | None => True end.

Definition fig_wf (f : figure) : Prop :=
  match fig_cur f with Some i => (i < length (fig_axes f))%nat | None => fig_axes f = [] end /\
  Forall paxes_wf (fig_axes f).

Definition pyplot_wf (s : pyplot) : Prop := NoDup (map num s) /\ Forall fig_wf s.

(** ** Lemmas *)

Lemma tick_calls_fresh h t tk s p :
  axes_at h s = Some p -> ticks p = fresh_axes -> labelled_heatmap t = Ok tk ->
  ax_tick_calls h (label_calls t) s = Ok (on_axes h (with_ticks tk) s).
Proof. intros Ha Ht Hl. unfold ax_tick_calls. rewrite Ha, Ht. unfold labelled_heatmap in Hl. rewrite Hl. reflexivity. Qed.

Create HintDb pyplot.

Lemma draw_wf a p : paxes_wf p -> paxes_wf (draw a p).
Proof. unfold paxes_wf, draw. simpl. destruct (cur_image p); [rewrite length_app; simpl; lia|done]. Qed.

Lemma with_ylim_wf q p : paxes_wf p -> paxes_wf (with_ylim q p).
Proof. done. Qed.

Lemma with_ticks_wf tk p : paxes_wf p -> paxes_wf (with_ticks tk p).
Proof. done. Qed.

Lemma with_xrotation_wf r p : paxes_wf p -> paxes_wf (with_xrotation r p).
Proof. done. Qed.

Lemma empty_axes_wf : paxes_wf empty_axes.
Proof. done. Qed.

Lemma colorbar_axes_wf : paxes_wf colorbar_axes.
Proof. done. Qed.

#[export] Hint Resolve draw_wf with_ylim_wf with_ticks_wf with_xrotation_wf empty_axes_wf colorbar_axes_wf : pyplot.

Lemma add_axes_wf p f : fig_wf f -> paxes_wf p -> fig_wf (add_axes p f).1 /\ num (add_axes p f).1 = num f.
Proof.
  intros [_ Hf] Hp. split; [|done]. split; simpl; [rewrite length_app; simpl; lia|].
  apply Forall_app. auto.
Qed.

(** [Figure.gca()] gives a current axes of the figure. *)
Lemma fig_gca_wf f :
  fig_wf f -> fig_wf (fig_gca f).1 /\ num (fig_gca f).1 = num f /\
  ((fig_gca f).2 < length (fig_axes (fig_gca f).1))%nat.
Proof.
  intros Hf. unfold fig_gca. destruct (fig_cur f) as [i|] eqn:E.
  - split_and!; [done|done|]. destruct Hf as [Hi _]. rewrite E in Hi. exact Hi.
  - unfold add_subplot. pose proof (add_axes_wf empty_axes f Hf empty_axes_wf) as [Hw Hn].
    split_and!; [done|done|]. simpl. rewrite length_app. simpl. lia.
Qed.

Lemma on_figure_num n g s : (forall f, num (g f) = num f) -> map num (on_figure n g s) = map num s.
Proof.
  intros Hg. unfold on_figure. rewrite map_map. apply map_ext. intros f. by destruct (num f =? n).
Qed.

Lemma on_figure_wf n g s :
  pyplot_wf s -> (forall f, num (g f) = num f) ->
  (forall f, In f s -> num f = n -> fig_wf f -> fig_wf (g f)) -> pyplot_wf (on_figure n g s).
Proof.
  intros [Hn Hs] Hnum Hg. split; [by rewrite on_figure_num|].
  apply List.Forall_forall. intros f' (f & <- & Hin)%in_map_iff.
  rewrite List.Forall_forall in Hs. destruct (Nat.eqb_spec (num f) n); auto.
Qed.

(** An operation on the axes at [h] keeps the state well formed when it
    keeps the axes there well formed. *)
Lemma on_axes_wf h g s :
  pyplot_wf s ->
  (forall f p, In f s -> num f = h_fig h -> fig_axes f !! h_ax h = Some p -> paxes_wf p -> paxes_wf (g p)) ->
  pyplot_wf (on_axes h g s).
Proof.
  intros Hs Hg. apply on_figure_wf; [done|done|]. intros f Hin Hn [Hc Ha]. split; simpl.
  - rewrite length_alter. destruct (fig_cur f); [done|]. by rewrite Hc.
  - apply Forall_alter; [done|]. eauto.
Qed.

Lemma on_axes_wf' h g s : pyplot_wf s -> (forall p, paxes_wf p -> paxes_wf (g p)) -> pyplot_wf (on_axes h g s).
Proof. intros Hs Hg. apply on_axes_wf; auto. Qed.

Lemma on_axes_compose h g1 g2 s : on_axes h g2 (on_axes h g1 s) = on_axes h (fun p => g2 (g1 p)) s.
Proof.
  unfold on_axes, on_figure. rewrite map_map. apply map_ext. intros f.
  destruct (num f =? h_fig h) eqn:E; simpl; rewrite ?E; [|done]. by rewrite list_alter_alter_eq.
Qed.

(** With distinct numbers, the axes at a handle is the one of the figure
    with that number. *)
Lemma axes_at_unique h s f :
  NoDup (map num s) -> In f s -> num f = h_fig h -> axes_at h s = fig_axes f !! h_ax h.
Proof.
  induction s as [|f0 s IH]; [done|]. intros Hnd Hin Hn. apply NoDup_cons in Hnd as [Hn0 Hnd].
  unfold axes_at in *. simpl. destruct Hin as [<-|Hin].
  - by rewrite Hn, Nat.eqb_refl.
  - destruct (Nat.eqb_spec (num f0) (h_fig h)) as [E|]; [|by apply IH].
    exfalso. apply Hn0. rewrite E, <- Hn. apply list_elem_of_In, in_map, Hin.
Qed.

Lemma pyplot_wf_last pre f f' :
  pyplot_wf (pre ++ [f]) -> fig_wf f' -> num f' = num f -> pyplot_wf (pre ++ [f']).
Proof.
  intros [Hn Hs] Hf' E. unfold pyplot_wf. rewrite map_app in *. simpl in *. rewrite E. split; [done|].
  apply Forall_app in Hs as [? _]. apply Forall_app. auto.
Qed.

Lemma plt_gcf_wf s : pyplot_wf s -> pyplot_wf ((plt_gcf s).1 ++ [(plt_gcf s).2]).
Proof.
  unfold plt_gcf. destruct (last s) as [f|] eqn:E; simpl.
  - apply last_Some in E as [l ->]. by rewrite removelast_last.
  - intros _. split; [constructor; [by intros ?%list_elem_of_In|constructor]|]. repeat constructor.
Qed.

Lemma plt_gca_wf s : pyplot_wf s -> pyplot_wf (plt_gca s).1.
Proof.
  intros Hs. unfold plt_gca. pose proof (plt_gcf_wf s Hs) as Hw. destruct (plt_gcf s) as [pre f]. simpl in *.
  assert (Hf : fig_wf f) by (destruct Hw as [_ Hw]; apply Forall_app in Hw as [_ Hw]; by inversion Hw).
  destruct (fig_gca_wf f Hf) as (Hf' & Hn & _). destruct (fig_gca f) as [f' i]. simpl in *.
  by apply (pyplot_wf_last pre f f').
Qed.

#[export] Hint Resolve plt_gca_wf on_axes_wf' : pyplot.

Lemma gca_op_wf (g : paxes -> paxes) s :
  pyplot_wf s -> (forall p, paxes_wf p -> paxes_wf (g p)) -> pyplot_wf (let '(s1, h) := plt_gca s in on_axes h g s1).
Proof. intros Hs Hg. pose proof (plt_gca_wf s Hs). destruct (plt_gca s). auto with pyplot. Qed.

Lemma plt_pcolor_wf t s : pyplot_wf s -> pyplot_wf (plt_pcolor t s).1.
Proof.
  intros Hs. unfold plt_pcolor. pose proof (plt_gca_wf s Hs) as H1. destruct (plt_gca s) as [s1 h]. simpl in H1.
  unfold ax_pcolor. simpl. rewrite on_axes_compose. apply on_axes_wf; [done|].
  intros f p Hin Hn Hp _. rewrite (axes_at_unique h s1 f (proj1 H1) Hin Hn), Hp.
  unfold paxes_wf, with_image, draw. simpl. rewrite length_app. simpl. lia.
Qed.

Lemma fig_gca_num f : num (fig_gca f).1 = num f.
Proof. unfold fig_gca. by destruct (fig_cur f). Qed.

Lemma fig_colorbar_wf m s : pyplot_wf s -> pyplot_wf (fig_colorbar m s).
Proof.
  intros Hs. apply on_figure_wf; [done| |].
  - intros f. rewrite <- (fig_gca_num f). by destruct (fig_gca f).
  - intros f _ _ Hf. destruct (fig_gca_wf f Hf) as (Hw & _ & Hi). destruct (fig_gca f) as [f1 i]. simpl in *.
    destruct (add_axes_wf colorbar_axes f1 Hw colorbar_axes_wf) as [[_ Ha] _].
    split; [|exact Ha]. simpl. rewrite length_app. simpl. lia.
Qed.

Lemma plt_colorbar_wf s s' : pyplot_wf s -> plt_colorbar s = Ok s' -> pyplot_wf s'.
Proof.
  intros Hs. unfold plt_colorbar, plt_gci. pose proof (plt_gcf_wf s Hs) as Hw. destruct (plt_gcf s) as [pre f].
  destruct (fig_gci f); [|discriminate]. intros [= <-]. by apply fig_colorbar_wf.
Qed.

Lemma next_num_fresh s : next_num s ∉ map num s.
Proof.
  unfold next_num. intros Hin%list_elem_of_In.
  pose proof (proj1 (list_max_le (map num s) _) (le_n _)) as H. rewrite List.Forall_forall in H.
  specialize (H _ Hin). lia.
Qed.

Lemma plt_subplots_wf s : pyplot_wf s -> pyplot_wf (plt_subplots s).1.
Proof.
  intros [Hn Hs]. split; simpl.
  - rewrite map_app. apply NoDup_app. split_and!; [done| |apply NoDup_singleton].
    intros x Hx ->%list_elem_of_singleton. by apply (next_num_fresh s).
  - apply Forall_app. split; [done|]. repeat constructor.
Qed.

Lemma ax_tick_calls_wf h cs s s' : pyplot_wf s -> ax_tick_calls h cs s = Ok s' -> pyplot_wf s'.
Proof.
  unfold ax_tick_calls. intros Hs. destruct (axes_at h s); [|by intros [= <-]].
  destruct (run cs (ticks p)); [|discriminate]. intros [= <-]. auto with pyplot.
Qed.

(** Every call keeps the state well formed. *)
Lemma exec_wf b c s s' : pyplot_wf s -> exec b c s = Ok s' -> pyplot_wf s'.
Proof.
  intros Hs. destruct c; simpl; try (intros [= <-]).
  all: try (apply gca_op_wf; auto with pyplot).
  - destruct b; [split; constructor|exact Hs].
  - by apply plt_pcolor_wf.
  - by apply plt_colorbar_wf.
  - by apply plt_subplots_wf.
  - unfold ax_pcolor. auto with pyplot.
  - by apply ax_tick_calls_wf.
  - by apply fig_colorbar_wf.
Qed.

(** The calls of [plots] as steps of [reachable]. *)
Section Reach.
Context (b : backend).

Lemma reach_regplot s : reachable b s -> reachable b (plt_regplot s).
Proof. intros H. by apply (reach_step b CRegplot s). Qed.
Lemma reach_boxplot s : reachable b s -> reachable b (plt_boxplot s).
Proof. intros H. by apply (reach_step b CBoxplot s). Qed.
Lemma reach_ylim q s : reachable b s -> reachable b (plt_ylim q s).
Proof. intros H. by apply (reach_step b (CYlim q) s). Qed.
Lemma reach_xticks r s : reachable b s -> reachable b (plt_xticks_rotation r s).
Proof. intros H. by apply (reach_step b (CXticks r) s). Qed.
Lemma reach_fig_colorbar m s : reachable b s -> reachable b (fig_colorbar m s).
Proof. intros H. by apply (reach_step b (CFigColorbar m) s). Qed.
Lemma reach_show s d s' : plt_show b s = (d, s') -> reachable b s -> reachable b s'.
Proof. intros E H. apply (reach_step b CShow s); [done|]. unfold exec. by rewrite E. Qed.
Lemma reach_pcolor t s s' m : plt_pcolor t s = (s', m) -> reachable b s -> reachable b s'.
Proof. intros E H. apply (reach_step b (CPcolor t) s); [done|]. unfold exec. by rewrite E. Qed.
Lemma reach_colorbar s s' : plt_colorbar s = Ok s' -> reachable b s -> reachable b s'.
Proof. intros E H. by apply (reach_step b CColorbar s). Qed.
Lemma reach_subplots s s' h : plt_subplots s = (s', h) -> reachable b s -> reachable b s'.
Proof. intros E H. apply (reach_step b CSubplots s); [done|]. unfold exec. by rewrite E. Qed.
Lemma reach_ax_pcolor h t s s' m : ax_pcolor h t s = (s', m) -> reachable b s -> reachable b s'.
Proof. intros E H. apply (reach_step b (CAxPcolor h t) s); [done|]. unfold exec. by rewrite E. Qed.
Lemma reach_ax_ticks h cs s s' : ax_tick_calls h cs s = Ok s' -> reachable b s -> reachable b s'.
Proof. intros E H. by apply (reach_step b (CAxTicks h cs) s). Qed.

End Reach.

Create HintDb reach.
#[export] Hint Resolve reach_init reach_regplot reach_boxplot reach_ylim reach_xticks reach_fig_colorbar
  reach_show reach_pcolor reach_colorbar reach_subplots reach_ax_pcolor reach_ax_ticks : reach.

(** Splits the pairs and results of a straight-line pyplot program. *)
Ltac split_steps :=
  repeat match goal with
  | |- context [let '(_, _) := ?e in _] => let E := fresh "E" in destruct e eqn:E
  | |- context [result_bind ?r _] => let E := fresh "E" in destruct r eqn:E; cbn [result_bind]; [|discriminate]
  end.

(** Lines 29-92 go through reachable states only. *)
Lemma plots_reachable b t ds s : plots b t = Ok (ds, s) -> reachable b s.
Proof. unfold plots. cbv zeta. split_steps. intros H. inversion H. subst. eauto 20 with reach. Qed.

(** A new figure's number is not the number of an open figure, so the
    calls on it leave the others alone. *)
Lemma fresh_figs s f : In f s -> num f <> next_num s.
Proof. intros Hin E. apply (next_num_fresh s). rewrite <- E. apply list_elem_of_In, in_map, Hin. Qed.

Lemma on_figure_snoc n g s f :
  (forall f', In f' s -> num f' <> n) -> on_figure n g (s ++ [f]) = s ++ [if num f =? n then g f else f].
Proof.
  intros Hs. unfold on_figure. rewrite map_app. f_equal. rewrite <- (map_id s) at 2. apply List.map_ext_in.
  intros f' Hin. by rewrite (proj2 (Nat.eqb_neq _ _) (Hs f' Hin)).
Qed.

Lemma find_snoc n s f :
  (forall f', In f' s -> num f' <> n) ->
  List.find (fun f => num f =? n) (s ++ [f]) = if num f =? n then Some f else None.
Proof.
  induction s as [|f0 s IH]; intros Hs; simpl; [by destruct (num f =? n)|].
  rewrite (proj2 (Nat.eqb_neq _ _) (Hs f0 (or_introl eq_refl))). apply IH. intros f' Hin. apply Hs. by right.
Qed.

(** ** Properties *)

(** C20: With a GUI backend, each [plt.show()] displays exactly one
    figure, number 1, and closes it: line 31 the regression plot with its
    [ylim] bottom 0, line 37 the box plot, line 74 the pivot's mesh with a
    colour bar, line 92 the labelled heatmap: the pivot's mesh, the tick
    state of [Heatmap.labelled_heatmap], the x labels rotated by 90
    degrees and a colour bar; no figure is left open. *)
Theorem plots_gui t tk :
  labelled_heatmap t = Ok tk ->
  plots Gui t = Ok (
    [(31%nat, [Fig 1 [PAxes [ARegplot] (Some 0) fresh_axes None None] (Some 0%nat)]);
     (37%nat, [Fig 1 [PAxes [ABoxplot] None fresh_axes None None] (Some 0%nat)]);
     (74%nat, [Fig 1 [PAxes [AMesh t] None fresh_axes None (Some 0%nat); colorbar_axes] (Some 0%nat)]);
     (92%nat, [Fig 1 [PAxes [AMesh t] None tk (Some 90%Z) None; colorbar_axes] (Some 0%nat)])], []).
Proof.
  intros Hl. unfold plots. cbn -[label_calls colorbar_axes ax_tick_calls].
  rewrite (tick_calls_fresh _ _ tk _ (PAxes [AMesh t] None fresh_axes None None)); [|reflexivity..|exact Hl].
  reflexivity.
Qed.

(** C39: With the non-interactive Agg backend nothing is displayed and the
    figures stay open, so [sns.regplot] (line 29), [sns.boxplot] (line 36)
    and [plt.pcolor] (line 72) all draw on the same axes of figure 1, whose
    [ylim] bottom is 0 and whose current image is the mesh; the labelled
    heatmap is figure 2, as with a GUI backend. *)
Theorem plots_agg t tk :
  labelled_heatmap t = Ok tk ->
  plots Agg t = Ok ([(31%nat, []); (37%nat, []); (74%nat, []); (92%nat, [])],
    [Fig 1 [PAxes [ARegplot; ABoxplot; AMesh t] (Some 0) fresh_axes None (Some 2%nat); colorbar_axes] (Some 0%nat);
     Fig 2 [PAxes [AMesh t] None tk (Some 90%Z) None; colorbar_axes] (Some 0%nat)]).
Proof.
  intros Hl. unfold plots. cbn -[label_calls colorbar_axes ax_tick_calls].
  rewrite (tick_calls_fresh _ _ tk _ (PAxes [AMesh t] None fresh_axes None None)); [|reflexivity..|exact Hl].
  reflexivity.
Qed.

(** C19: The invariant of pyplot's state: in every state a sequence of the
    script's kinds of calls reaches, whatever their arguments, figure
    numbers are distinct, a figure with axes has a current axes among
    them, and a current image is an artist of its axes; in particular
    after lines 29-92. *)
Theorem pyplot_wf_reachable b :
  (forall s, reachable b s -> pyplot_wf s) /\ (forall t ds s, plots b t = Ok (ds, s) -> pyplot_wf s).
Proof.
  assert (H : forall s, reachable b s -> pyplot_wf s).
  { induction 1 as [|c s s' _ IH E]; [split; constructor|exact (exec_wf b c s s' IH E)]. }
  split; [exact H|]. intros t ds s Hp. exact (H s (plots_reachable b t ds s Hp)).
Qed.

(** C40: Line 91 must pass the image: [axis.pcolor] (line 78) does not make
    its mesh pyplot's current image, so on the new figure of line 77
    [plt.colorbar()] would raise [RuntimeError], while
    [figure.colorbar(image)] adds the colour bar as the figure's second
    axes; this whatever figures were open before. *)
Theorem colorbar_needs_image s t :
  let '(s1, axis) := plt_subplots s in
  let '(s2, image) := ax_pcolor axis t s1 in
  plt_colorbar s2 = Err (RuntimeError colorbar_msg) /\
  axes_at (AxH (h_fig axis) 1) (fig_colorbar image s2) = Some colorbar_axes.
Proof.
  pose proof (fresh_figs s) as Hf. unfold plt_subplots, ax_pcolor, on_axes, axes_at. cbn -[colorbar_axes].
  rewrite !on_figure_snoc, find_snoc, Nat.eqb_refl by exact Hf. cbn -[colorbar_axes].
  unfold plt_colorbar, plt_gci, plt_gcf. rewrite last_snoc, removelast_last. split; [reflexivity|].
  unfold fig_colorbar. rewrite on_figure_snoc, find_snoc by exact Hf. cbn -[colorbar_axes].
  by rewrite !Nat.eqb_refl.
Qed.

(** ** Witnesses *)

Lemma plots_gui_witness :
  exists t tk, pivot rows_ex = Ok t /\ labelled_heatmap t = Ok tk /\
  plots Gui t = Ok (
    [(31%nat, [Fig 1 [PAxes [ARegplot] (Some 0) fresh_axes None None] (Some 0%nat)]);
     (37%nat, [Fig 1 [PAxes [ABoxplot] None fresh_axes None None] (Some 0%nat)]);
     (74%nat, [Fig 1 [PAxes [AMesh t] None fresh_axes None (Some 0%nat); colorbar_axes] (Some 0%nat)]);
     (92%nat, [Fig 1 [PAxes [AMesh t] None tk (Some 90%Z) None; colorbar_axes] (Some 0%nat)])], []).
Proof.
  eexists _, _. split; [vm_compute; reflexivity|]. split; [vm_compute; reflexivity|].
  apply plots_gui. vm_compute. reflexivity.
Defined.

Lemma plots_agg_witness :
  exists t tk, pivot rows_ex = Ok t /\ labelled_heatmap t = Ok tk /\
  plots Agg t = Ok ([(31%nat, []); (37%nat, []); (74%nat, []); (92%nat, [])],
    [Fig 1 [PAxes [ARegplot; ABoxplot; AMesh t] (Some 0) fresh_axes None (Some 2%nat); colorbar_axes] (Some 0%nat);
     Fig 2 [PAxes [AMesh t] None tk (Some 90%Z) None; colorbar_axes] (Some 0%nat)]).
Proof.
  eexists _, _. split; [vm_compute; reflexivity|]. split; [vm_compute; reflexivity|].
  apply plots_agg. vm_compute. reflexivity.
Defined.

Lemma pyplot_wf_reachable_witness :
  reachable Gui (plt_regplot []) /\ pyplot_wf (plt_regplot []).
Proof.
  assert (H : reachable Gui (plt_regplot [])) by (apply (reach_step Gui CRegplot []); [constructor|reflexivity]).
  split; [exact H|]. apply (proj1 (pyplot_wf_reachable Gui)). exact H.
Defined.

End Pyplot.
