(* ===== verification/Corr.v ===== *)
(** * Corr: [DataFrame.corr], as called at lines 20-26

    [df[[...]].corr()] with its defaults ([method='pearson'],
    [min_periods=1]) converts the selected columns to a float matrix and
    runs pandas' kernel [libalgos.nancorr]: for every pair of columns
    [(xi, yi)] with [yi <= xi] it walks the rows once, keeps only the rows
    where both cells are finite (pairwise deletion of NaN), updates the
    running means and sums of squares and products with Welford's method,
    and stores [covxy / sqrt(ssqdmx * ssqdmy)] in [result[xi, yi]] and
    [result[yi, xi]], or NaN when fewer than [min_periods] rows remain or the
    divisor is zero.

    The file proves that Welford's one-pass recurrence computes exactly the
    two-pass centred sums of [Moments], so each entry is the textbook
    coefficient of the complete pairs; that the matrix is that coefficient
    at every position, bounded by 1 in absolute value and symmetric; that
    the diagonal is 1 exactly on the columns with two distinct finite values
    (NaN otherwise); and that on finite columns [corr] agrees with
    [scipy.stats.pearsonr] of [Pearson], which the script also applies to
    [bore] and [price] (line 118). *)

From S2P Require Import Prelude Moments Pearson.
From Stdlib Require Import Reals Qreals.

Open Scope Q_scope.

Module Corr.

(** ** The kernel *)

(** The accumulators of the inner loop of [nancorr]. *)
Record welford := Welford {
  nobs : nat;
  meanx : Q;
  meany : Q;
  ssqdmx : Q;
  ssqdmy : Q;
  covxy : Q
}.

(** [nobs = ssqdmx = ssqdmy = covxy = meanx = meany = 0]. *)
Definition welford_init : welford := Welford 0 0 0 0 0 0.

(** One row where both cells are finite:
    [nobs += 1; dx = vx - meanx; dy = vy - meany;
     meanx += 1. / nobs * dx; meany += 1. / nobs * dy;
     ssqdmx += (vx - meanx) * dx; ssqdmy += (vy - meany) * dy;
     covxy += (vx - meanx) * dy]. *)
Definition welford_step (w : welford) (vx vy : Q) : welford :=
  let n := S (nobs w) in
  let dx := vx - meanx w in
  let dy := vy - meany w in
  let mx := meanx w + 1 / inject_Z (Z.of_nat n) * dx in
  let my := meany w + 1 / inject_Z (Z.of_nat n) * dy in
  Welford n mx my (ssqdmx w + (vx - mx) * dx) (ssqdmy w + (vy - my) * dy)
    (covxy w + (vx - mx) * dy).

Definition welford_run (ps : list (Q * Q)) : welford :=
  fold_left (fun w p => welford_step w (fst p) (snd p)) ps welford_init.

(** [if mask[i, xi] and mask[i, yi]]: the rows where both cells are finite,
    in row order. *)
Fixpoint masked_pairs (xs ys : list (option Q)) : list (Q * Q) :=
  match xs, ys with
  | Some x :: xs', Some y :: ys' => (x, y) :: masked_pairs xs' ys'
  | _ :: xs', _ :: ys' => masked_pairs xs' ys'
  | _, _ => []
  end.

(** An entry of the result: NaN, or [covxy / sqrt(divisor2)] given by the
    numerator and the square of the divisor. *)
Inductive corr_entry :=
| CNaN
| CVal (num divisor2 : Q).

(** The default [min_periods] of [DataFrame.corr]. *)
Definition minp : nat := 1.

(** [if nobs < minpv: NaN; else divisor = sqrt(ssqdmx * ssqdmy);
     if divisor != 0: covxy / divisor; else NaN].  The square root of a
    non-negative number is zero exactly when the number is, so the test is
    made on [ssqdmx * ssqdmy] ([sqrt_divisor_zero] below). *)
Definition nancorr_pair (xs ys : list (option Q)) : corr_entry :=
  let w := welford_run (masked_pairs xs ys) in
  if (nobs w <? minp)%nat then CNaN
  else if Qeq_bool (ssqdmx w * ssqdmy w) 0 then CNaN
  else CVal (covxy w) (ssqdmx w * ssqdmy w).

(** [for xi in range(K): for yi in range(xi + 1): ...
     result[xi, yi] = result[yi, xi] = ...]: the entry at [(i, j)] is the
    one the loop computes for [(max i j, min i j)]. *)
Definition nancorr (mat : list (list (option Q))) : list (list corr_entry) :=
  let K := length mat in
  let col i := nth i mat [] in
  map (fun xi => map (fun yi =>
         if (yi <=? xi)%nat then nancorr_pair (col xi) (col yi)
         else nancorr_pair (col yi) (col xi)) (seq 0 K)) (seq 0 K).

(** The frame [corr] returns: the column labels as index and columns, and
    the matrix. *)
Record corr_frame := CorrFrame {
  corr_labels : list string;
  corr_matrix : list (list corr_entry)
}.

(** [DataFrame.corr()] on numeric columns. *)
Definition df_corr (cols : list (string * list (option Q))) : corr_frame :=
  CorrFrame (map fst cols) (nancorr (map snd cols)).

(** The entry at [(i, j)], NaN out of range. *)
Definition entry (m : list (list corr_entry)) (i j : nat) : corr_entry :=
  nth j (nth i m []) CNaN.

(** The value of an entry as a real number; [None] is NaN. *)
Definition corr_value (e : corr_entry) : option R :=
  match e with
  | CNaN => None
  | CVal num d2 => Some (ratio num d2)
  end.

(** ** Reference: the two-pass coefficient of the complete pairs *)

Definition pearson_ref (ps : list (Q * Q)) : option R :=
  let d2 := comom fst fst ps * comom snd snd ps in
  if Qeq_bool d2 0 then None else Some (ratio (comom fst snd ps) d2).

(** The finite cells of a column. *)
Definition cells (x : list (option Q)) : list Q := omap (fun c => c) x.

(** The column has two distinct finite values. *)
Definition spread (x : list (option Q)) : bool :=
  existsb (fun a => existsb (fun b => negb (Qeq_bool a b)) (cells x)) (cells x).

(** ** Welford's recurrence *)

(** The invariant of the loop after the pairs [ps]: the count, the running
    means, and the centred sums written with the raw sums. *)
Definition welford_inv (w : welford) (ps : list (Q * Q)) : Prop :=
  nobs w = length ps /\
  meanx w == qsumf fst ps / qlen ps /\
  meany w == qsumf snd ps / qlen ps /\
  ssqdmx w == qsumf (fun p => fst p * fst p) ps - qsumf fst ps * qsumf fst ps / qlen ps /\
  ssqdmy w == qsumf (fun p => snd p * snd p) ps - qsumf snd ps * qsumf snd ps / qlen ps /\
  covxy w == qsumf (fun p => fst p * snd p) ps - qsumf fst ps * qsumf snd ps / qlen ps.

Lemma qsumf_snoc {A} (f : A -> Q) l x : qsumf f (l ++ [x]) == qsumf f l + f x.
Proof. rewrite qsumf_app. unfold qsumf. simpl. ring. Qed.

Lemma qlen_snoc {A} (l : list A) x : qlen (l ++ [x]) == qlen l + 1.
Proof. rewrite qlen_app. reflexivity. Qed.

Lemma qlen_succ {A} (l : list A) : inject_Z (Z.of_nat (S (length l))) == qlen l + 1.
Proof. unfold qlen. rewrite Nat2Z.inj_succ, <- Z.add_1_r, inject_Z_plus. reflexivity. Qed.

#[local] Hint Rewrite @qsumf_snoc @qlen_snoc : eda_sum.

Lemma welford_inv_init : welford_inv welford_init [].
Proof. repeat split; vm_compute; reflexivity. Qed.

Lemma welford_inv_one vx vy : welford_inv (welford_step welford_init vx vy) [(vx, vy)].
Proof. unfold welford_inv, welford_step, qsumf, qlen; simpl. repeat split; field. Qed.

Lemma welford_inv_step w ps vx vy :
  ps <> [] -> welford_inv w ps -> welford_inv (welford_step w vx vy) (ps ++ [(vx, vy)]).
Proof.
  intros Hne (Hn & Hmx & Hmy & Hsx & Hsy & Hc).
  pose proof (qlen_pos ps Hne) as HL.
  unfold welford_inv, welford_step; cbn [nobs meanx meany ssqdmx ssqdmy covxy fst snd].
  rewrite Hn, qlen_succ, Hmx, Hmy, Hsx, Hsy, Hc. autorewrite with eda_sum. cbn [fst snd].
  rewrite length_app. simpl length.
  repeat split; [lia|..]; field; split; intro; lra.
Qed.

Lemma welford_run_snoc ps p :
  welford_run (ps ++ [p]) = welford_step (welford_run ps) (fst p) (snd p).
Proof. unfold welford_run. now rewrite fold_left_app. Qed.

Lemma welford_run_inv ps : welford_inv (welford_run ps) ps.
Proof.
  induction ps as [|[vx vy] ps IH] using rev_ind; [apply welford_inv_init|].
  rewrite welford_run_snoc. destruct (nil_or_ne ps) as [->|Hne].
  - apply welford_inv_one.
  - now apply welford_inv_step.
Qed.

#[export] Instance Qeq_bool_proper : Proper (Qeq ==> Qeq ==> eq) Qeq_bool.
Proof. intros a b Hab c d Hcd. apply eq_true_iff_eq. rewrite !Qeq_bool_iff, Hab, Hcd. reflexivity. Qed.

(** The sums the loop leaves are the two-pass centred sums. *)
Lemma welford_comoments ps :
  nobs (welford_run ps) = length ps /\
  ssqdmx (welford_run ps) == comom fst fst ps /\ ssqdmy (welford_run ps) == comom snd snd ps /\
  covxy (welford_run ps) == comom fst snd ps.
Proof.
  destruct (welford_run_inv ps) as (Hn & _ & _ & Hsx & Hsy & Hc).
  destruct (nil_or_ne ps) as [->|Hne]; [repeat split; vm_compute; reflexivity|].
  rewrite !comom_expand by exact Hne. auto.
Qed.

(** The divisor test: [sqrt(d) != 0] exactly when [d != 0], for [d >= 0]. *)
Lemma sqrt_divisor_zero d : 0 <= d -> (sqrt (Q2R d) = 0)%R <-> d == 0.
Proof.
  intros Hd. apply Qle_Rle in Hd. rewrite RMicromega.Q2R_0 in Hd. split.
  - intros E. apply sqrt_eq_0 in E; [|exact Hd]. apply eqR_Qeq. now rewrite RMicromega.Q2R_0.
  - intros E. rewrite (Qeq_eqR _ _ E), RMicromega.Q2R_0. apply sqrt_0.
Qed.

(** The kernel gives the two-pass coefficient of the complete pairs. *)
Lemma nancorr_pair_ref xs ys : corr_value (nancorr_pair xs ys) = pearson_ref (masked_pairs xs ys).
Proof.
  unfold nancorr_pair, pearson_ref; cbv zeta. set (ps := masked_pairs xs ys).
  destruct (welford_comoments ps) as (Hn & Hx & Hy & Hc).
  destruct (Nat.ltb_spec (nobs (welford_run ps)) minp) as [Hlt|_].
  - unfold minp in Hlt. rewrite Hn in Hlt. destruct ps; [reflexivity|simpl in Hlt; lia].
  - destruct (Qeq_bool (ssqdmx _ * ssqdmy _) 0) eqn:E; rewrite Hx, Hy in E; rewrite E;
      [reflexivity|]. simpl. now rewrite Hx, Hy, Hc.
Qed.

Lemma masked_pairs_swap xs ys :
  masked_pairs ys xs = map (fun p => (snd p, fst p)) (masked_pairs xs ys).
Proof.
  revert ys. induction xs as [|[x|] xs IH]; intros [|[y|] ys]; simpl; rewrite ?IH; reflexivity.
Qed.

Lemma pearson_ref_swap ps : pearson_ref (map (fun p => (snd p, fst p)) ps) = pearson_ref ps.
Proof.
  unfold pearson_ref. destruct (Pearson.comom_swap_sq ps) as [-> ->].
  assert (Hd : comom snd snd ps * comom fst fst ps == comom fst fst ps * comom snd snd ps) by ring.
  rewrite Hd. destruct (Qeq_bool _ 0); [reflexivity|].
  now rewrite Hd, (Pearson.comom_swap_fst_snd ps).
Qed.

Lemma pearson_ref_bounded ps r : pearson_ref ps = Some r -> (-1 <= r <= 1)%R.
Proof.
  unfold pearson_ref. destruct (Qeq_bool _ 0) eqn:E; [discriminate|]. intros [= <-].
  pose proof (comom_nonneg fst ps). pose proof (comom_nonneg snd ps).
  apply ratio_bounded; [|apply comom_cauchy_schwarz].
  assert (~ comom fst fst ps * comom snd snd ps == 0) by (intros Hz; now rewrite Hz in E).
  nra.
Qed.

Lemma nth_map_seq0 {A} (f : nat -> A) K i d : (i < K)%nat -> nth i (map f (seq 0 K)) d = f i.
Proof.
  intros H. rewrite (nth_indep _ d (f 0%nat)) by (rewrite length_map, length_seq; lia).
  now rewrite map_nth, seq_nth by lia.
Qed.

Lemma nth_map_seq0_out {A} (f : nat -> A) K i d : (K <= i)%nat -> nth i (map f (seq 0 K)) d = d.
Proof. intros H. apply nth_overflow. now rewrite length_map, length_seq. Qed.

Lemma entry_out mat i j :
  (length mat <= i \/ length mat <= j)%nat -> entry (nancorr mat) i j = CNaN.
Proof.
  intros H. unfold entry, nancorr. destruct (Nat.ltb_spec i (length mat)).
  - rewrite nth_map_seq0 by lia. apply nth_map_seq0_out. lia.
  - rewrite nth_map_seq0_out by lia. now destruct j.
Qed.

Lemma entry_value mat i j :
  (i < length mat)%nat -> (j < length mat)%nat ->
  corr_value (entry (nancorr mat) i j) = pearson_ref (masked_pairs (nth i mat []) (nth j mat [])).
Proof.
  intros Hi Hj. unfold entry, nancorr. rewrite !nth_map_seq0 by lia.
  destruct (Nat.leb_spec j i); rewrite nancorr_pair_ref; [reflexivity|].
  now rewrite masked_pairs_swap, pearson_ref_swap.
Qed.

(** ** The diagonal *)

Lemma masked_pairs_diag x : masked_pairs x x = map (fun c => (c, c)) (cells x).
Proof. induction x as [|[c|] x IH]; simpl; rewrite ?IH; reflexivity. Qed.

Lemma spread_true x : spread x = true -> exists a b, In a (cells x) /\ In b (cells x) /\ ~ a == b.
Proof.
  unfold spread. intros (a & Ha & Hb)%existsb_exists. apply existsb_exists in Hb as (b & Hb & Hne).
  exists a, b. repeat split; auto. intros E. apply Qeq_bool_iff in E. now rewrite E in Hne.
Qed.

Lemma spread_false x : spread x = false -> forall a b, In a (cells x) -> In b (cells x) -> a == b.
Proof.
  unfold spread. intros Hs a b Ha Hb. destruct (Qeq_dec a b) as [|Hne]; [assumption|].
  exfalso. enough (existsb (fun a => existsb (fun b => negb (Qeq_bool a b)) (cells x)) (cells x) = true)
    by congruence.
  apply existsb_exists. exists a. split; [exact Ha|]. apply existsb_exists. exists b. split; [exact Hb|].
  destruct (Qeq_bool a b) eqn:E; [|reflexivity]. apply Qeq_bool_iff in E. contradiction.
Qed.

Lemma pearson_ref_diag l :
  pearson_ref (map (fun c => (c, c)) l) =
  let s := comom (fun c => c) (fun c => c) l in if Qeq_bool (s * s) 0 then None else Some 1%R.
Proof.
  unfold pearson_ref. rewrite !comom_map. cbv zeta; cbn [fst snd].
  set (s := comom (fun c => c) (fun c => c) l).
  destruct (Qeq_bool (s * s) 0) eqn:E; [reflexivity|]. f_equal.
  rewrite Pearson.ratio_square. pose proof (comom_nonneg (fun c => c) l) as Hs; fold s in Hs.
  assert (Hp : ~ s == 0) by (intros H; now rewrite H in E).
  assert (Hr : (0 < Q2R s)%R) by (rewrite <- RMicromega.Q2R_0; apply Qlt_Rlt; lra).
  rewrite Rabs_right by lra. field. lra.
Qed.

Lemma spread_comom x :
  Qeq_bool (comom (fun c => c) (fun c => c) (cells x) * comom (fun c => c) (fun c => c) (cells x)) 0
  = negb (spread x).
Proof.
  set (s := comom (fun c => c) (fun c => c) (cells x)).
  destruct (spread x) eqn:Hs; simpl.
  - apply not_true_iff_false. intros Hz%Qeq_bool_iff. apply Qmult_integral in Hz as [Hz|Hz];
      destruct (spread_true x Hs) as (a & b & Ha & Hb & Hne);
      pose proof (comom_pos (fun c => c) (cells x) a b Ha Hb Hne) as Hp; fold s in Hp; lra.
  - destruct (cells x) as [|c l] eqn:Ec; [reflexivity|].
    assert (Hz : s == 0).
    { apply (comom_const_zero _ _ c). intros a Ha. apply (spread_false x Hs); rewrite Ec; auto.
      now left. }
    apply Qeq_bool_iff. rewrite Hz. reflexivity.
Qed.

(** ** Two finite columns: [corr] and [pearsonr] *)

Lemma masked_pairs_some xs ys : masked_pairs (map Some xs) (map Some ys) = combine xs ys.
Proof. revert ys. induction xs as [|x xs IH]; intros [|y ys]; simpl; rewrite ?IH; reflexivity. Qed.

Lemma two_not_constant x0 x1 : Pearson.is_constant [Some x0; Some x1] = false -> ~ x0 == x1.
Proof.
  intros C H. apply (Pearson.not_constant_witness [x0; x1]) in C as (a & b & Ha & Hb & Hne).
  apply Hne. destruct Ha as [<-|[<-|[]]], Hb as [<-|[<-|[]]]; rewrite ?H; reflexivity.
Qed.

Lemma comom_pos_combine_fst (xs ys : list Q) :
  length xs = length ys -> Pearson.is_constant (map Some xs) = false -> 0 < comom fst fst (combine xs ys).
Proof.
  intros Hl C. apply Pearson.comom_pos_of_values. rewrite Pearson.map_fst_combine by exact Hl.
  now apply Pearson.not_constant_witness.
Qed.

Lemma comom_pos_combine_snd (xs ys : list Q) :
  length xs = length ys -> Pearson.is_constant (map Some ys) = false -> 0 < comom snd snd (combine xs ys).
Proof.
  intros Hl C. apply Pearson.comom_pos_of_values. rewrite Pearson.map_snd_combine by exact Hl.
  now apply Pearson.not_constant_witness.
Qed.

Lemma comom_zero_combine_fst (xs ys : list Q) :
  length xs = length ys -> Pearson.is_constant (map Some xs) = true -> comom fst fst (combine xs ys) == 0.
Proof.
  intros Hl C. rewrite <- (Pearson.map_fst_combine xs ys Hl) in C.
  rewrite Pearson.is_constant_some in C. destruct (combine xs ys) as [|p ps] eqn:E; [reflexivity|].
  apply (comom_const_zero _ _ (fst p)). intros q Hq. apply C; apply in_map; [exact Hq|now left].
Qed.

Lemma comom_zero_combine_snd (xs ys : list Q) :
  length xs = length ys -> Pearson.is_constant (map Some ys) = true -> comom snd snd (combine xs ys) == 0.
Proof.
  intros Hl C. rewrite <- (Pearson.map_snd_combine xs ys Hl) in C.
  rewrite Pearson.is_constant_some in C. destruct (combine xs ys) as [|p ps] eqn:E; [reflexivity|].
  apply (comom_const_zero _ _ (snd p)). intros q Hq. apply C; apply in_map; [exact Hq|now left].
Qed.

(** On non-constant finite columns, scipy's statistic is the reference. *)
Lemma pearson_finite_ref xs ys :
  length xs = length ys -> Pearson.is_constant (map Some xs) = false ->
  Pearson.is_constant (map Some ys) = false ->
  Pearson.statistic (Pearson.pearson_finite xs ys) = pearson_ref (combine xs ys).
Proof.
  intros Hl Cx Cy.
  pose proof (comom_pos_combine_fst xs ys Hl Cx) as Hsx.
  pose proof (comom_pos_combine_snd xs ys Hl Cy) as Hsy.
  unfold pearson_ref. destruct (Qeq_bool _ 0) eqn:E.
  { apply Qeq_bool_iff in E. nra. }
  unfold Pearson.pearson_finite. destruct (Pearson.pearson_two xs ys) eqn:Et.
  - destruct xs as [|x0 [|x1 [|x2 xs]]], ys as [|y0 [|y1 [|y2 ys]]]; try discriminate Et.
    injection Et as <-. simpl. f_equal.
    apply Pearson.two_point_ratio; apply two_not_constant; assumption.
  - simpl. f_equal. rewrite Pearson.gen_value by lra.
    apply clip_id, ratio_bounded; [nra|apply comom_cauchy_schwarz].
Qed.

(** A constant column makes both NaN. *)
Lemma pearson_ref_constant xs ys :
  length xs = length ys ->
  Pearson.is_constant (map Some xs) || Pearson.is_constant (map Some ys) = true ->
  pearson_ref (combine xs ys) = None.
Proof.
  intros Hl C. unfold pearson_ref. replace (Qeq_bool _ 0) with true; [reflexivity|].
  symmetry. apply Qeq_bool_iff. apply orb_true_iff in C as [C|C].
  - rewrite (comom_zero_combine_fst xs ys Hl C). ring.
  - rewrite (comom_zero_combine_snd xs ys Hl C). ring.
Qed.

(** ** Properties *)

(** C3: Welford's one-pass loop of [nancorr] computes exactly the two-pass
    quantities: after the complete pairs [ps] it has counted them, its
    running means are the means, and its three accumulators are the centred
    sums of squares and of products. *)
Theorem welford_exact ps :
  nobs (welford_run ps) = length ps /\
  meanx (welford_run ps) == meanf fst ps /\ meany (welford_run ps) == meanf snd ps /\
  ssqdmx (welford_run ps) == comom fst fst ps /\ ssqdmy (welford_run ps) == comom snd snd ps /\
  covxy (welford_run ps) == comom fst snd ps.
Proof.
  destruct (welford_run_inv ps) as (_ & Hmx & Hmy & _).
  destruct (welford_comoments ps) as (Hn & Hsx & Hsy & Hc). unfold meanf. now repeat split.
Qed.

(** C9: every entry [(i, j)] of [df.corr()] is the Pearson coefficient of
    the rows where columns [i] and [j] are both finite (NaN when one of them
    is constant there, or no row is left). *)
Theorem nancorr_entry_ref mat i j :
  (i < length mat)%nat -> (j < length mat)%nat ->
  corr_value (entry (nancorr mat) i j) = pearson_ref (masked_pairs (nth i mat []) (nth j mat [])).
Proof. apply entry_value. Qed.

(** The correlation matrix is symmetric: the loop fills [result[xi, yi]]
    and [result[yi, xi]] with the same value. *)
Theorem corr_symmetric mat i j : entry (nancorr mat) i j = entry (nancorr mat) j i.
Proof.
  destruct (Nat.ltb_spec i (length mat)), (Nat.ltb_spec j (length mat));
    try (rewrite !entry_out by lia; reflexivity).
  unfold entry, nancorr. rewrite !nth_map_seq0 by lia.
  destruct (Nat.leb_spec j i), (Nat.leb_spec i j); try reflexivity; try lia.
  now replace j with i by lia.
Qed.

(** Every value of the matrix lies in [-1, 1]. *)
Theorem corr_bounded mat i j r : corr_value (entry (nancorr mat) i j) = Some r -> (-1 <= r <= 1)%R.
Proof.
  destruct (Nat.ltb_spec i (length mat)), (Nat.ltb_spec j (length mat));
    try (rewrite entry_out by lia; discriminate).
  rewrite entry_value by assumption. apply pearson_ref_bounded.
Qed.

(** C25: the diagonal is 1 on a column with two distinct finite values and
    NaN on any other column (a constant or all-NaN column): the diagonal is
    not 1 everywhere. *)
Theorem corr_diag mat i :
  (i < length mat)%nat ->
  corr_value (entry (nancorr mat) i i) = if spread (nth i mat []) then Some 1%R else None.
Proof.
  intros Hi. rewrite entry_value by assumption.
  rewrite masked_pairs_diag, pearson_ref_diag. cbv zeta.
  rewrite spread_comom. now destruct (spread _).
Qed.

(** [corr] and [pearsonr] on two finite columns (shared with [Script]). *)
Lemma nancorr_pair_pearsonr xs ys :
  length xs = length ys -> (2 <= length xs)%nat ->
  result_map Pearson.statistic (Pearson.pearsonr (map Some xs) (map Some ys)) =
  Ok (corr_value (nancorr_pair (map Some xs) (map Some ys))).
Proof.
  intros Hl H2. rewrite nancorr_pair_ref, masked_pairs_some. unfold Pearson.pearsonr.
  rewrite !length_map, Hl, Nat.eqb_refl. simpl negb. cbv iota.
  replace (length ys <? 2)%nat with false by (symmetry; apply Nat.ltb_ge; lia).
  destruct (Pearson.is_constant (map Some xs) || Pearson.is_constant (map Some ys)) eqn:C.
  - simpl. now rewrite pearson_ref_constant.
  - apply orb_false_iff in C as [Cx Cy]. rewrite !finite_values_map_some. simpl.
    now rewrite pearson_finite_ref.
Qed.

(** C26: on two finite columns of the same length (at least 2), [corr] and
    [scipy.stats.pearsonr] give the same coefficient, NaN included: lines 26
    and 118 compute the same number for [bore] and [price] when neither has
    a missing cell. *)
Theorem corr_pearsonr_agree xs ys :
  length xs = length ys -> (2 <= length xs)%nat ->
  result_map Pearson.statistic (Pearson.pearsonr (map Some xs) (map Some ys)) =
  Ok (corr_value (nancorr_pair (map Some xs) (map Some ys))).
Proof. apply nancorr_pair_pearsonr. Qed.

(** ** Witnesses *)

(** Three columns: one with a NaN cell, one finite, one constant. *)
Definition mat_ex : list (list (option Q)) :=
  [[Some 1; Some 2; Some 3; None]; [Some 1; Some 3; Some 2; Some 5]; [Some 4; Some 4; None; Some 4]].

Lemma nancorr_entry_ref_witness :
  corr_value (entry (nancorr mat_ex) 0 1) = pearson_ref (masked_pairs (nth 0 mat_ex []) (nth 1 mat_ex [])).
Proof. apply nancorr_entry_ref; simpl; lia. Defined.

Lemma corr_bounded_witness :
  exists r, corr_value (entry (nancorr mat_ex) 0 1) = Some r /\ (-1 <= r <= 1)%R.
Proof. eexists. split; [reflexivity|]. apply (corr_bounded mat_ex 0 1). reflexivity. Defined.

Lemma corr_diag_witness :
  corr_value (entry (nancorr mat_ex) 0 0) = Some 1%R /\ corr_value (entry (nancorr mat_ex) 2 2) = None.
Proof. split; [apply (corr_diag mat_ex 0)|apply (corr_diag mat_ex 2)]; simpl; lia. Defined.

Lemma corr_pearsonr_agree_witness :
  result_map Pearson.statistic (Pearson.pearsonr (map Some [1; 2; 3]) (map Some [1; 3; 2])) =
  Ok (corr_value (nancorr_pair (map Some [1; 2; 3]) (map Some [1; 3; 2]))).
Proof. apply corr_pearsonr_agree; simpl; lia. Defined.

(** With a NaN cell they differ: [corr] drops the row, [pearsonr] raises
    [ValueError] (four observations, neither column constant). *)
Example corr_pearsonr_nan_ex :
  Pearson.pearsonr (nth 0 mat_ex []) (nth 1 mat_ex []) = Err (ValueError Pearson.nan_msg) /\
  corr_value (nancorr_pair (nth 0 mat_ex []) (nth 1 mat_ex [])) <> None.
Proof. split; [reflexivity|discriminate]. Qed.

End Corr.
