(* ===== verification/Frame.v ===== *)
(** * Frame: the loaded table and the column selections of the script

    [pd.read_csv] (line 11) gives a [DataFrame]; the script reads it only
    through [df["c"]] (a column, lines 48 and 99-125) and [df[[...]]]
    (a sub-frame, lines 20, 26, 58, 68, 131).  The frame is a list of named
    columns; a numeric column holds [option Q] cells ([None] is NaN), a text
    column holds strings (the CSV's [object] columns [drive-wheels] and
    [body-style] have no missing cell).  Selection raises pandas'
    [KeyError]s, and [DataFrame.corr] on a frame converts it to a float
    matrix first, which raises [ValueError] on a text cell. *)

From S2P Require Import Prelude Moments Pearson Corr.

Open Scope Q_scope.

Module Frame.

Inductive column :=
| NumCol (xs : list (option Q))
| StrCol (xs : list string).

Definition frame := list (string * column).

Definition col_length (c : column) : nat :=
  match c with NumCol xs => length xs | StrCol xs => length xs end.

Definition nrows (df : frame) : nat :=
  match df with [] => 0 | (_, c) :: _ => col_length c end.

(** Distinct column names, columns of equal length. *)
Definition frame_wf (df : frame) : bool :=
  bool_decide (NoDup (map fst df)) && forallb (fun p => col_length p.2 =? nrows df) df.

(** The column labelled [c] (the first one, names being distinct). *)
Definition lookup_col (df : frame) (c : string) : option column :=
  option_map snd (List.find (fun p => bool_decide (p.1 = c)) df).

Definition has_col (df : frame) (c : string) : bool :=
  match lookup_col df c with Some _ => true | None => false end.

(** [df["c"]]: [KeyError('c')] when there is no such column. *)
Definition get_column (df : frame) (c : string) : result column :=
  match lookup_col df c with
  | Some col => Ok col
  | None => Err (KeyError c)
  end.

(** [repr] of a list of labels: [['a', 'b']]. *)
Definition quote (c : string) : string := "'" +:+ c +:+ "'".

Fixpoint join (sep : string) (l : list string) : string :=
  match l with
  | [] => ""
  | [s] => s
  | s :: l' => s +:+ sep +:+ join sep l'
  end.

Definition list_repr (cs : list string) : string := "[" +:+ join ", " (map quote cs) +:+ "]".

(** [Index.unique()]: first occurrences, in order. *)
Fixpoint dedup (cs : list string) : list string :=
  match cs with
  | [] => []
  | c :: cs' => c :: List.filter (fun d => negb (bool_decide (d = c))) (dedup cs')
  end.

(** The columns named [cs], in that order (labels absent from [df] are
    skipped; [select] only uses it when there is none). *)
Definition pick (df : frame) (cs : list string) : frame :=
  omap (fun c => option_map (fun col => (c, col)) (lookup_col df c)) cs.

(** [df[[c1, ..., cn]]]: pandas' [_raise_if_missing] raises
    [KeyError("None of [Index([...], dtype='object')] are in the [columns]")]
    when no label is found and [KeyError("[...] not in index")] with the
    missing labels when some are; otherwise the columns in the order asked. *)
Definition select (df : frame) (cs : list string) : result frame :=
  let missing := List.filter (fun c => negb (has_col df c)) cs in
  match missing with
  | [] => Ok (pick df cs)
  | _ =>
      if length missing =? length cs then
        Err (KeyError ("None of [Index(" +:+ list_repr cs +:+ ", dtype='object')] are in the [columns]"))
      else Err (KeyError (list_repr (dedup missing) +:+ " not in index"))
  end.

(** The dtype an operation needs.  A text column where a float one is
    expected makes the library call raise a [TypeError] (numpy's ufuncs,
    pandas' [mean] of [object] data); the script's table never has one. *)
Definition as_num (c : string) (col : column) : result (list (option Q)) :=
  match col with
  | NumCol xs => Ok xs
  | StrCol _ => Err (TypeError ("column " +:+ quote c +:+ " is not numeric"))
  end.

Definition as_str (c : string) (col : column) : result (list string) :=
  match col with
  | StrCol xs => Ok xs
  | NumCol _ => Err (TypeError ("column " +:+ quote c +:+ " is not a text column"))
  end.

Definition num_column (df : frame) (c : string) : result (list (option Q)) :=
  let* col := get_column df c in as_num c col.

Definition str_column (df : frame) (c : string) : result (list string) :=
  let* col := get_column df c in as_str c col.

(** [DataFrame.corr()] (pandas 2, [numeric_only=False]):
    [self.to_numpy(dtype=float, na_value=np.nan)] raises
    [ValueError("could not convert string to float: 'v'")] on the first
    text cell (in column order, then row order), then [nancorr]. *)
Fixpoint first_text (df : frame) : option string :=
  match df with
  | [] => None
  | (_, StrCol (s :: _)) :: _ => Some s
  | _ :: df' => first_text df'
  end.

(** A column as floats (only reached for text columns with no cell). *)
Definition float_of (col : column) : list (option Q) :=
  match col with NumCol xs => xs | StrCol xs => map (fun _ => None) xs end.

Definition float_columns (df : frame) : list (list (option Q)) := map (fun p => float_of p.2) df.

Definition frame_corr (df : frame) : result Corr.corr_frame :=
  match first_text df with
  | Some s => Err (ValueError ("could not convert string to float: " +:+ quote s))
  | None => Ok (Corr.CorrFrame (map fst df) (Corr.nancorr (float_columns df)))
  end.

(** ** Lemmas *)

Lemma lookup_col_in df c col : lookup_col df c = Some col -> In (c, col) df.
Proof.
  unfold lookup_col. destruct (List.find _ df) as [[c' col']|] eqn:E; [|discriminate].
  intros [= <-]. apply find_some in E as [Hin E]. apply bool_decide_eq_true in E. simpl in E. now subst.
Qed.

Lemma has_col_in df c : has_col df c = true <-> In c (map fst df).
Proof.
  unfold has_col, lookup_col. split.
  - destruct (List.find _ df) as [p|] eqn:E; [|discriminate]. intros _.
    apply find_some in E as [Hin E]. apply bool_decide_eq_true in E. apply in_map_iff. eauto.
  - intros (p & <- & Hp)%in_map_iff.
    destruct (List.find (fun q => bool_decide (q.1 = p.1)) df) eqn:E; [reflexivity|].
    exfalso. eapply find_none in E; [|exact Hp]. simpl in E. now apply bool_decide_eq_false in E.
Qed.

Lemma lookup_col_some df c : In c (map fst df) -> exists col, lookup_col df c = Some col.
Proof.
  intros H. apply has_col_in in H. unfold has_col in H.
  destruct (lookup_col df c); [eauto|discriminate].
Qed.

Lemma missing_nil df cs :
  List.filter (fun c => negb (has_col df c)) cs = [] <-> forall c, In c cs -> In c (map fst df).
Proof.
  induction cs as [|c cs IH]; simpl; [split; [contradiction|reflexivity]|].
  destruct (has_col df c) eqn:E; simpl.
  - rewrite IH. apply has_col_in in E. split; [intros H d [<-|Hd]; auto|auto].
  - split; [discriminate|]. intros H. exfalso. rewrite <- not_true_iff_false, has_col_in in E. auto.
Qed.

Lemma pick_spec df cs :
  (forall c, In c cs -> In c (map fst df)) ->
  map fst (pick df cs) = cs /\ (forall c col, In (c, col) (pick df cs) -> lookup_col df c = Some col).
Proof.
  unfold pick. induction cs as [|c cs IH]; intros Hp; simpl; [split; [reflexivity|contradiction]|].
  destruct (lookup_col_some df c (Hp c (or_introl eq_refl))) as [col E]. rewrite E. simpl.
  destruct (IH (fun d Hd => Hp d (or_intror Hd))) as [IH1 IH2]. split; [f_equal; exact IH1|].
  intros c' col' [[= <- <-]|H]; [exact E|exact (IH2 c' col' H)].
Qed.

Lemma frame_wf_length df c col : frame_wf df = true -> In (c, col) df -> col_length col = nrows df.
Proof.
  unfold frame_wf. intros [_ Hl]%andb_prop Hin. rewrite forallb_forall in Hl.
  apply Nat.eqb_eq, (Hl (c, col) Hin).
Qed.

Lemma num_column_lookup df c xs : num_column df c = Ok xs -> lookup_col df c = Some (NumCol xs).
Proof.
  unfold num_column, get_column. destruct (lookup_col df c) as [[ys|ys]|]; simpl; try discriminate.
  now intros [= ->].
Qed.

Lemma pick_cons df c cs col :
  lookup_col df c = Some col -> pick df (c :: cs) = (c, col) :: pick df cs.
Proof. intros E. unfold pick. simpl. now rewrite E. Qed.

Lemma first_text_pick df cs :
  (forall c, In c cs -> exists xs, num_column df c = Ok xs) -> first_text (pick df cs) = None.
Proof.
  induction cs as [|c cs IH]; intros Hn; [reflexivity|].
  destruct (Hn c (or_introl eq_refl)) as [xs Hx].
  rewrite (pick_cons df c cs _ (num_column_lookup df c xs Hx)). simpl.
  apply IH. intros d Hd. apply Hn. now right.
Qed.

Lemma nth_float_pick df cs i xs :
  (forall c, In c cs -> In c (map fst df)) -> (i < length cs)%nat ->
  num_column df (nth i cs "") = Ok xs -> nth i (float_columns (pick df cs)) [] = xs.
Proof.
  revert i. induction cs as [|c cs IH]; intros i Hp Hi Hx; simpl in Hi; [lia|].
  destruct (lookup_col_some df c (Hp c (or_introl eq_refl))) as [col E].
  rewrite (pick_cons df c cs col E). destruct i as [|i]; simpl in Hx |- *.
  - apply num_column_lookup in Hx. rewrite E in Hx. now injection Hx as ->.
  - apply IH; auto with arith. intros d Hd. apply Hp. now right.
Qed.

Lemma lookup_col_cons c col df d :
  lookup_col ((c, col) :: df) d = if bool_decide (c = d) then Some col else lookup_col df d.
Proof. unfold lookup_col. simpl. now case_bool_decide. Qed.

(** Reading a picked column reads the column of the frame. *)
Lemma lookup_pick df cs c :
  (forall d, In d cs -> In d (map fst df)) -> In c cs -> lookup_col (pick df cs) c = lookup_col df c.
Proof.
  induction cs as [|d cs IH]; intros Hp Hc; [contradiction|].
  destruct (lookup_col_some df d (Hp d (or_introl eq_refl))) as [col E].
  rewrite (pick_cons df d cs col E), lookup_col_cons. case_bool_decide as Hd; [now subst|].
  apply IH; [intros e He; apply Hp; now right|]. destruct Hc as [->|Hc]; [contradiction|exact Hc].
Qed.

Lemma select_present df cs f : select df cs = Ok f -> forall c, In c cs -> In c (map fst df).
Proof.
  unfold select. destruct (List.filter _ cs) eqn:E; [|destruct (_ =? _); discriminate].
  intros _. now apply missing_nil.
Qed.

Lemma select_pick df cs f : select df cs = Ok f -> f = pick df cs.
Proof.
  unfold select. destruct (List.filter _ cs); [|destruct (_ =? _); discriminate]. now intros [= <-].
Qed.

Lemma select_all df cs : (forall c, In c cs -> In c (map fst df)) -> select df cs = Ok (pick df cs).
Proof. intros Hp. unfold select. now rewrite (proj2 (missing_nil df cs) Hp). Qed.

Lemma str_column_lookup df c xs : str_column df c = Ok xs -> lookup_col df c = Some (StrCol xs).
Proof.
  unfold str_column, get_column. destruct (lookup_col df c) as [[ys|ys]|]; simpl; try discriminate.
  now intros [= ->].
Qed.

Lemma column_present df c col : lookup_col df c = Some col -> In c (map fst df).
Proof. intros E. apply in_map_iff. exists (c, col). split; [reflexivity|]. now apply lookup_col_in. Qed.

(** ** Properties *)

(** [df[[c1, ..., cn]]] succeeds when every label names a column; the
    sub-frame then has exactly the labels asked, in that order, each with
    the column of [df]. *)
Theorem select_spec df cs :
  (forall c, In c cs -> In c (map fst df)) ->
  exists f, select df cs = Ok f /\ map fst f = cs /\ (forall c col, In (c, col) f -> lookup_col df c = Some col).
Proof.
  intros Hp. unfold select. rewrite (proj2 (missing_nil df cs) Hp). eexists. split; [reflexivity|].
  now apply pick_spec.
Qed.

(** [df[[c1, ..., cn]]] raises exactly when some label names no column,
    and what it raises is a [KeyError]. *)
Theorem select_error df cs :
  ((exists msg, select df cs = Err (KeyError msg)) <-> exists c, In c cs /\ ~ In c (map fst df)) /\
  (forall e, select df cs = Err e -> exists msg, e = KeyError msg).
Proof.
  unfold select. destruct (List.filter _ cs) as [|m ms] eqn:E.
  - split; [|discriminate]. split; [intros [? [=]]|]. intros (c & Hc & Hn).
    exfalso. apply Hn, (proj1 (missing_nil df cs) E c Hc).
  - assert (Hm : exists c, In c cs /\ ~ In c (map fst df)).
    { assert (Hin : In m (List.filter (fun c => negb (has_col df c)) cs)) by (rewrite E; now left).
      apply filter_In in Hin as [Hin Hn]. exists m. split; [exact Hin|].
      rewrite <- has_col_in. now destruct (has_col df m). }
    destruct (_ =? _); (split; [split; [intros _; exact Hm|intros _; eauto]|intros e [= <-]; eauto]).
Qed.

(** Selecting distinct labels from a well-formed frame (distinct
    names, columns of one length) gives a well-formed frame. *)
Lemma select_wf df cs f :
  frame_wf df = true -> NoDup cs -> select df cs = Ok f -> frame_wf f = true.
Proof.
  intros Hwf Hnd Hs. unfold select in Hs.
  destruct (List.filter _ cs) eqn:E; [|destruct (_ =? _); discriminate].
  injection Hs as <-. destruct (pick_spec df cs (proj1 (missing_nil df cs) E)) as [Hf Hc].
  set (f := pick df cs) in *.
  assert (Hl : forall c col, In (c, col) f -> col_length col = nrows df).
  { intros c col Hin. apply (frame_wf_length df c col Hwf), lookup_col_in, Hc, Hin. }
  unfold frame_wf. apply andb_true_intro. split; [apply bool_decide_eq_true; now rewrite Hf|].
  apply forallb_forall. intros [c col] Hin. apply Nat.eqb_eq. simpl.
  destruct f as [|[c0 col0] f'] eqn:Ef; [contradiction|]. simpl.
  rewrite (Hl c col Hin), (Hl c0 col0 (or_introl eq_refl)). reflexivity.
Qed.

(** The entries of [corr] on a numeric selection (shared with [Script]). *)
Lemma select_corr_entries df cs f :
  select df cs = Ok f -> (forall c, In c cs -> exists xs, num_column df c = Ok xs) ->
  exists cf, frame_corr f = Ok cf /\ Corr.corr_labels cf = cs /\
  forall i j xs ys, (i < length cs)%nat -> (j < length cs)%nat ->
    num_column df (nth i cs "") = Ok xs -> num_column df (nth j cs "") = Ok ys ->
    Corr.corr_value (Corr.entry (Corr.corr_matrix cf) i j) = Corr.pearson_ref (Corr.masked_pairs xs ys).
Proof.
  intros Hs Hn. unfold select in Hs.
  destruct (List.filter _ cs) eqn:E; [|destruct (_ =? _); discriminate]. injection Hs as <-.
  pose proof (proj1 (missing_nil df cs) E) as Hp. destruct (pick_spec df cs Hp) as [Hf _].
  unfold frame_corr. rewrite first_text_pick by exact Hn. eexists. split; [reflexivity|].
  split; [exact Hf|]. intros i j xs ys Hi Hj Hx Hy. simpl.
  assert (Hl : length (float_columns (pick df cs)) = length cs)
    by (unfold float_columns; rewrite length_map, <- (length_map fst (pick df cs)), Hf; reflexivity).
  rewrite Corr.entry_value by lia.
  now rewrite (nth_float_pick df cs i xs), (nth_float_pick df cs j ys).
Qed.

(** [df[[c1, ..., cn]].corr()] (lines 20-22, 26) on numeric columns
    never raises; its labels are [c1, ..., cn] and its entry [(i, j)] is
    the Pearson coefficient of the complete pairs of columns [ci] and
    [cj] of [df]. *)
Theorem select_corr df cs f :
  select df cs = Ok f -> (forall c, In c cs -> exists xs, num_column df c = Ok xs) ->
  exists cf, frame_corr f = Ok cf /\ Corr.corr_labels cf = cs /\
  forall i j xs ys, (i < length cs)%nat -> (j < length cs)%nat ->
    num_column df (nth i cs "") = Ok xs -> num_column df (nth j cs "") = Ok ys ->
    Corr.corr_value (Corr.entry (Corr.corr_matrix cf) i j) = Corr.pearson_ref (Corr.masked_pairs xs ys).
Proof. apply select_corr_entries. Qed.

(** ** Witnesses *)

Definition df_ex : frame :=
  [("bore", NumCol [Some 3; Some 4; None; Some 3]); ("price", NumCol [Some 10; Some 14; Some 9; Some 12]);
   ("drive-wheels", StrCol ["fwd"; "rwd"; "fwd"; "4wd"])].

Lemma select_spec_witness :
  exists f, select df_ex ["price"; "bore"] = Ok f /\ map fst f = ["price"; "bore"] /\
    (forall c col, In (c, col) f -> lookup_col df_ex c = Some col).
Proof. apply select_spec. intros c Hc. apply has_col_in. destruct Hc as [<-|[<-|[]]]; reflexivity. Defined.

Lemma select_corr_witness :
  exists cf, frame_corr (pick df_ex ["bore"; "price"]) = Ok cf /\ Corr.corr_labels cf = ["bore"; "price"] /\
  forall i j xs ys, (i < length ["bore"; "price"])%nat -> (j < length ["bore"; "price"])%nat ->
    num_column df_ex (nth i ["bore"; "price"] "") = Ok xs -> num_column df_ex (nth j ["bore"; "price"] "") = Ok ys ->
    Corr.corr_value (Corr.entry (Corr.corr_matrix cf) i j) = Corr.pearson_ref (Corr.masked_pairs xs ys).
Proof.
  apply (select_corr df_ex ["bore"; "price"]); [reflexivity|].
  intros c [<-|[<-|[]]]; eexists; reflexivity.
Defined.

(** A missing label and a text column. *)
Example select_missing_ex :
  select df_ex ["bore"; "stroke"] = Err (KeyError "['stroke'] not in index") /\
  select df_ex ["stroke"] = Err (KeyError "None of [Index(['stroke'], dtype='object')] are in the [columns]") /\
  frame_corr df_ex = Err (ValueError "could not convert string to float: 'fwd'").
Proof. repeat split; reflexivity. Qed.

End Frame.
