(* ===== verification/Script.v ===== *)
(** * Script: the whole of [main.py] after [read_csv]

    The script is one top-to-bottom sequence; an exception in any call ends
    it (there is no [try]).  [script] composes the models of the other
    files in the order of the source, one stage per block of lines, through
    the [result] monad: the correlation matrices (lines 20-26), the two
    seaborn plots (lines 29, 36; only their column checks), the value counts
    (lines 48-51), the group-by means and the pivot (lines 58-68), the
    labelled heatmap (lines 77-86), the nine Pearson tests (lines 99-125)
    and the four analyses of variance (lines 131-150).  The prints and the
    drawing are not modelled.

    The theorems: on a table with the script's schema the script runs to
    the end; when it does, every column it names exists and the three drive
    groups are non-empty; the three samples of line 135 partition the
    prices; the heatmap emits two warnings; and the [bore]/[price]
    coefficient of line 26 is the one of line 118 on NaN-free columns. *)

From S2P Require Import Prelude Moments Pearson Anova GroupBy Heatmap Corr Frame.

Open Scope Q_scope.

Module Script.
Import Frame Heatmap.

(** ** The stages *)

(** [sns.regplot(x=..., y=..., data=df)]: [data[x]] and [data[y]] raise
    pandas' [KeyError] on a missing column. *)
Definition regplot (df : frame) (x y : string) : result unit :=
  let* _ := get_column df x in let* _ := get_column df y in Ok tt.

(** [sns.boxplot(x=..., y=..., data=df)] (seaborn 0.12): a name that is not
    a column of [data] raises [ValueError("Could not interpret input 'c'")],
    [x] checked first. *)
Definition boxplot (df : frame) (x y : string) : result unit :=
  match List.find (fun v => negb (has_col df v)) [x; y] with
  | Some v => Err (ValueError ("Could not interpret input " +:+ quote v))
  | None => Ok tt
  end.

Definition corr_cols : list string := ["bore"; "stroke"; "compression-ratio"; "horsepower"].

(** Lines 20-26. *)
Definition stage_corr (df : frame) : result (Corr.corr_frame * Corr.corr_frame) :=
  let* df_corr := select df corr_cols in
  let* m1 := frame_corr df_corr in
  let* bp := select df ["bore"; "price"] in
  let* m2 := frame_corr bp in
  Ok (m1, m2).

(** Lines 29-36. *)
Definition stage_plots (df : frame) : result unit :=
  let* _ := regplot df "bore" "price" in boxplot df "drive-wheels" "price".

(** Lines 48-51. *)
Definition stage_counts (df : frame) : result count_frame :=
  let* dw := str_column df "drive-wheels" in Ok (counts_table dw).

(** The rows [(key, price)] of a frame grouped by one key. *)
Definition key_rows (f : frame) (k v : string) : result (list (string * option Q)) :=
  let* ks := str_column f k in let* vs := num_column f v in Ok (combine ks vs).

Definition key2_rows (f : frame) (k1 k2 v : string) : result (list ((string * string) * option Q)) :=
  let* k1s := str_column f k1 in let* k2s := str_column f k2 in let* vs := num_column f v in
  Ok (combine (combine k1s k2s) vs).

Record groups_out := GroupsOut {
  test_one : list ((string * string) * option Q);
  test_one_pivot : pivot_table string string;
  group_two : list (string * option Q)
}.

(** Lines 58-68. *)
Definition stage_groups (df : frame) : result groups_out :=
  let* g1 := select df ["drive-wheels"; "body-style"; "price"] in
  let* rows1 := key2_rows g1 "drive-wheels" "body-style" "price" in
  let t1 := groupby_mean rows1 in
  let* pv := pivot t1 in
  let* g2 := select df ["body-style"; "price"] in
  let* rows2 := key_rows g2 "body-style" "price" in
  Ok (GroupsOut t1 pv (groupby_mean rows2)).

Definition pearson_cols : list string :=
  ["wheel-base"; "horsepower"; "length"; "width"; "curb-weight"; "engine-size"; "bore"; "city-mpg";
   "highway-mpg"].

(** [stats.pearsonr(df[c], df['price'])]. *)
Definition pearson_step (df : frame) (c : string) : result Pearson.pearson_stat :=
  let* x := num_column df c in let* y := num_column df "price" in Pearson.pearsonr x y.

(** Lines 99-125. *)
Definition stage_pearson (df : frame) : result (list Pearson.pearson_stat) :=
  mapR (pearson_step df) pearson_cols.

Record anova_out := AnovaOut {
  grouped_head : list (string * option Q);
  samples : list (list (option Q));
  f_values : list Anova.fstat
}.

(** Lines 131-150: [grouped_test_two = df[["drive-wheels", "price"]].groupby("drive-wheels")],
    its [head()] (line 132), [grouped_test_two.get_group(g)["price"]] for
    each group, the arguments evaluated left to right, and four [f_oneway]s. *)
Definition stage_anova (df : frame) : result anova_out :=
  let* g := select df ["drive-wheels"; "price"] in
  let* rows := key_rows g "drive-wheels" "price" in
  let gh := groupby_head 5 rows in
  let* fwd := get_group rows "fwd" in
  let* rwd := get_group rows "rwd" in
  let* wd4 := get_group rows "4wd" in
  let* f1 := Anova.f_oneway [fwd; rwd; wd4] in
  let* f2 := Anova.f_oneway [fwd; rwd] in
  let* f3 := Anova.f_oneway [wd4; rwd] in
  let* f4 := Anova.f_oneway [fwd; wd4] in
  Ok (AnovaOut gh [fwd; rwd; wd4] [f1; f2; f3; f4]).

Record script_out := ScriptOut {
  out_corr : Corr.corr_frame;
  out_corr_bore : Corr.corr_frame;
  out_counts : count_frame;
  out_groups : groups_out;
  out_axes : axes;
  out_pearson : list Pearson.pearson_stat;
  out_anova : anova_out
}.

(** [main.py] after [df = pd.read_csv(...)]. *)
Definition script (df : frame) : result script_out :=
  let* ms := stage_corr df in
  let* _ := stage_plots df in
  let* counts := stage_counts df in
  let* gs := stage_groups df in
  let* ax := labelled_heatmap (test_one_pivot gs) in
  let* ps := stage_pearson df in
  let* an := stage_anova df in
  Ok (ScriptOut ms.1 ms.2 counts gs ax ps an).

(** ** The schema of the table *)

Definition num_cols : list string :=
  ["bore"; "stroke"; "compression-ratio"; "horsepower"; "price"; "wheel-base"; "length"; "width";
   "curb-weight"; "engine-size"; "city-mpg"; "highway-mpg"].

Definition text_cols : list string := ["drive-wheels"; "body-style"].

Definition drive_groups : list string := ["fwd"; "rwd"; "4wd"].

Definition is_num (df : frame) (c : string) : bool :=
  match lookup_col df c with Some (NumCol _) => true | _ => false end.

Definition is_text (df : frame) (c : string) : bool :=
  match lookup_col df c with Some (StrCol _) => true | _ => false end.

(** A numeric column without NaN: what [stats.pearsonr] (lines 99-125)
    needs of [df[c]] and [df['price']], since [scipy.linalg.norm] raises
    on a NaN. *)
Definition is_finite_col (df : frame) (c : string) : bool :=
  match lookup_col df c with
  | Some (NumCol xs) => match finite_values xs with Some _ => true | None => false end
  | _ => false
  end.

(** A well-formed table of at least two rows with the columns the script
    names, of the kinds it uses them at, in which each of the three drive
    groups occurs, and whose price and nine Pearson columns have no NaN. *)
Definition schema_ok (df : frame) : bool :=
  frame_wf df && forallb (is_num df) num_cols && forallb (is_text df) text_cols && (2 <=? nrows df) &&
  match lookup_col df "drive-wheels" with
  | Some (StrCol dw) => forallb (fun g => existsb (fun d => bool_decide (d = g)) dw) drive_groups
  | _ => false
  end && forallb (is_finite_col df) ("price" :: pearson_cols).

(** ** Lemmas: what the schema gives *)

Lemma schema_parts df :
  schema_ok df = true ->
  frame_wf df = true /\ (forall c, In c num_cols -> is_num df c = true) /\
  (forall c, In c text_cols -> is_text df c = true) /\ (2 <= nrows df)%nat /\
  exists dw, lookup_col df "drive-wheels" = Some (StrCol dw) /\ forall g, In g drive_groups -> In g dw.
Proof.
  unfold schema_ok. intros S. apply andb_prop in S as [S _].
  apply andb_prop in S as [S Hg]. apply andb_prop in S as [S Hr].
  apply andb_prop in S as [S Ht]. apply andb_prop in S as [Hwf Hn].
  rewrite forallb_forall in Hn, Ht. apply Nat.leb_le in Hr. repeat split; auto.
  destruct (lookup_col df "drive-wheels") as [[|dw]|]; try discriminate. exists dw. split; [reflexivity|].
  intros g Hin. rewrite forallb_forall in Hg.
  apply Hg, existsb_exists in Hin as (d & Hd & E). apply bool_decide_eq_true in E. now subst.
Qed.

Lemma schema_num df c :
  schema_ok df = true -> In c num_cols -> exists xs, num_column df c = Ok xs /\ length xs = nrows df.
Proof.
  intros S Hc. destruct (schema_parts df S) as (Hwf & Hn & _). specialize (Hn c Hc). unfold is_num in Hn.
  destruct (lookup_col df c) as [[xs|]|] eqn:E; try discriminate. exists xs.
  unfold num_column, get_column. rewrite E. split; [reflexivity|].
  exact (frame_wf_length df c (NumCol xs) Hwf (lookup_col_in df c _ E)).
Qed.

Lemma schema_text df c :
  schema_ok df = true -> In c text_cols -> exists xs, str_column df c = Ok xs /\ length xs = nrows df.
Proof.
  intros S Hc. destruct (schema_parts df S) as (Hwf & _ & Ht & _). specialize (Ht c Hc). unfold is_text in Ht.
  destruct (lookup_col df c) as [[|xs]|] eqn:E; try discriminate. exists xs.
  unfold str_column, get_column. rewrite E. split; [reflexivity|].
  exact (frame_wf_length df c (StrCol xs) Hwf (lookup_col_in df c _ E)).
Qed.

Lemma schema_present df c : schema_ok df = true -> In c (num_cols ++ text_cols) -> In c (map fst df).
Proof.
  intros S [Hc|Hc]%in_app_or.
  - destruct (schema_num df c S Hc) as (xs & Hx & _). eapply column_present, num_column_lookup, Hx.
  - destruct (schema_text df c S Hc) as (xs & Hx & _). eapply column_present, str_column_lookup, Hx.
Qed.

(** Columns of [cs] are read in [pick df cs] as in [df]. *)
Lemma pick_num df cs c :
  (forall d, In d cs -> In d (map fst df)) -> In c cs -> num_column (pick df cs) c = num_column df c.
Proof. intros Hp Hc. unfold num_column, get_column. now rewrite lookup_pick. Qed.

Lemma pick_str df cs c :
  (forall d, In d cs -> In d (map fst df)) -> In c cs -> str_column (pick df cs) c = str_column df c.
Proof. intros Hp Hc. unfold str_column, get_column. now rewrite lookup_pick. Qed.

(** [In c l] for a literal list, and inclusion of literal lists. *)
Ltac in_list := simpl; repeat (solve [left; reflexivity] || right).
Ltac sub_list := intros ?c ?Hc; simpl in *; tauto.

Lemma sub_present df cs :
  schema_ok df = true -> (forall c, In c cs -> In c (num_cols ++ text_cols)) ->
  forall c, In c cs -> In c (map fst df).
Proof. intros S H c Hc. apply (schema_present df c S (H c Hc)). Qed.

Lemma schema_finite df c :
  schema_ok df = true -> In c ("price" :: pearson_cols) ->
  exists xs, num_column df c = Ok xs /\ finite_values xs <> None.
Proof.
  unfold schema_ok. intros S Hc. apply andb_prop in S as [_ Hf]. rewrite forallb_forall in Hf.
  specialize (Hf c Hc). unfold is_finite_col in Hf.
  destruct (lookup_col df c) as [[xs|]|] eqn:E; try discriminate. exists xs.
  unfold num_column, get_column. rewrite E. split; [reflexivity|]. by destruct (finite_values xs).
Qed.

(** The library calls that raise only on their input's shape. *)
Lemma pearsonr_returns x y :
  length x = length y -> (2 <= length x)%nat -> finite_values x <> None -> finite_values y <> None ->
  exists p, Pearson.pearsonr x y = Ok p.
Proof.
  intros Hl H2 Fx Fy. unfold Pearson.pearsonr. rewrite Hl, Nat.eqb_refl. simpl negb. cbv iota.
  replace (length y <? 2)%nat with false by (symmetry; apply Nat.ltb_ge; lia).
  destruct (_ || _); [eauto|].
  destruct (finite_values x), (finite_values y); [eauto|congruence..].
Qed.

Lemma f_oneway_returns samples : (2 <= length samples)%nat -> exists f, Anova.f_oneway samples = Ok f.
Proof.
  intros H2. unfold Anova.f_oneway.
  replace (length samples <? 2)%nat with false by (symmetry; apply Nat.ltb_ge; lia).
  destruct (existsb _ _); [eauto|]. destruct (forallb _ _); [eauto|]. destruct (mapM _ _); eauto.
Qed.

Lemma labelled_heatmap_returns t :
  labelled_heatmap t = Ok {| xaxis := set_ticks (centres (shape t).2)
                                        {| ax_loc := AutoLocator; ax_fmt := FixedFormatter (levels1 t) |};
                             yaxis := set_ticks (centres (shape t).1)
                                        {| ax_loc := AutoLocator; ax_fmt := FixedFormatter (pv_index t) |};
                             warnings := [fixed_ticks_warning; fixed_ticks_warning] |}.
Proof. reflexivity. Qed.

Lemma schema_drive df :
  schema_ok df = true ->
  exists dw price, str_column df "drive-wheels" = Ok dw /\ num_column df "price" = Ok price /\
    length dw = length price /\ (2 <= length price)%nat /\ forall g, In g drive_groups -> In g dw.
Proof.
  intros S. destruct (schema_parts df S) as (_ & _ & _ & Hr & dw & Edw & Hg).
  destruct (schema_num df "price" S) as (price & Hp & Lp); [in_list|].
  destruct (schema_text df "drive-wheels" S) as (dw' & Hd & Ld); [in_list|].
  apply str_column_lookup in Hd as Ed. rewrite Edw in Ed. injection Ed as <-.
  exists dw, price. repeat split; auto; lia.
Qed.

(** Selecting columns of the schema and reading them back. *)
Lemma select_schema df cs :
  schema_ok df = true -> (forall c, In c cs -> In c (num_cols ++ text_cols)) ->
  select df cs = Ok (pick df cs) /\ (forall c, In c cs -> num_column (pick df cs) c = num_column df c) /\
  (forall c, In c cs -> str_column (pick df cs) c = str_column df c).
Proof.
  intros S H. pose proof (sub_present df cs S H) as Hp.
  split; [now apply select_all|]. split; intros c Hc; [apply pick_num|apply pick_str]; auto.
Qed.

Lemma corr_numeric df cs :
  schema_ok df = true -> (forall c, In c cs -> In c num_cols) ->
  exists m, select df cs = Ok (pick df cs) /\ frame_corr (pick df cs) = Ok m.
Proof.
  intros S H. destruct (select_schema df cs S) as [Hs _]; [intros c Hc; apply in_or_app; auto|].
  unfold frame_corr. rewrite first_text_pick; [eauto|].
  intros c Hc. destruct (schema_num df c S (H c Hc)) as (xs & Hx & _). eauto.
Qed.

(** ** Lemmas: each stage returns on a table with the schema *)

Lemma stage_corr_ok df : schema_ok df = true -> exists r, stage_corr df = Ok r.
Proof.
  intros S. unfold stage_corr.
  destruct (corr_numeric df corr_cols S) as (m1 & H1 & H2); [sub_list|].
  destruct (corr_numeric df ["bore"; "price"] S) as (m2 & H3 & H4); [sub_list|].
  result_step. eauto.
Qed.

Lemma stage_plots_ok df : schema_ok df = true -> stage_plots df = Ok tt.
Proof.
  intros S. pose proof (schema_present df "bore" S) as Hb. pose proof (schema_present df "price" S) as Hp.
  pose proof (schema_present df "drive-wheels" S) as Hd.
  destruct (lookup_col_some df "bore") as [cb Eb]; [apply Hb; in_list|].
  destruct (lookup_col_some df "price") as [cp Ep]; [apply Hp; in_list|].
  unfold stage_plots, regplot, boxplot, get_column. rewrite Eb, Ep. simpl.
  rewrite (proj2 (has_col_in df "drive-wheels")), (proj2 (has_col_in df "price")) by (apply Hd || apply Hp; in_list).
  reflexivity.
Qed.

Lemma stage_counts_ok df : schema_ok df = true -> exists r, stage_counts df = Ok r.
Proof.
  intros S. destruct (schema_text df "drive-wheels" S) as (dw & Hd & _); [in_list|].
  unfold stage_counts. result_step. eauto.
Qed.

Lemma stage_groups_ok df : schema_ok df = true -> exists r, stage_groups df = Ok r.
Proof.
  intros S. destruct (schema_drive df S) as (dw & price & Hd & Hp & _).
  destruct (schema_text df "body-style" S) as (bs & Hb & _); [in_list|].
  destruct (select_schema df ["drive-wheels"; "body-style"; "price"] S) as (H1 & N1 & S1); [sub_list|].
  destruct (select_schema df ["body-style"; "price"] S) as (H2 & N2 & S2); [sub_list|].
  unfold stage_groups, key2_rows, key_rows. rewrite H1, H2. cbn [result_bind].
  rewrite !S1, N1, S2, N2 by in_list. rewrite Hd, Hb, Hp. cbn [result_bind].
  destruct (pivot_groupby_ok (combine (combine dw bs) price)) as [pv Hpv]. rewrite Hpv. eauto.
Qed.

Lemma stage_pearson_ok df : schema_ok df = true -> exists r, stage_pearson df = Ok r.
Proof.
  intros S. apply mapR_all_ok. intros c Hc.
  destruct (schema_num df c S) as (x & Hx & Lx); [simpl in Hc |- *; tauto|].
  destruct (schema_num df "price" S) as (y & Hy & Ly); [in_list|].
  destruct (schema_finite df c S) as (x' & Hx' & Fx); [by right|].
  destruct (schema_finite df "price" S) as (y' & Hy' & Fy); [by left|].
  rewrite Hx in Hx'. rewrite Hy in Hy'. injection Hx' as <-. injection Hy' as <-.
  destruct (schema_parts df S) as (_ & _ & _ & Hr & _).
  unfold pearson_step. result_step. apply pearsonr_returns; auto; lia.
Qed.

(** The samples of line 135 are the groups of the rows [(drive-wheels, price)]. *)
Lemma stage_anova_rows df :
  schema_ok df = true -> forall dw price, str_column df "drive-wheels" = Ok dw -> num_column df "price" = Ok price ->
  stage_anova df =
  (let rows := combine dw price in
   let* f1 := Anova.f_oneway [group_of "fwd" rows; group_of "rwd" rows; group_of "4wd" rows] in
   let* f2 := Anova.f_oneway [group_of "fwd" rows; group_of "rwd" rows] in
   let* f3 := Anova.f_oneway [group_of "4wd" rows; group_of "rwd" rows] in
   let* f4 := Anova.f_oneway [group_of "fwd" rows; group_of "4wd" rows] in
   Ok (AnovaOut (groupby_head 5 rows) [group_of "fwd" rows; group_of "rwd" rows; group_of "4wd" rows]
     [f1; f2; f3; f4])).
Proof.
  intros S dw price Hd Hp. destruct (schema_drive df S) as (dw' & price' & Hd' & Hp' & Hl & _ & Hg).
  rewrite Hd in Hd'. injection Hd' as <-. rewrite Hp in Hp'. injection Hp' as <-.
  destruct (select_schema df ["drive-wheels"; "price"] S) as (H1 & N1 & S1); [sub_list|].
  unfold stage_anova, key_rows. rewrite H1. cbn [result_bind]. rewrite S1, N1 by in_list.
  rewrite Hd, Hp. cbn [result_bind].
  assert (Hin : forall g, In g drive_groups -> In g (map fst (combine dw price)))
    by (intros g Hgd; rewrite Pearson.map_fst_combine by exact Hl; auto).
  rewrite !(proj1 (get_group_cases _ _)) by (apply Hin; in_list). reflexivity.
Qed.

Lemma stage_anova_ok df : schema_ok df = true -> exists r, stage_anova df = Ok r.
Proof.
  intros S. destruct (schema_drive df S) as (dw & price & Hd & Hp & _).
  rewrite (stage_anova_rows df S dw price Hd Hp). cbv zeta.
  set (rows := combine dw price).
  destruct (f_oneway_returns [group_of "fwd" rows; group_of "rwd" rows; group_of "4wd" rows]) as [f1 E1];
    [simpl; lia|].
  destruct (f_oneway_returns [group_of "fwd" rows; group_of "rwd" rows]) as [f2 E2]; [simpl; lia|].
  destruct (f_oneway_returns [group_of "4wd" rows; group_of "rwd" rows]) as [f3 E3]; [simpl; lia|].
  destruct (f_oneway_returns [group_of "fwd" rows; group_of "4wd" rows]) as [f4 E4]; [simpl; lia|].
  result_step. eauto.
Qed.

(** ** Lemmas: what a run that returns went through *)

Lemma script_inv df out :
  script df = Ok out ->
  exists ms cnt gs ax ps an,
    stage_corr df = Ok ms /\ stage_plots df = Ok tt /\ stage_counts df = Ok cnt /\
    stage_groups df = Ok gs /\ labelled_heatmap (test_one_pivot gs) = Ok ax /\
    stage_pearson df = Ok ps /\ stage_anova df = Ok an /\ out = ScriptOut ms.1 ms.2 cnt gs ax ps an.
Proof.
  unfold script. intros H. do 7 result_inv H. injection H as <-.
  match goal with u : unit |- _ => destruct u end. do 6 eexists. eauto 10.
Qed.

Lemma get_group_found {V} (rows : list (string * V)) name v :
  get_group rows name = Ok v -> In name (map fst rows) /\ v = group_of name rows.
Proof.
  destruct (in_dec String.string_dec name (map fst rows)) as [Hin|Hn].
  - rewrite (proj1 (get_group_cases rows name) Hin). now intros [= <-].
  - rewrite (proj2 (get_group_cases rows name) Hn). discriminate.
Qed.

Lemma in_fst_combine {A B} (x : A) (l1 : list A) (l2 : list B) : In x (map fst (combine l1 l2)) -> In x l1.
Proof. intros ([a b] & <- & H)%in_map_iff. exact (in_combine_l _ _ _ _ H). Qed.

Lemma stage_anova_inv df an :
  stage_anova df = Ok an ->
  exists dw price, str_column df "drive-wheels" = Ok dw /\ num_column df "price" = Ok price /\
    (forall g, In g drive_groups -> In g dw) /\
    samples an = map (fun g => group_of g (combine dw price)) drive_groups.
Proof.
  unfold stage_anova, key_rows. intros H.
  result_inv_as H g Es. pose proof (select_present _ _ _ Es) as Hp. apply select_pick in Es as ->.
  result_inv_as H rows Er. result_inv_as Er dw Ed. result_inv_as Er price Ep. injection Er as <-.
  rewrite pick_str in Ed by (auto; in_list). rewrite pick_num in Ep by (auto; in_list).
  result_inv_as H s1 G1. result_inv_as H s2 G2. result_inv_as H s3 G3.
  do 4 result_inv H. injection H as <-.
  apply get_group_found in G1 as [F1 ->], G2 as [F2 ->], G3 as [F3 ->].
  exists dw, price. repeat split; auto. intros g [<-|[<-|[<-|[]]]]; eapply in_fst_combine; eassumption.
Qed.

Lemma pearsonr_shape x y s : Pearson.pearsonr x y = Ok s -> length x = length y /\ (2 <= length x)%nat.
Proof.
  unfold Pearson.pearsonr. destruct (Nat.eqb_spec (length x) (length y)); simpl; [|discriminate].
  destruct (Nat.ltb_spec (length x) 2); [discriminate|]. auto.
Qed.


Lemma num_column_present df c xs : num_column df c = Ok xs -> In c (map fst df).
Proof. intros H. eapply column_present, num_column_lookup, H. Qed.

Lemma stage_corr_inv df ms :
  stage_corr df = Ok ms ->
  (forall c, In c corr_cols -> In c (map fst df)) /\
  exists bp, select df ["bore"; "price"] = Ok bp /\ frame_corr bp = Ok ms.2.
Proof.
  unfold stage_corr. intros H. result_inv_as H f1 E1. result_inv_as H m1 E2.
  result_inv_as H bp E3. result_inv_as H m2 E4. injection H as <-.
  split; [exact (select_present _ _ _ E1)|eauto].
Qed.

Lemma stage_groups_present df gs :
  stage_groups df = Ok gs -> forall c, In c ["drive-wheels"; "body-style"; "price"] -> In c (map fst df).
Proof. unfold stage_groups. intros H. result_inv_as H g E. exact (select_present _ _ _ E). Qed.

Lemma stage_pearson_present df ps : stage_pearson df = Ok ps -> forall c, In c pearson_cols -> In c (map fst df).
Proof.
  intros H c Hc. destruct (mapR_in _ _ _ c H Hc) as [y Hy]. unfold pearson_step in Hy.
  result_inv_as Hy x Ex. exact (num_column_present _ _ _ Ex).
Qed.

(** The script runs to its end on a table with its schema. *)
Lemma script_ok df : schema_ok df = true -> exists out, script df = Ok out.
Proof.
  intros S.
  destruct (stage_corr_ok df S) as [ms Hc]. destruct (stage_counts_ok df S) as [cnt Hn].
  destruct (stage_groups_ok df S) as [gs Hg]. destruct (stage_pearson_ok df S) as [ps Hp].
  destruct (stage_anova_ok df S) as [an Ha]. pose proof (stage_plots_ok df S) as Hl.
  pose proof (labelled_heatmap_returns (test_one_pivot gs)) as Hh.
  unfold script. result_step. eauto.
Qed.

(** ** Properties *)

(** C4: on a table with the script's schema (a well-formed frame of at
    least two rows with the twelve numeric and two text columns the script
    names, each of [fwd], [rwd], [4wd] occurring in [drive-wheels], and no
    NaN in the price and the nine Pearson columns, which [stats.pearsonr]
    would reject), the script runs to its end without raising. *)
Theorem script_runs df : schema_ok df = true -> exists out, script df = Ok out.
Proof. exact (script_ok df). Qed.

(** C10: when the script runs to its end, every column it names exists and
    each of the three drive groups of line 135 is non-empty: a table
    without one of them makes the script raise. *)
Theorem script_needs df out :
  script df = Ok out ->
  (forall c, In c (num_cols ++ text_cols) -> In c (map fst df)) /\
  exists dw, str_column df "drive-wheels" = Ok dw /\ forall g, In g drive_groups -> In g dw.
Proof.
  intros H. destruct (script_inv df out H) as (ms & _ & gs & _ & ps & an & Hc & _ & _ & Hg & _ & Hp & Ha & _).
  split.
  - intros c Hin. apply stage_corr_inv in Hc as [Hc _].
    pose proof (stage_groups_present df gs Hg) as Hg'. pose proof (stage_pearson_present df ps Hp) as Hp'.
    assert (Hcov : In c (corr_cols ++ ["drive-wheels"; "body-style"; "price"] ++ pearson_cols))
      by (revert Hin; simpl; tauto).
    apply in_app_or in Hcov as [Hcov|Hcov]; [auto|]. apply in_app_or in Hcov as [Hcov|Hcov]; auto.
  - destruct (stage_anova_inv df an Ha) as (dw & price & Hd & _ & Hgr & _). eauto.
Qed.

(** C11: the three samples of the analysis of variance of line 135 are the
    prices of the [fwd], [rwd] and [4wd] rows; when [drive-wheels] takes
    no other value they partition the price column: no price lost, none
    counted twice. *)
Theorem script_anova_partition df out dw price :
  script df = Ok out -> str_column df "drive-wheels" = Ok dw -> num_column df "price" = Ok price ->
  length dw = length price -> (forall d, In d dw -> In d drive_groups) ->
  Permutation (concat (samples (out_anova out))) price.
Proof.
  intros H Hd Hp Hl Hcov.
  destruct (script_inv df out H) as (ms & cnt & gs & ax & ps & an & _ & _ & _ & _ & _ & _ & Ha & Eo). subst out.
  destruct (stage_anova_inv df an Ha) as (dw' & price' & Hd' & Hp' & _ & Es). simpl. rewrite Es.
  rewrite Hd in Hd'. injection Hd' as <-. rewrite Hp in Hp'. injection Hp' as <-.
  unfold group_of. rewrite <- (map_map (fun k => group_rows k (combine dw price)) (map snd)), <- concat_map.
  transitivity (map snd (combine dw price)); [|now rewrite Pearson.map_snd_combine].
  apply Permutation_map, groups_partition_keys.
  - apply NoDup_ListNoDup, (bool_decide_unpack _). reflexivity.
  - intros [d v] Hr. apply Hcov, (in_combine_l _ _ _ _ Hr).
Qed.

(** Setting the tick labels before the ticks (lines 81-86) makes every
    run of the script that reaches its end emit matplotlib's fixed-ticks
    warning twice, once per axis. *)
Theorem script_heatmap_warnings df out :
  script df = Ok out -> warnings (out_axes out) = [fixed_ticks_warning; fixed_ticks_warning].
Proof.
  intros H. destruct (script_inv df out H) as (ms & cnt & gs & ax & ps & an & _ & _ & _ & _ & Hh & _ & _ & Eo).
  subst out.
  rewrite labelled_heatmap_returns in Hh. now injection Hh as <-.
Qed.

(** on NaN-free [bore] and [price] columns, the coefficient the script
    prints at line 26 ([df[["bore", "price"]].corr()], entry (0, 1)) is the
    one it prints at line 118 ([stats.pearsonr(df['bore'], df['price'])]). *)
Theorem script_bore_price df out b p :
  script df = Ok out -> num_column df "bore" = Ok (map Some b) -> num_column df "price" = Ok (map Some p) ->
  Pearson.statistic (nth 6 (out_pearson out) Pearson.PNaN) =
  Corr.corr_value (Corr.entry (Corr.corr_matrix (out_corr_bore out)) 0 1).
Proof.
  intros H Hb Hp.
  destruct (script_inv df out H) as (ms & cnt & gs & ax & ps & an & Hc & _ & _ & _ & _ & Hps & _ & Eo). subst out.
  simpl. destruct (mapR_nth_error _ _ _ 6 "bore" Hps eq_refl) as (s & Hs & Hstep).
  rewrite (nth_error_nth _ _ _ Hs). unfold pearson_step in Hstep. rewrite Hb, Hp in Hstep. simpl in Hstep.
  destruct (pearsonr_shape _ _ _ Hstep) as [Hl H2]. rewrite !length_map in Hl. rewrite length_map in H2.
  pose proof (Corr.nancorr_pair_pearsonr b p Hl H2) as Hagree. rewrite Hstep in Hagree.
  injection Hagree as ->. rewrite Corr.nancorr_pair_ref.
  destruct (stage_corr_inv df ms Hc) as [_ (bp & Hsel & Hm2)].
  destruct (select_corr_entries df ["bore"; "price"] bp Hsel) as (cf & Hcf & _ & Hent).
  { intros c [<-|[<-|[]]]; eauto. }
  rewrite Hm2 in Hcf. injection Hcf as <-. symmetry. apply Hent; simpl; auto.
Qed.

(** ** Witnesses *)

(** Four rows of the automobile table with the columns the script reads. *)
Definition auto_ex : frame :=
  [("drive-wheels", StrCol ["fwd"; "rwd"; "4wd"; "fwd"]);
   ("body-style", StrCol ["sedan"; "convertible"; "sedan"; "hatchback"]);
   ("bore", NumCol [Some (319 # 100); Some (347 # 100); Some (319 # 100); Some (291 # 100)]);
   ("stroke", NumCol [Some (34 # 10); Some (268 # 100); Some (34 # 10); Some (341 # 100)]);
   ("compression-ratio", NumCol [Some 10; Some 9; Some 8; Some (96 # 10)]);
   ("horsepower", NumCol [Some 102; Some 111; Some 115; Some 70]);
   ("price", NumCol [Some 13950; Some 16500; Some 17450; Some 6575]);
   ("wheel-base", NumCol [Some (998 # 10); Some (886 # 10); Some (998 # 10); Some (945 # 10)]);
   ("length", NumCol [Some (848 # 1000); Some (811 # 1000); Some (848 # 1000); Some (788 # 1000)]);
   ("width", NumCol [Some (919 # 1000); Some (890 # 1000); Some (922 # 1000); Some (889 # 1000)]);
   ("curb-weight", NumCol [Some 2337; Some 2548; Some 2824; Some 1874]);
   ("engine-size", NumCol [Some 109; Some 130; Some 136; Some 90]);
   ("city-mpg", NumCol [Some 24; Some 21; Some 18; Some 38]);
   ("highway-mpg", NumCol [Some 30; Some 27; Some 22; Some 43])].

Lemma script_runs_witness : exists out, script auto_ex = Ok out.
Proof. apply script_runs. vm_compute. reflexivity. Defined.

Lemma script_needs_witness :
  exists out, script auto_ex = Ok out /\
  ((forall c, In c (num_cols ++ text_cols) -> In c (map fst auto_ex)) /\
   exists dw, str_column auto_ex "drive-wheels" = Ok dw /\ forall g, In g drive_groups -> In g dw).
Proof. eexists. split; [vm_compute; reflexivity|]. eapply (script_needs auto_ex). vm_compute. reflexivity. Defined.

Lemma script_anova_partition_witness :
  exists out, script auto_ex = Ok out /\
  Permutation (concat (samples (out_anova out))) [Some 13950; Some 16500; Some 17450; Some 6575].
Proof.
  eexists. split; [vm_compute; reflexivity|].
  eapply (script_anova_partition auto_ex _ ["fwd"; "rwd"; "4wd"; "fwd"]); [vm_compute; reflexivity..|].
  intros d Hd. simpl in Hd. repeat (destruct Hd as [<-|Hd]; [in_list|]). contradiction.
Defined.

Lemma script_heatmap_warnings_witness :
  exists out, script auto_ex = Ok out /\ warnings (out_axes out) = [fixed_ticks_warning; fixed_ticks_warning].
Proof. eexists. split; [vm_compute; reflexivity|]. apply (script_heatmap_warnings auto_ex). vm_compute. reflexivity. Defined.

Lemma script_bore_price_witness :
  exists out, script auto_ex = Ok out /\
  Pearson.statistic (nth 6 (out_pearson out) Pearson.PNaN) =
  Corr.corr_value (Corr.entry (Corr.corr_matrix (out_corr_bore out)) 0 1).
Proof.
  eexists. split; [vm_compute; reflexivity|].
  eapply (script_bore_price auto_ex _ [319 # 100; 347 # 100; 319 # 100; 291 # 100] [13950; 16500; 17450; 6575]);
    vm_compute; reflexivity.
Defined.

End Script.
