(* ===== verification/Tokenizer.v ===== *)
(** * Tokenizer: the C tokenizer behind [pd.read_csv] (line 11)

    [pd.read_csv(path_name)] splits the downloaded text into records of
    fields with pandas' C tokenizer ([tokenizer.c], [tokenize_bytes]),
    under the default options: delimiter [','], the double-quote character as quote, with
    doubled quotes inside a quoted field, lines ended by ['\n'], ['\r\n'] or
    ['\r'], blank and whitespace-only lines skipped ([skip_blank_lines]),
    no comment or escape character.  The tokenizer is a state machine over
    the characters; [tok] is its state, [step] one character, [finish] the
    end of the input ([parser_handle_eof]).  [end_line] is pandas'
    [end_line]: after the header a record with more fields than the one
    before raises [ParserError], one with fewer is padded with empty
    fields.

    The file proves that writing records with quotes where needed and
    tokenizing the text gives back the records (a round trip); that every
    successful run gives data records of one length, at least the
    header's (an invariant of every handler); what the tokenizer does with
    a data record that is longer or shorter than the one before; and the
    error on a quote that is never closed. *)

From S2P Require Import Prelude.
From stdpp Require Import pretty.
From Stdlib Require Import Ascii.

Module Tokenizer.

(** ** Characters *)

Definition LF : ascii := "010"%char.
Definition CR : ascii := "013"%char.
Definition TAB : ascii := "009"%char.
Definition SPACE : ascii := " "%char.
Definition QUOTE : ascii := "034"%char.
Definition COMMA : ascii := ","%char.

(** [IS_WHITESPACE(c)]: a space or a tab. *)
Definition is_ws (c : ascii) : bool := Ascii.eqb c SPACE || Ascii.eqb c TAB.

(** ** The state machine *)

(** The states of [tokenize_bytes] reachable under the default options. *)
Inductive tstate :=
| StartRecord
| StartField
| InField
| InQuotedField
| QuoteInQuotedField
| EatCrnl
| EatCrnlNop
| WhitespaceLine.

(** The parser: its state, the field being read, the fields of the record
    being read, the records read so far, and [file_lines]. *)
Record tok := Tok {
  state : tstate;
  field : list ascii;
  fields : list string;
  records : list (list string);
  file_lines : nat
}.

Definition tok0 : tok := Tok StartRecord [] [] [] 0.

Definition set_state (s : tstate) (t : tok) : tok :=
  Tok s (field t) (fields t) (records t) (file_lines t).

(** [PUSH_CHAR(c)]. *)
Definition push (t : tok) (c : ascii) : tok :=
  Tok (state t) (field t ++ [c]) (fields t) (records t) (file_lines t).

(** [END_FIELD()]. *)
Definition end_field (t : tok) : tok :=
  Tok (state t) [] (fields t ++ [String.string_of_list_ascii (field t)]) (records t) (file_lines t).

(** A line skipped as blank: [self->file_lines++]. *)
Definition skip_line (s : tstate) (t : tok) : tok :=
  Tok s [] (fields t) (records t) (S (file_lines t)).

Definition show_nat (n : nat) : string := pretty (N.of_nat n).

(** [raise_parser_error("Error tokenizing data", parser)]: pandas'
    [ParserError], a [ValueError]. *)
Definition tokenizing_error (msg : string) : py_error :=
  ValueError ("Error tokenizing data. C error: " +:+ msg).

(** [end_line]: the header record is kept as it is; after it, a record
    with more fields than the previous one raises (except the first data
    record), and a record with fewer is padded with empty fields.  The
    state goes back to [START_RECORD]. *)
Definition end_line (t : tok) : result tok :=
  let f := length (fields t) in
  let fl := S (file_lines t) in
  match last (records t) with
  | None => Ok (Tok StartRecord [] [] [fields t] fl)
  | Some prev =>
      let ex := length prev in
      if (2 <=? length (records t)) && (ex <? f) then
        Err (tokenizing_error ("Expected " +:+ show_nat ex +:+ " fields in line " +:+ show_nat fl +:+
                               ", saw " +:+ show_nat f +:+ String LF EmptyString))
      else Ok (Tok StartRecord [] [] (records t ++ [fields t ++ repeat "" (ex - f)]) fl)
  end.

(** [case START_FIELD]. *)
Definition start_field (t : tok) (c : ascii) : result tok :=
  if Ascii.eqb c LF then end_line (end_field t)
  else if Ascii.eqb c CR then Ok (set_state EatCrnl (end_field t))
  else if Ascii.eqb c QUOTE then Ok (set_state InQuotedField t)
  else if Ascii.eqb c COMMA then Ok (set_state StartField (end_field t))
  else Ok (set_state InField (push t c)).

(** [case IN_FIELD]. *)
Definition in_field (t : tok) (c : ascii) : result tok :=
  if Ascii.eqb c LF then end_line (end_field t)
  else if Ascii.eqb c CR then Ok (set_state EatCrnl (end_field t))
  else if Ascii.eqb c COMMA then Ok (set_state StartField (end_field t))
  else Ok (push t c).

(** [case START_RECORD]: an empty line is skipped; a line starting with
    whitespace is looked at to the end ([WHITESPACE_LINE]); anything else
    starts the first field. *)
Definition start_record (t : tok) (c : ascii) : result tok :=
  if Ascii.eqb c LF then Ok (skip_line StartRecord t)
  else if Ascii.eqb c CR then Ok (skip_line EatCrnlNop t)
  else if is_ws c then Ok (set_state WhitespaceLine (push t c))
  else start_field (set_state StartField t) c.

(** One character.  [WHITESPACE_LINE] keeps the whitespace it has read:
    when a non-whitespace character follows, pandas backs up to the start
    of the line and reads it again from [START_FIELD], which puts those
    characters into an unquoted field; a line of whitespace only is
    skipped.  [EAT_CRNL] ends the record at a ['\r'] not followed by
    ['\n'] and reads the character again. *)
Definition step (t : tok) (c : ascii) : result tok :=
  match state t with
  | StartRecord => start_record t c
  | StartField => start_field t c
  | InField => in_field t c
  | InQuotedField =>
      if Ascii.eqb c QUOTE then Ok (set_state QuoteInQuotedField t) else Ok (push t c)
  | QuoteInQuotedField =>
      if Ascii.eqb c QUOTE then Ok (set_state InQuotedField (push t c))
      else if Ascii.eqb c COMMA then Ok (set_state StartField (end_field t))
      else if Ascii.eqb c LF then end_line (end_field t)
      else if Ascii.eqb c CR then Ok (set_state EatCrnl (end_field t))
      else Ok (set_state InField (push t c))
  | EatCrnl =>
      if Ascii.eqb c LF then end_line t
      else if Ascii.eqb c COMMA then let* t' := end_line t in Ok (set_state StartField t')
      else let* t' := end_line t in start_record t' c
  | EatCrnlNop =>
      if Ascii.eqb c LF || Ascii.eqb c COMMA then Ok (set_state StartRecord t)
      else start_record (set_state StartRecord t) c
  | WhitespaceLine =>
      if Ascii.eqb c LF then Ok (skip_line StartRecord t)
      else if Ascii.eqb c CR then Ok (skip_line EatCrnlNop t)
      else if is_ws c then Ok (push t c)
      else in_field (set_state InField t) c
  end.

Fixpoint run_tok (t : tok) (s : list ascii) : result tok :=
  match s with
  | [] => Ok t
  | c :: s' => let* t' := step t c in run_tok t' s'
  end.

(** [parser_handle_eof]. *)
Definition finish (t : tok) : result (list (list string)) :=
  match state t with
  | StartRecord | WhitespaceLine | EatCrnlNop => Ok (records t)
  | InQuotedField =>
      Err (tokenizing_error ("EOF inside string starting at row " +:+ show_nat (file_lines t)))
  | InField | StartField | QuoteInQuotedField =>
      let* t' := end_line (end_field t) in Ok (records t')
  | EatCrnl => let* t' := end_line t in Ok (records t')
  end.

(** The records of a text, the header first. *)
Definition tokenize (s : list ascii) : result (list (list string)) :=
  let* t := run_tok tok0 s in finish t.

(** ** Writing records *)

(** A field is quoted when it holds a delimiter, a quote or a line break,
    or is blank (an unquoted blank field would read as a blank line). *)
Definition special (c : ascii) : bool := Ascii.eqb c LF || Ascii.eqb c CR || Ascii.eqb c COMMA.

Definition needs_quote (f : list ascii) : bool :=
  forallb is_ws f || existsb (fun c => special c || Ascii.eqb c QUOTE) f.

Fixpoint escape (f : list ascii) : list ascii :=
  match f with
  | [] => []
  | c :: f' => if Ascii.eqb c QUOTE then QUOTE :: QUOTE :: escape f' else c :: escape f'
  end.

Definition write_field (s : string) : list ascii :=
  let f := String.list_ascii_of_string s in
  if needs_quote f then QUOTE :: escape f ++ [QUOTE] else f.

Fixpoint write_fields (fs : list string) : list ascii :=
  match fs with
  | [] => []
  | [f] => write_field f
  | f :: fs' => write_field f ++ COMMA :: write_fields fs'
  end.

Definition write_record (fs : list string) : list ascii := write_fields fs ++ [LF].

Definition write_csv (rs : list (list string)) : list ascii := concat (map write_record rs).

(** ** Lemmas *)

Lemma run_tok_app t a b : run_tok t (a ++ b) = let* t' := run_tok t a in run_tok t' b.
Proof.
  revert t. induction a as [|c a IH]; intros t; simpl; [reflexivity|].
  destruct (step t c); simpl; [apply IH|reflexivity].
Qed.

(** [end_line] reads only the fields, the records and the line count. *)
Lemma end_line_ext s1 s2 b1 b2 fs rs fl :
  end_line (Tok s1 b1 fs rs fl) = end_line (Tok s2 b2 fs rs fl).
Proof. reflexivity. Qed.

Lemma special_false c :
  special c = false -> Ascii.eqb c LF = false /\ Ascii.eqb c CR = false /\ Ascii.eqb c COMMA = false.
Proof. unfold special. now intros [[-> ->]%orb_false_iff ->]%orb_false_iff. Qed.

Lemma plain_char c :
  special c || Ascii.eqb c QUOTE = false ->
  Ascii.eqb c LF = false /\ Ascii.eqb c CR = false /\ Ascii.eqb c COMMA = false /\ Ascii.eqb c QUOTE = false.
Proof. intros [H ->]%orb_false_iff. apply special_false in H as (? & ? & ?). auto. Qed.

(** The characters of an unquoted field are pushed one by one. *)
Lemma unquoted_run t cs :
  state t = InField -> forallb (fun c => negb (special c)) cs = true ->
  run_tok t cs = Ok (Tok InField (field t ++ cs) (fields t) (records t) (file_lines t)).
Proof.
  revert t. induction cs as [|c cs IH]; intros t Hs Hp; simpl.
  - rewrite app_nil_r. destruct t; simpl in *; now subst.
  - apply andb_prop in Hp as [Hc Hp]. apply negb_true_iff, special_false in Hc as (H1 & H2 & H3).
    unfold step. rewrite Hs. unfold in_field. rewrite H1, H2, H3. simpl.
    rewrite IH by assumption. simpl. now rewrite <- app_assoc.
Qed.

(** The characters of a quoted field, its quotes doubled, then the
    closing quote. *)
Lemma quoted_run t f :
  state t = InQuotedField ->
  run_tok t (escape f ++ [QUOTE]) =
  Ok (Tok QuoteInQuotedField (field t ++ f) (fields t) (records t) (file_lines t)).
Proof.
  revert t. induction f as [|c f IH]; intros t Hs; simpl.
  - unfold step. rewrite Hs. simpl. rewrite app_nil_r. reflexivity.
  - destruct (Ascii.eqb_spec c QUOTE) as [->|Hc]; simpl.
    + unfold step. rewrite Hs. simpl. rewrite IH by reflexivity. simpl. now rewrite <- app_assoc.
    + unfold step. rewrite Hs. apply Ascii.eqb_neq in Hc. rewrite Hc. simpl.
      rewrite IH by assumption. simpl. now rewrite <- app_assoc.
Qed.

(** A first field that starts with whitespace goes through
    [WHITESPACE_LINE] and ends up as an unquoted field. *)
Lemma ws_run t f :
  state t = WhitespaceLine -> forallb (fun c => negb (special c)) f = true ->
  existsb (fun c => negb (is_ws c)) f = true ->
  run_tok t f = Ok (Tok InField (field t ++ f) (fields t) (records t) (file_lines t)).
Proof.
  revert t. induction f as [|c f IH]; intros t Hs Hp Hw; [discriminate|simpl in Hp, Hw |- *].
  apply andb_prop in Hp as [Hc Hp]. apply negb_true_iff, special_false in Hc as (H1 & H2 & H3).
  unfold step. rewrite Hs, H1, H2. destruct (is_ws c) eqn:W; simpl in Hw |- *.
  - rewrite IH by (cbn; assumption). simpl. now rewrite <- app_assoc.
  - unfold in_field. simpl. rewrite H1, H2, H3. simpl.
    rewrite unquoted_run by (reflexivity || assumption). simpl. now rewrite <- app_assoc.
Qed.

Lemma forallb_ws_false f : forallb is_ws f = false -> existsb (fun c => negb (is_ws c)) f = true.
Proof.
  induction f as [|c f IH]; simpl; [discriminate|].
  destruct (is_ws c); simpl; auto.
Qed.

Lemma existsb_plain f :
  existsb (fun c => special c || Ascii.eqb c QUOTE) f = false -> forallb (fun c => negb (special c)) f = true.
Proof.
  induction f as [|c f IH]; simpl; [reflexivity|].
  intros [[-> _]%orb_false_iff Hf]%orb_false_iff. simpl. auto.
Qed.

(** The states in which a written field has been read completely. *)
Definition field_end (s : tstate) : Prop := s = InField \/ s = QuoteInQuotedField.

(** A written field, read from the start of a field or of a record. *)
Lemma field_run t s :
  (state t = StartField \/ state t = StartRecord) -> field t = [] ->
  exists st, field_end st /\
    run_tok t (write_field s) =
    Ok (Tok st (String.list_ascii_of_string s) (fields t) (records t) (file_lines t)).
Proof.
  intros Hs Hb. unfold write_field. set (f := String.list_ascii_of_string s).
  destruct (needs_quote f) eqn:Q.
  - exists QuoteInQuotedField. split; [now right|]. simpl.
    assert (E : step t QUOTE = Ok (set_state InQuotedField t)).
    { unfold step. destruct Hs as [-> | ->]; reflexivity. }
    rewrite E. simpl. rewrite quoted_run by reflexivity. simpl. now rewrite Hb.
  - exists InField. split; [now left|]. unfold needs_quote in Q.
    apply orb_false_iff in Q as [Qw Qs]. pose proof (existsb_plain f Qs) as Hp.
    destruct f as [|c f']; [discriminate|]. simpl in Qs, Hp, Qw.
    apply orb_false_iff in Qs as [Qc _]. apply plain_char in Qc as (H1 & H2 & H3 & H4).
    apply andb_prop in Hp as [_ Hp]. simpl.
    assert (Hsf : forall t', field t' = [] -> start_field t' c =
              Ok (Tok InField [c] (fields t') (records t') (file_lines t'))).
    { intros t' B. unfold start_field. rewrite H1, H2, H4, H3.
      unfold set_state, push. simpl. now rewrite B. }
    destruct Hs as [Hs|Hs].
    + unfold step at 1. rewrite Hs, Hsf by assumption. simpl. now rewrite unquoted_run.
    + unfold step at 1. rewrite Hs. unfold start_record. rewrite H1, H2.
      destruct (is_ws c) eqn:W.
      * simpl. rewrite ws_run by (reflexivity || assumption || (try rewrite W in Qw; simpl in Qw; now apply forallb_ws_false)).
        simpl. now rewrite Hb.
      * rewrite (Hsf (set_state StartField t)) by assumption. simpl. now rewrite unquoted_run.
Qed.

(** A written record up to its line break, then the rest of the text. *)
Lemma fields_lf t fs rest :
  fs <> [] -> (state t = StartField \/ state t = StartRecord) -> field t = [] ->
  run_tok t (write_fields fs ++ LF :: rest) =
  let* t' := end_line (Tok StartRecord [] (fields t ++ fs) (records t) (file_lines t)) in run_tok t' rest.
Proof.
  revert t. induction fs as [|f fs IH]; intros t Hne Hs Hb; [contradiction|].
  destruct (field_run t f Hs Hb) as (st & Hst & Hf).
  destruct fs as [|f' fs'].
  - simpl write_fields. rewrite run_tok_app, Hf. simpl.
    assert (E : step (Tok st (String.list_ascii_of_string f) (fields t) (records t) (file_lines t)) LF =
                end_line (Tok st [] (fields t ++ [f]) (records t) (file_lines t))).
    { unfold step, in_field, end_field. destruct Hst as [-> | ->]; cbn -[end_line String.string_of_list_ascii];
        now rewrite String.string_of_list_ascii_of_string. }
    rewrite E. now rewrite (end_line_ext st StartRecord [] []).
  - change (write_fields (f :: f' :: fs')) with (write_field f ++ COMMA :: write_fields (f' :: fs')).
    rewrite <- app_assoc, run_tok_app, Hf. simpl.
    assert (E : step (Tok st (String.list_ascii_of_string f) (fields t) (records t) (file_lines t)) COMMA =
                Ok (Tok StartField [] (fields t ++ [f]) (records t) (file_lines t))).
    { unfold step, in_field, set_state, end_field. destruct Hst as [-> | ->];
        cbn -[String.string_of_list_ascii]; now rewrite String.string_of_list_ascii_of_string. }
    rewrite E. simpl. rewrite IH by (discriminate || now left || reflexivity). simpl.
    now rewrite <- app_assoc.
Qed.

(** [end_line] on a record as long as all the records before it. *)
Lemma end_line_same s b fs rs fl n :
  (forall r, In r rs -> length r = n) -> length fs = n ->
  end_line (Tok s b fs rs fl) = Ok (Tok StartRecord [] [] (rs ++ [fs]) (S fl)).
Proof.
  intros Hrs Hfs. unfold end_line. simpl. destruct (last rs) as [prev|] eqn:E.
  - apply last_Some_elem_of, list_elem_of_In, Hrs in E as ->.
    rewrite Hfs, Nat.ltb_irrefl, andb_false_r, Nat.sub_diag, app_nil_r. reflexivity.
  - apply last_None in E as ->. reflexivity.
Qed.

(** Written records, read from the start of a record. *)
Lemma csv_run t rs n :
  state t = StartRecord -> field t = [] -> fields t = [] -> (1 <= n)%nat ->
  (forall r, In r (records t) -> length r = n) -> (forall r, In r rs -> length r = n) ->
  run_tok t (write_csv rs) = Ok (Tok StartRecord [] [] (records t ++ rs) (file_lines t + length rs)).
Proof.
  revert t. induction rs as [|r rs IH]; intros t Hs Hb Hf Hn Hold Hrs.
  - simpl. rewrite app_nil_r, Nat.add_0_r. destruct t; simpl in *; now subst.
  - unfold write_csv. simpl. fold (write_csv rs). unfold write_record. rewrite <- app_assoc. simpl.
    assert (Hr : length r = n) by (apply Hrs; now left).
    assert (Hne : r <> []) by (intros ->; simpl in Hr; lia).
    rewrite fields_lf by auto.
    rewrite Hf. simpl. rewrite (end_line_same _ _ _ _ _ n Hold Hr). simpl.
    rewrite IH; try reflexivity; try assumption.
    + simpl. now rewrite <- app_assoc, Nat.add_succ_r.
    + intros r' [Hin|[<-|[]]]%in_app_or; auto.
    + intros r' Hin. apply Hrs. now right.
Qed.

Lemma csv_run0 rs n :
  (1 <= n)%nat -> (forall r, In r rs -> length r = n) ->
  run_tok tok0 (write_csv rs) = Ok (Tok StartRecord [] [] rs (length rs)).
Proof. intros Hn Hrs. rewrite (csv_run tok0 rs n); auto. intros r []. Qed.

(** The characters of a quoted field that never closes. *)
Lemma open_quote_run t s :
  state t = InQuotedField -> ~ In QUOTE s ->
  run_tok t s = Ok (Tok InQuotedField (field t ++ s) (fields t) (records t) (file_lines t)).
Proof.
  revert t. induction s as [|c s IH]; intros t Hs Hq; simpl.
  - rewrite app_nil_r. destruct t; simpl in *; now subst.
  - unfold step. rewrite Hs. destruct (Ascii.eqb_spec c QUOTE) as [->|_]; [now destruct Hq; left|].
    simpl. rewrite IH by ((cbn; assumption) || (intro; apply Hq; now right)). simpl.
    now rewrite <- app_assoc.
Qed.

(** The records after the tokenizer's [end_line]: every data record has
    the length of the first one, which is at least the header's. *)
Definition rect (rs : list (list string)) : Prop :=
  match rs with
  | h :: r1 :: rows => (length h <= length r1)%nat /\ forall r, In r (r1 :: rows) -> length r = length r1
  | _ => True
  end.

Lemma end_line_rect t t' : rect (records t) -> end_line t = Ok t' -> rect (records t').
Proof.
  unfold end_line. destruct (last (records t)) as [prev|] eqn:E.
  - destruct (andb _ _) eqn:C; [discriminate|]. intros Hr [= <-]. simpl.
    destruct (records t) as [|h [|r1 rows]] eqn:R; [discriminate| |].
    + simpl in E. injection E as ->. simpl.
      split; [rewrite ?length_app, ?repeat_length; lia | intros r [<-|[]]; reflexivity].
    + destruct Hr as [Hh Hall]. simpl in C.
      assert (Hp : length prev = length r1) by (apply Hall, list_elem_of_In, last_Some_elem_of, E).
      apply Nat.ltb_ge in C.
      split; [done|]. intros r Hin. apply (in_app_or (r1 :: rows)) in Hin as [Hin|[<-|[]]]; [auto|].
      rewrite ?length_app, ?repeat_length. lia.
  - intros _ [= <-]. exact I.
Qed.

(** A handler that does not end a record keeps the records. *)
Ltac keep_records E Hr :=
  first [injection E as <-; exact Hr | eapply end_line_rect; [|exact E]; exact Hr].

Lemma start_field_rect t c t' : rect (records t) -> start_field t c = Ok t' -> rect (records t').
Proof. unfold start_field. intros Hr. repeat case_match; intros E; keep_records E Hr. Qed.

Lemma in_field_rect t c t' : rect (records t) -> in_field t c = Ok t' -> rect (records t').
Proof. unfold in_field. intros Hr. repeat case_match; intros E; keep_records E Hr. Qed.

Lemma start_record_rect t c t' : rect (records t) -> start_record t c = Ok t' -> rect (records t').
Proof.
  unfold start_record. intros Hr. repeat case_match; intros E; try keep_records E Hr.
  exact (start_field_rect _ _ _ Hr E).
Qed.

Lemma step_rect t c t' : rect (records t) -> step t c = Ok t' -> rect (records t').
Proof.
  unfold step. intros Hr. destruct (state t); repeat case_match; intros E; try keep_records E Hr.
  all: first
    [ refine (start_record_rect _ _ _ _ E); exact Hr | refine (start_field_rect _ _ _ _ E); exact Hr
    | refine (in_field_rect _ _ _ _ E); exact Hr
    | destruct (end_line t) as [t1|] eqn:E1; [|discriminate]; simpl in E;
      pose proof (end_line_rect _ _ Hr E1) as H1;
      first [ injection E as <-; exact H1 | exact (start_record_rect _ _ _ H1 E) ] ].
Qed.

Lemma run_tok_rect s : forall t t', rect (records t) -> run_tok t s = Ok t' -> rect (records t').
Proof.
  induction s as [|c s IH]; simpl; intros t t' Hr E; [injection E as <-; exact Hr|].
  destruct (step t c) as [t1|] eqn:E1; [|discriminate]. eapply IH, E. eapply step_rect; eauto.
Qed.

Lemma finish_rect t rs : rect (records t) -> finish t = Ok rs -> rect rs.
Proof.
  unfold finish. intros Hr. destruct (state t); intros E; try discriminate; try (injection E as <-; exact Hr);
    destruct (end_line _) as [t1|] eqn:E1; try discriminate; simpl in E; injection E as <-;
    refine (end_line_rect _ _ _ E1); exact Hr.
Qed.

(** ** Blank lines *)

Lemma ws_not_eol c : is_ws c = true -> Ascii.eqb c LF = false /\ Ascii.eqb c CR = false.
Proof. unfold is_ws. intros [E|E]%orb_true_iff; apply Ascii.eqb_eq in E as ->; split; reflexivity. Qed.

Lemma ws_line_run t l :
  state t = WhitespaceLine -> forallb is_ws l = true ->
  run_tok t (l ++ [LF]) = Ok (Tok StartRecord [] (fields t) (records t) (S (file_lines t))).
Proof.
  revert t. induction l as [|c l IH]; intros t Hs Hw; simpl.
  - unfold step. rewrite Hs. reflexivity.
  - apply andb_prop in Hw as [Hc Hw]. destruct (ws_not_eol c Hc) as [H1 H2].
    unfold step at 1. rewrite Hs, H1, H2, Hc. simpl. rewrite IH by (cbn; assumption || done). reflexivity.
Qed.

(** A line of spaces and tabs is skipped. *)
Lemma blank_line_run t l :
  state t = StartRecord -> forallb is_ws l = true ->
  run_tok t (l ++ [LF]) = Ok (Tok StartRecord [] (fields t) (records t) (S (file_lines t))).
Proof.
  intros Hs Hw. destruct l as [|c l]; simpl.
  - unfold step. rewrite Hs. reflexivity.
  - apply andb_prop in Hw as [Hc Hw]. destruct (ws_not_eol c Hc) as [H1 H2].
    unfold step at 1. rewrite Hs. unfold start_record. rewrite H1, H2, Hc. simpl.
    rewrite ws_line_run by (reflexivity || assumption). reflexivity.
Qed.

(** ** Properties *)

(** C7: Round trip.  The text the writer produces for records that all
    have the same number n >= 1 of fields is read back by the tokenizer
    as exactly those records: quoting, doubled quotes, a first field
    starting with whitespace and empty fields all survive. *)
Theorem tokenize_write rs n :
  (1 <= n)%nat -> (forall r, In r rs -> length r = n) -> tokenize (write_csv rs) = Ok rs.
Proof. intros Hn Hrs. unfold tokenize. rewrite (csv_run0 rs n Hn Hrs). reflexivity. Qed.

Definition sample_records : list (list string) :=
  [["a"; "b,c"]; [" x"; "say " +:+ String QUOTE "hi"]; [""; "1"]].

Example tokenize_write_witness :
  (1 <= 2)%nat /\ (forall r, In r sample_records -> length r = 2) /\
  tokenize (write_csv sample_records) = Ok sample_records.
Proof.
  assert (H : forall r, In r sample_records -> length r = 2)
    by (intros r [<-|[<-|[<-|[]]]]; reflexivity).
  split; [lia|]. split; [exact H|]. apply (tokenize_write _ 2); [lia|exact H].
Defined.

Lemma write_csv_snoc rs r : write_csv (rs ++ [r]) = write_csv rs ++ write_fields r ++ [LF].
Proof. unfold write_csv, write_record. now rewrite map_app, concat_app; simpl; rewrite app_nil_r. Qed.

(** Records of one length, then one more record: its [END_LINE] decides. *)
Lemma last_record_run rs r n :
  (1 <= n)%nat -> (forall r', In r' rs -> length r' = n) -> r <> [] ->
  run_tok tok0 (write_csv (rs ++ [r])) = end_line (Tok StartRecord [] r rs (length rs)).
Proof.
  intros Hn Hrs Hr. rewrite write_csv_snoc, run_tok_app, (csv_run0 rs n Hn Hrs). simpl.
  rewrite (fields_lf _ r []) by auto. simpl. apply result_bind_ret_r.
Qed.

(** C23: Ragged rows.  After records of n >= 1 fields, a record with more
    fields raises pandas' [ParserError] "Expected n fields in line l, saw m"
    when at least two lines precede it (the header counts); a record with
    at most n fields is padded with empty strings to n fields. *)
Theorem tokenize_ragged rs r n :
  (1 <= n)%nat -> (forall r', In r' rs -> length r' = n) -> r <> [] ->
  ((2 <= length rs)%nat -> (n < length r)%nat ->
   tokenize (write_csv (rs ++ [r])) =
   Err (tokenizing_error ("Expected " +:+ show_nat n +:+ " fields in line " +:+
          show_nat (S (length rs)) +:+ ", saw " +:+ show_nat (length r) +:+ String LF EmptyString))) /\
  ((1 <= length rs)%nat -> (length r <= n)%nat ->
   tokenize (write_csv (rs ++ [r])) = Ok (rs ++ [r ++ repeat "" (n - length r)])).
Proof.
  intros Hn Hrs Hr. unfold tokenize. rewrite (last_record_run rs r n Hn Hrs Hr).
  unfold end_line. cbn [records fields file_lines]. destruct (last rs) as [prev|] eqn:E.
  - apply last_Some_elem_of, list_elem_of_In, Hrs in E as ->. split; intros H1 H2.
    + apply Nat.leb_le in H1. apply Nat.ltb_lt in H2. rewrite H1, H2. reflexivity.
    + apply Nat.ltb_ge in H2. rewrite H2, andb_false_r. reflexivity.
  - apply last_None in E as ->. simpl. split; intros; lia.
Qed.

Example tokenize_ragged_witness :
  tokenize (write_csv ([["a"; "b"]; ["1"; "2"]] ++ [["3"; "4"; "5"]])) =
    Err (tokenizing_error ("Expected " +:+ show_nat 2 +:+ " fields in line " +:+
          show_nat 3 +:+ ", saw " +:+ show_nat 3 +:+ String LF EmptyString)) /\
  tokenize (write_csv ([["a"; "b"]] ++ [["3"]])) = Ok ([["a"; "b"]] ++ [["3"; ""]]).
Proof.
  assert (H : forall rs, (forall r', In r' rs -> r' = ["a"; "b"] \/ r' = ["1"; "2"]) ->
            forall r', In r' rs -> length r' = 2)
    by (intros rs Hrs r' Hin; now destruct (Hrs r' Hin) as [-> | ->]).
  split.
  - apply (tokenize_ragged [["a"; "b"]; ["1"; "2"]] ["3"; "4"; "5"] 2);
      [lia | apply H; intros r' [<-|[<-|[]]]; auto | discriminate | simpl; lia | simpl; lia].
  - apply (tokenize_ragged [["a"; "b"]] ["3"] 2);
      [lia | apply H; intros r' [<-|[]]; auto | discriminate | simpl; lia | simpl; lia].
Defined.

(** Unterminated quote.  A quote that opens a record and is never
    closed raises pandas' [ParserError] "EOF inside string starting at
    row k", k the number of lines read before it. *)
Theorem tokenize_open_quote rs n s :
  (1 <= n)%nat -> (forall r, In r rs -> length r = n) -> ~ In QUOTE s ->
  tokenize (write_csv rs ++ QUOTE :: s) =
  Err (tokenizing_error ("EOF inside string starting at row " +:+ show_nat (length rs))).
Proof.
  intros Hn Hrs Hq. unfold tokenize. rewrite run_tok_app, (csv_run0 rs n Hn Hrs). simpl.
  rewrite open_quote_run by (reflexivity || assumption). reflexivity.
Qed.

Example tokenize_open_quote_witness :
  tokenize (write_csv [["a"]; ["1"]] ++ QUOTE :: String.list_ascii_of_string "x,y") =
  Err (tokenizing_error ("EOF inside string starting at row " +:+ show_nat 2)).
Proof.
  apply (tokenize_open_quote [["a"]; ["1"]] 1); [lia | intros r [<-|[<-|[]]]; reflexivity |].
  simpl. intros [H|[H|[H|[]]]]; discriminate.
Defined.

(** C21: Rectangular records.  Whatever the text, when the tokenizer
    succeeds every data record has the number of fields of the first data
    record, which is at least the header's: [end_line] pads the short ones
    and rejects the long ones, so the columns of [read_csv] are
    well-defined. *)
Theorem tokenize_rect s rs : tokenize s = Ok rs -> rect rs.
Proof.
  unfold tokenize. destruct (run_tok tok0 s) as [t|] eqn:E; [|discriminate]. simpl.
  apply finish_rect. refine (run_tok_rect _ _ _ _ E). exact I.
Qed.

Definition ragged_text : list ascii :=
  String.list_ascii_of_string ("a,b" +:+ String LF ("1,2,3" +:+ String LF ("4" +:+ String LF ""))).

Example tokenize_rect_witness :
  tokenize ragged_text = Ok [["a"; "b"]; ["1"; "2"; "3"]; ["4"; ""; ""]] /\
  rect [["a"; "b"]; ["1"; "2"; "3"]; ["4"; ""; ""]].
Proof.
  assert (E : tokenize ragged_text = Ok [["a"; "b"]; ["1"; "2"; "3"]; ["4"; ""; ""]])
    by (vm_compute; reflexivity).
  split; [exact E | exact (tokenize_rect _ _ E)].
Defined.

End Tokenizer.
