(* ===== verification/Header.v ===== *)
(** * Header: the column names [pd.read_csv] (line 11) gives the frame

    The first record of the file is the header.  pandas' C parser
    ([TextReader._get_header] in [parsers.pyx], pandas 2) names an empty
    header field ["Unnamed: i"], [i] its position, and then makes the
    names distinct: it visits the named columns first and the unnamed ones
    after them ([col_loop_order]), keeps a dictionary [counts] of the names
    it has given, and renames a column whose name is already counted with
    the [while] loop

      [while cur_count > 0:
           counts[old_col] = cur_count + 1
           col = f"{old_col}.{cur_count}"
           if col in this_header: cur_count += 1
           else: cur_count = counts.get(col, 0)]

    which reads the header list [this_header] it is rewriting.  The loop is
    [mangle_loop], with fuel; [counts] is a [gmap string nat], the header a
    list updated by index with stdpp's [<[i:=x]>] (Python's
    [this_header[i] = col] on an index in range).

    The file proves that the loop always ends (with fuel the number of
    columns plus two, and the same names for all larger fuel),
    that the names it gives are pairwise distinct, and that a header of
    distinct non-empty names is kept as it is. *)

From S2P Require Import Prelude Tokenizer.
From stdpp Require Import gmap pretty.

Module Header.

Import Tokenizer.

(** ** Definitions *)

(** [if name == "": name = f"Unnamed: {i}"]. *)
Definition unnamed_name (i : nat) (w : string) : string :=
  if bool_decide (w = "") then "Unnamed: " +:+ show_nat i else w.

Definition raw_header (ws : list string) : list string := imap unnamed_name ws.

Definition is_unnamed (ws : list string) (i : nat) : bool := bool_decide (ws !! i = Some "").

(** [col_loop_order]: the named columns, then [unnamed_col_indices]. *)
Definition col_loop_order (ws : list string) : list nat :=
  List.filter (fun i => negb (is_unnamed ws i)) (seq 0 (length ws)) ++
  List.filter (is_unnamed ws) (seq 0 (length ws)).

(** [counts.get(col, 0)]. *)
Definition counts_get (counts : gmap string nat) (k : string) : nat := default 0 (counts !! k).

(** [f"{old_col}.{cur_count}"]. *)
Definition mangled (old : string) (k : nat) : string := old +:+ "." +:+ show_nat k.

(** The [while cur_count > 0] loop; [None] when the fuel runs out. *)
Fixpoint mangle_loop (fuel : nat) (h : list string) (counts : gmap string nat)
    (old col : string) (cur : nat) : option (string * nat * gmap string nat) :=
  match fuel with
  | 0 => None
  | S fuel' =>
      if cur =? 0 then Some (col, cur, counts)
      else
        let counts' := <[old := S cur]> counts in
        let col' := mangled old cur in
        if bool_decide (col' ∈ h) then mangle_loop fuel' h counts' old col' (S cur)
        else mangle_loop fuel' h counts' old col' (counts_get counts' col')
  end.

(** The body of [for i in col_loop_order]: [this_header[i] = col] and
    [counts[col] = cur_count + 1].  The loop visits only indices of the
    header, so the [None] case of [h !! i] is not reached. *)
Definition mangle_column (fuel : nat) (hc : list string * gmap string nat) (i : nat)
    : option (list string * gmap string nat) :=
  let '(h, counts) := hc in
  match h !! i with
  | None => Some (h, counts)
  | Some col =>
      '(col', cur, counts') ← mangle_loop fuel h counts col col (counts_get counts col);
      Some (<[i := col']> h, <[col' := S cur]> counts')
  end.

Fixpoint mangle_all (fuel : nat) (hc : list string * gmap string nat) (order : list nat)
    : option (list string * gmap string nat) :=
  match order with
  | [] => Some hc
  | i :: order' => hc' ← mangle_column fuel hc i; mangle_all fuel hc' order'
  end.

(** The column names of the frame. *)
Definition header_names (fuel : nat) (ws : list string) : option (list string) :=
  fst <$> mangle_all fuel (raw_header ws, ∅) (col_loop_order ws).

(** ** The loop *)

#[export] Instance mangled_inj old : Inj eq eq (mangled old).
Proof.
  intros k1 k2 E. unfold mangled, show_nat in E.
  apply (inj (String.append old)), (inj (String.append ".")), (inj pretty) in E. lia.
Qed.

Lemma append_self_r (s t : string) : s +:+ t = s -> t = "".
Proof. induction s as [|c s IH]; simpl; [done|]. intros [= E]. auto. Qed.

Lemma mangled_neq old k : mangled old k <> old.
Proof. unfold mangled. intros E%append_self_r. discriminate. Qed.

Section Loop.
Variables (h : list string) (old : string) (counts0 : gmap string nat) (c0 : nat).
Hypothesis Hkeys : forall k v, counts0 !! k = Some v -> k ∈ h.
Hypothesis Hc0 : 0 < c0.

(** Distinct names [old.k] in [h]: no more of them than [h] has entries. *)
Lemma run_bound j : (forall k, c0 <= k < c0 + j -> mangled old k ∈ h) -> j <= length h.
Proof.
  intros H. rewrite <- (length_seq j c0), <- (length_map (mangled old)).
  apply NoDup_incl_length.
  - apply (Finite.Injective_map_NoDup (mangled_inj old)), seq_NoDup.
  - intros s (k & <- & Hk%in_seq)%in_map_iff. apply list_elem_of_In, H. lia.
Qed.

(** The loop tries [old.c0], [old.(c0+1)], ... until a name not in the
    header; it then reads [counts] for that name, finds nothing and stops. *)
Lemma loop_run fuel : forall j counts col,
  (counts = counts0 \/ exists v, counts = <[old := v]> counts0) ->
  (forall k, c0 <= k < c0 + j -> mangled old k ∈ h) -> length h + 2 <= fuel + j ->
  exists col' v, mangle_loop fuel h counts old col (c0 + j) = Some (col', 0, <[old := v]> counts0) /\
    0 < v /\ col' ∉ h.
Proof.
  induction fuel as [|f IH]; intros j counts col Hcnt Hrun Hf.
  - pose proof (run_bound j Hrun). lia.
  - pose proof (run_bound j Hrun) as Hj. simpl.
    destruct (Nat.eqb_spec (c0 + j) 0) as [|_]; [lia|].
    assert (Hc : <[old := S (c0 + j)]> counts = <[old := S (c0 + j)]> counts0)
      by (destruct Hcnt as [->|[v ->]]; [done|apply insert_insert_eq]).
    rewrite Hc. case_bool_decide as Hin.
    + assert (E : S (c0 + j) = c0 + S j) by lia. rewrite E.
      apply IH; [right; eauto| |lia].
      intros k Hk. destruct (decide (k = c0 + j)) as [->|]; [done|apply Hrun; lia].
    + assert (Hn : counts_get (<[old := S (c0 + j)]> counts0) (mangled old (c0 + j)) = 0).
      { unfold counts_get. rewrite lookup_insert_ne by (apply not_eq_sym, mangled_neq).
        destruct (counts0 !! _) eqn:E; [|done]. apply Hkeys in E. contradiction. }
      rewrite Hn. destruct f as [|f]; [lia|]. simpl. exists (mangled old (c0 + j)), (S (c0 + j)).
      split_and!; [done|lia|done].
Qed.

End Loop.

Lemma mangle_loop_mono fuel h counts old col cur r :
  mangle_loop fuel h counts old col cur = Some r -> mangle_loop (S fuel) h counts old col cur = Some r.
Proof.
  revert counts col cur. induction fuel as [|f IH]; intros counts col cur; [discriminate|].
  cbn [mangle_loop]. destruct (cur =? 0); [done|]. case_bool_decide; apply IH.
Qed.

Lemma mangle_loop_le fuel fuel' h counts old col cur r :
  fuel <= fuel' -> mangle_loop fuel h counts old col cur = Some r -> mangle_loop fuel' h counts old col cur = Some r.
Proof. induction 1; auto using mangle_loop_mono. Qed.

(** ** The columns *)

(** What holds after the columns [done] have been renamed: every counted
    name is the name of a renamed column, with a positive count; every
    renamed column's name is counted; renamed columns have distinct names. *)
Definition names_inv (done : list nat) (h : list string) (counts : gmap string nat) : Prop :=
  (forall k v, counts !! k = Some v -> 0 < v /\ exists j, In j done /\ h !! j = Some k) /\
  (forall j k, In j done -> h !! j = Some k -> is_Some (counts !! k)) /\
  (forall j1 j2 k, In j1 done -> In j2 done -> h !! j1 = Some k -> h !! j2 = Some k -> j1 = j2).

Lemma names_inv_empty h : names_inv [] h ∅.
Proof. split_and!; intros *; rewrite ?lookup_empty; done. Qed.

Lemma names_inv_ext d1 d2 h counts :
  (forall j, In j d1 <-> In j d2) -> names_inv d1 h counts -> names_inv d2 h counts.
Proof.
  intros E (Ha & Hb & Hc). split_and!.
  - intros k v Hk. destruct (Ha k v Hk) as (? & j & ? & ?). split; [done|]. exists j. rewrite <- E. done.
  - intros j k Hj. apply Hb, E, Hj.
  - intros j1 j2 k H1 H2. apply Hc; apply E; done.
Qed.

(** Column [i] gets the name [col'], which no renamed column has, and
    [counts[col'] = 1] over counts [counts1] whose names are held by
    renamed columns. *)
Lemma names_inv_step done h counts counts1 i col' :
  names_inv done h counts -> ~ In i done -> i < length h ->
  (forall j, In j done -> h !! j <> Some col') ->
  (forall k v, counts1 !! k = Some v -> 0 < v /\ exists j, In j done /\ h !! j = Some k) ->
  (forall k, is_Some (counts !! k) -> is_Some (counts1 !! k)) ->
  names_inv (i :: done) (<[i := col']> h) (<[col' := 1]> counts1).
Proof.
  intros (Ha & Hb & Hc) Hi Hlt Hnew Ha1 Hb1.
  assert (Hdone : forall j, In j done -> <[i := col']> h !! j = h !! j)
    by (intros j Hj; apply list_lookup_insert_ne; intros ->; contradiction).
  split_and!.
  - intros k v. rewrite lookup_insert_Some. intros [[<- <-]|[Hne Hk]].
    + split; [lia|]. exists i. split; [now left|]. by apply list_lookup_insert_eq.
    + destruct (Ha1 k v Hk) as (? & j & Hj & Hjk). split; [done|].
      exists j. split; [now right|]. by rewrite Hdone.
  - intros j k [<-|Hj] Hjk.
    + rewrite list_lookup_insert_eq in Hjk by done. injection Hjk as <-. by rewrite lookup_insert_eq.
    + rewrite Hdone in Hjk by done. apply lookup_insert_is_Some'. right. eauto.
  - intros j1 j2 k [<-|H1] [<-|H2] E1 E2; try done.
    + rewrite list_lookup_insert_eq in E1 by done. rewrite Hdone in E2 by done. injection E1 as ->.
      exfalso. eapply Hnew; eauto.
    + rewrite list_lookup_insert_eq in E2 by done. rewrite Hdone in E1 by done. injection E2 as ->.
      exfalso. eapply Hnew; eauto.
    + rewrite Hdone in E1, E2 by done. eauto.
Qed.

(** One column: it keeps its name when no renamed column has it, and
    the invariant is kept. *)
Lemma mangle_column_ok fuel done h counts i :
  names_inv done h counts -> ~ In i done -> i < length h -> length h + 2 <= fuel ->
  exists h' counts', mangle_column fuel (h, counts) i = Some (h', counts') /\
    names_inv (i :: done) h' counts' /\ length h' = length h /\
    ((forall j, In j done -> h !! j <> h !! i) -> h' = h).
Proof.
  intros Hinv Hi Hlt Hf. pose proof Hinv as (Ha & Hb & Hc).
  destruct (lookup_lt_is_Some_2 h i Hlt) as [col Hcol]. unfold mangle_column. rewrite Hcol.
  destruct (counts !! col) as [v|] eqn:Ecol.
  - destruct (Ha col v Ecol) as (Hv & j0 & Hj0 & Hhj0).
    assert (Hkeys : forall k w, counts !! k = Some w -> k ∈ h).
    { intros k w Hk. destruct (Ha k w Hk) as (_ & j & _ & Hj). eapply list_elem_of_lookup_2, Hj. }
    destruct (loop_run h col counts v Hkeys Hv fuel 0 counts col) as (col' & w & Hrun & Hw & Hnot);
      [now left | intros; lia | lia |].
    rewrite Nat.add_0_r in Hrun. unfold counts_get at 1. rewrite Ecol. simpl. rewrite Hrun. simpl.
    eexists _, _. split; [reflexivity|]. split_and!.
    + apply (names_inv_step done h counts); try done.
      * intros j _ Hj. apply Hnot. eapply list_elem_of_lookup_2, Hj.
      * intros k u. rewrite lookup_insert_Some. intros [[<- <-]|[_ Hk]]; [split; [done|eauto]|].
        apply (Ha k u Hk).
      * intros k Hk. apply lookup_insert_is_Some'. by right.
    + apply length_insert.
    + intros Hdist. exfalso. apply (Hdist j0 Hj0). congruence.
  - destruct fuel as [|fuel]; [lia|]. unfold counts_get. rewrite Ecol. simpl.
    rewrite (list_insert_id h i col Hcol).
    eexists _, _. split; [reflexivity|]. split_and!; [|done|done].
    rewrite <- (list_insert_id h i col Hcol) at 1. apply (names_inv_step done h counts); try done.
    + intros j Hj Hjc. destruct (Hb j col Hj Hjc) as [? E]. congruence.
Qed.

Lemma mangle_all_ok fuel order : forall done h counts,
  names_inv done h counts -> NoDup order ->
  (forall i, In i order -> ~ In i done /\ i < length h) -> length h + 2 <= fuel ->
  exists h' counts', mangle_all fuel (h, counts) order = Some (h', counts') /\
    names_inv (order ++ done) h' counts' /\ length h' = length h /\ (NoDup h -> h' = h).
Proof.
  induction order as [|i order IH]; intros done h counts Hinv Hnd Hord Hf.
  - exists h, counts. done.
  - apply NoDup_cons in Hnd as [Hi Hnd]. rewrite list_elem_of_In in Hi. destruct (Hord i (or_introl eq_refl)) as [Hid Hlt].
    destruct (mangle_column_ok fuel done h counts i Hinv Hid Hlt Hf) as (h1 & c1 & E1 & Hinv1 & Hl1 & Hid1).
    destruct (IH (i :: done) h1 c1 Hinv1 Hnd) as (h' & c' & E' & Hinv' & Hl' & Hid');
      [|lia|].
    { intros j Hj. destruct (Hord j (or_intror Hj)) as [Hjd Hjl].
      split; [intros [->|]; contradiction|lia]. }
    exists h', c'. split_and!; [cbn [mangle_all]; rewrite E1; exact E' | |lia|].
    + eapply names_inv_ext, Hinv'. intros j. rewrite !in_app_iff. simpl. tauto.
    + intros Hh. assert (h1 = h) as ->; [|auto].
      apply Hid1. intros j Hj E. destruct (lookup_lt_is_Some_2 h i Hlt) as [x Hx].
      rewrite Hx in E. pose proof (NoDup_lookup h j i x Hh E Hx). subst. contradiction.
Qed.

Lemma col_loop_order_In ws i : In i (col_loop_order ws) <-> i < length ws.
Proof.
  unfold col_loop_order. rewrite in_app_iff, !filter_In, in_seq.
  destruct (is_unnamed ws i); simpl; intuition lia.
Qed.

Lemma col_loop_order_NoDup ws : NoDup (col_loop_order ws).
Proof.
  unfold col_loop_order. apply NoDup_app. split_and!.
  - apply NoDup_ListNoDup, Stdlib.Lists.List.NoDup_filter, seq_NoDup.
  - intros i Hi1 Hi2. apply list_elem_of_In, filter_In in Hi1, Hi2.
    destruct Hi1 as [_ E1], Hi2 as [_ E2]. rewrite E2 in E1. discriminate.
  - apply NoDup_ListNoDup, Stdlib.Lists.List.NoDup_filter, seq_NoDup.
Qed.

Lemma length_raw_header ws : length (raw_header ws) = length ws.
Proof. apply length_imap. Qed.

(** The names for enough fuel, with the invariant over all the columns. *)
Lemma header_names_ok fuel ws :
  length ws + 2 <= fuel ->
  exists h' counts', mangle_all fuel (raw_header ws, ∅) (col_loop_order ws) = Some (h', counts') /\
    NoDup h' /\ length h' = length ws /\ (NoDup (raw_header ws) -> h' = raw_header ws).
Proof.
  intros Hf. destruct (mangle_all_ok fuel (col_loop_order ws) [] (raw_header ws) ∅)
    as (h' & c' & E & (_ & _ & Hc) & Hl & Hid);
    [apply names_inv_empty | apply col_loop_order_NoDup | | rewrite length_raw_header; lia |].
  { intros i Hi. rewrite col_loop_order_In in Hi. rewrite length_raw_header. auto. }
  rewrite length_raw_header in Hl. exists h', c'. split_and!; [done| |done|done].
  apply NoDup_alt. intros i j x Hi Hj. rewrite app_nil_r in Hc.
  apply Hc with x; try done; apply col_loop_order_In; rewrite <- Hl; eapply lookup_lt_Some; eauto.
Qed.

Lemma mangle_column_le fuel fuel' hc i r :
  fuel <= fuel' -> mangle_column fuel hc i = Some r -> mangle_column fuel' hc i = Some r.
Proof.
  intros Hle. destruct hc as [h counts]. unfold mangle_column. destruct (h !! i); [|done].
  destruct (mangle_loop fuel _ _ _ _ _) as [[[col' cur] c']|] eqn:E; [|done].
  rewrite (mangle_loop_le _ _ _ _ _ _ _ _ Hle E). done.
Qed.

Lemma mangle_all_le fuel fuel' order : forall hc r,
  fuel <= fuel' -> mangle_all fuel hc order = Some r -> mangle_all fuel' hc order = Some r.
Proof.
  induction order as [|i order IH]; intros hc r Hle; simpl; [done|].
  destruct (mangle_column fuel hc i) eqn:E; [|done]. simpl.
  rewrite (mangle_column_le _ _ _ _ _ Hle E). simpl. apply IH, Hle.
Qed.

Lemma header_names_le fuel fuel' ws names :
  fuel <= fuel' -> header_names fuel ws = Some names -> header_names fuel' ws = Some names.
Proof.
  unfold header_names. intros Hle.
  destruct (mangle_all fuel _ _) as [r|] eqn:E; [|done].
  rewrite (mangle_all_le _ _ _ _ _ Hle E). done.
Qed.

Lemma raw_header_named ws : ~ In "" ws -> raw_header ws = ws.
Proof.
  intros Hne. apply list_eq. intros i. unfold raw_header. rewrite list_lookup_imap.
  destruct (ws !! i) as [w|] eqn:E; [|done]. simpl. unfold unnamed_name.
  case_bool_decide; [|done]. subst. exfalso. apply Hne, list_elem_of_In. eapply list_elem_of_lookup_2, E.
Qed.

(** ** Properties *)

(** C13: Termination of the renaming loop.  For every header the [while]
    loops of [_get_header] end: with fuel the number of columns plus two
    the model gives names, and the same names for any larger fuel. *)
Theorem header_names_total ws :
  exists names, forall fuel, length ws + 2 <= fuel -> header_names fuel ws = Some names.
Proof.
  destruct (header_names_ok (length ws + 2) ws) as (h' & c' & E & _); [lia|].
  exists h'. intros fuel Hf. apply (header_names_le (length ws + 2)); [done|].
  unfold header_names. rewrite E. done.
Qed.

(** C12: Distinct column names.  The names [read_csv] gives the columns
    are pairwise distinct, one per header field, whatever the header
    (repeated names, empty fields, names like ["a.1"] already present). *)
Theorem header_names_nodup fuel ws names :
  header_names fuel ws = Some names -> NoDup names /\ length names = length ws.
Proof.
  intros E. destruct (header_names_ok (fuel `max` (length ws + 2)) ws) as (h' & c' & E' & Hnd & Hl & _);
    [lia|].
  apply (header_names_le _ (fuel `max` (length ws + 2))) in E; [|lia].
  unfold header_names in E. rewrite E' in E. injection E as <-. done.
Qed.

(** pandas' [test_thorough_mangle_names]: ["a,a,a.3,a.1,a.2,a,a"] gives
    the columns [a, a.4, a.3, a.1, a.2, a.5, a.6]. *)
Example header_names_nodup_witness :
  header_names 9 ["a"; "a"; "a.3"; "a.1"; "a.2"; "a"; "a"] =
    Some ["a"; "a.4"; "a.3"; "a.1"; "a.2"; "a.5"; "a.6"] /\
  NoDup ["a"; "a.4"; "a.3"; "a.1"; "a.2"; "a.5"; "a.6"] /\
  length ["a"; "a.4"; "a.3"; "a.1"; "a.2"; "a.5"; "a.6"] = length ["a"; "a"; "a.3"; "a.1"; "a.2"; "a"; "a"].
Proof.
  assert (E : header_names 9 ["a"; "a"; "a.3"; "a.1"; "a.2"; "a"; "a"] =
              Some ["a"; "a.4"; "a.3"; "a.1"; "a.2"; "a.5"; "a.6"]) by (vm_compute; reflexivity).
  split; [exact E|]. exact (header_names_nodup _ _ _ E).
Defined.

(** A header of distinct non-empty names is kept as it is. *)
Theorem header_names_keep ws :
  NoDup ws -> ~ In "" ws -> header_names (length ws + 2) ws = Some ws.
Proof.
  intros Hnd Hne. destruct (header_names_ok (length ws + 2) ws) as (h' & c' & E & _ & _ & Hid); [lia|].
  rewrite raw_header_named in Hid by done.
  unfold header_names. rewrite raw_header_named in E |- * by done. rewrite E. simpl. f_equal. auto.
Qed.

Example header_names_keep_witness :
  header_names 4 ["make"; "price"] = Some ["make"; "price"].
Proof.
  apply (header_names_keep ["make"; "price"]).
  - apply NoDup_ListNoDup. repeat constructor; simpl; intuition discriminate.
  - simpl. intuition discriminate.
Defined.

End Header.
