(* ===== verification/Csv.v ===== *)
(** * Csv: the columns and dtypes of [pd.read_csv] (lines 11, 12, 15)

    After tokenizing ([Tokenizer]) and naming the columns ([Header]),
    pandas' C parser ([TextReader] in [parsers.pyx]) converts each column
    of tokens ([_convert_tokens]): it tries [int64] ([_try_int64], each
    token through [str_to_int64]), on an overflow [uint64], then [float64]
    ([_try_double], [precise_xstrtod] and the words for infinity), then
    [bool] ([_try_bool_flex], [to_boolean]), and keeps the strings
    ([object]) otherwise; a token of the NA set ([STR_NA_VALUES], [""]
    included) is missing in every dtype.  [_maybe_upcast] then turns an
    [int64] column holding the NA sentinel [INT64_MIN] into [float64] with
    NaN (only when the column had an NA token), and a [bool] column with
    a missing cell into [object].  Data rows
    wider than the header make the leading columns the index.

    Numbers are exact: a [float64] token is the rational its decimal text
    denotes (binary rounding and the exponent range of [precise_xstrtod]
    are not modelled, see the root header).

    The theorems: [str_to_int64] reads back the text of every [int64]
    ([parse_int64_pretty_ok]), so an [int64] table written as CSV is read
    back as itself; the dtype of a column of integers and NA words; every
    parsed cell is what its token denotes ([column_denotes]); a file of
    blank lines raises [EmptyDataError]; the frame [read_csv] gives is a
    table ([csv_wf]: distinct names, every column one cell per data
    record). *)

From S2P Require Import Prelude Tokenizer Header Frame.
From stdpp Require Import pretty.
From Stdlib Require Import Ascii ZArith.

Module Csv.

Import Tokenizer Header.

(** ** Tokens *)

(** pandas 2 [STR_NA_VALUES]. *)
Definition na_values : list string :=
  [""; "#N/A"; "#N/A N/A"; "#NA"; "-1.#IND"; "-1.#QNAN"; "-NaN"; "-nan"; "1.#IND"; "1.#QNAN";
   "<NA>"; "N/A"; "NA"; "NULL"; "NaN"; "None"; "n/a"; "nan"; "null"].

Definition is_na (w : string) : bool := bool_decide (w ∈ na_values).

(** [isspace_ascii]: space, tab, newline, vertical tab, form feed, carriage return. *)
Definition is_space (c : ascii) : bool :=
  let n := nat_of_ascii c in (n =? 32) || ((9 <=? n) && (n <=? 13)).

Fixpoint skip_spaces (s : list ascii) : list ascii :=
  match s with
  | c :: s' => if is_space c then skip_spaces s' else s
  | [] => []
  end.

Definition digit_val (c : ascii) : option Z :=
  let n := nat_of_ascii c in
  if (48 <=? n) && (n <=? 57) then Some (Z.of_nat n - 48)%Z else None.

(** The longest prefix of digits. *)
Fixpoint span_digits (s : list ascii) : list Z * list ascii :=
  match s with
  | c :: s' =>
      match digit_val c with
      | Some d => let '(ds, r) := span_digits s' in (d :: ds, r)
      | None => ([], s)
      end
  | [] => ([], [])
  end.

Definition digits_to_Z (ds : list Z) : Z := fold_left (fun acc d => 10 * acc + d)%Z ds 0%Z.

(** An optional sign: [true] for ['-']. *)
Definition take_sign (s : list ascii) : bool * list ascii :=
  match s with
  | "-"%char :: s' => (true, s')
  | "+"%char :: s' => (false, s')
  | _ => (false, s)
  end.

Definition int64_min : Z := (- 2 ^ 63)%Z.
Definition int64_max : Z := (2 ^ 63 - 1)%Z.

Inductive int_res := IntOk (z : Z) | IntOverflow | IntInvalid.

(** [str_to_int64]: spaces, a sign, at least one digit (an overflow is
    found while reading them), spaces, and nothing else. *)
Definition parse_int64 (s : list ascii) : int_res :=
  let '(neg, s2) := take_sign (skip_spaces s) in
  let '(ds, s3) := span_digits s2 in
  match ds with
  | [] => IntInvalid
  | _ =>
      let z := if neg then (- digits_to_Z ds)%Z else digits_to_Z ds in
      if (z <? int64_min)%Z || (int64_max <? z)%Z then IntOverflow
      else match skip_spaces s3 with [] => IntOk z | _ => IntInvalid end
  end.

(** [precise_xstrtod] with [decimal='.'], [sci='E'] and
    [skip_trailing]: spaces, a sign, digits, a ['.'] and digits (one digit
    at least), an exponent [e] or [E] with a sign and at least one digit
    (otherwise the [e] is not consumed), spaces, and nothing else. *)
Definition parse_double (s : list ascii) : option Q :=
  let '(neg, s2) := take_sign (skip_spaces s) in
  let '(ids, s3) := span_digits s2 in
  let '(fds, s4) := match s3 with "."%char :: r => span_digits r | _ => ([], s3) end in
  let '(e, s5) :=
    match s4 with
    | c :: r =>
        if Ascii.eqb c "e" || Ascii.eqb c "E" then
          let '(eneg, r1) := take_sign r in
          let '(eds, r2) := span_digits r1 in
          match eds with
          | [] => (0%Z, s4)
          | _ => (if eneg then (- digits_to_Z eds)%Z else digits_to_Z eds, r2)
          end
        else (0%Z, s4)
    | [] => (0%Z, [])
    end in
  match ids ++ fds, skip_spaces s5 with
  | _ :: _, [] =>
      let m := digits_to_Z (ids ++ fds) in
      let q := (inject_Z (if neg then - m else m)%Z * 10 ^ (e - Z.of_nat (length fds))%Z)%Q in
      Some q
  | _, _ => None
  end.

(** [strcasecmp] against a lower-case word. *)
Definition lower (c : ascii) : ascii :=
  let n := nat_of_ascii c in if (65 <=? n) && (n <=? 90) then ascii_of_nat (n + 32) else c.

Definition eq_nocase (w : string) (lw : string) : bool :=
  bool_decide (map lower (String.list_ascii_of_string w) = String.list_ascii_of_string lw).

(** [cinf], [cposinf], [cinfty], [cposinfty]; [cneginf], [cneginfty]. *)
Definition is_posinf (w : string) : bool :=
  eq_nocase w "inf" || eq_nocase w "+inf" || eq_nocase w "infinity" || eq_nocase w "+infinity".

Definition is_neginf (w : string) : bool := eq_nocase w "-inf" || eq_nocase w "-infinity".

(** [_true_values], [_false_values], then [to_boolean]. *)
Definition true_values : list string := ["True"; "TRUE"; "true"].
Definition false_values : list string := ["False"; "FALSE"; "false"].

Definition to_boolean (w : string) : option bool :=
  if eq_nocase w "true" then Some true else if eq_nocase w "false" then Some false else None.

(** ** Columns *)

Inductive fval := Fin (q : Q) | PosInf | NegInf | FNaN.

Inductive ocell := OStr (s : string) | OBool (b : bool) | ONaN.

(** A parsed column by dtype.  [POverflow] is a column in which
    [_try_int64] met an integer beyond [int64]: pandas then goes through
    [_try_uint64] and its overflow paths, which the model does not follow;
    the tokens are kept and no dtype is given. *)
Inductive pcolumn :=
| PInt64 (zs : list Z)
| POverflow (ws : list string)
| PFloat64 (xs : list fval)
| PBool (bs : list bool)
| PObject (cs : list ocell).

Inductive int_try := TryInts (zs : list Z) | TryOverflow | TryInvalid.

(** [_try_int64_nogil]: an NA token stores the sentinel [INT64_MIN]; the
    first token that is not an integer stops the loop with its error. *)
Fixpoint try_int64 (ws : list string) : int_try :=
  match ws with
  | [] => TryInts []
  | w :: ws' =>
      let z := if is_na w then IntOk int64_min else parse_int64 (String.list_ascii_of_string w) in
      match z with
      | IntOk z => match try_int64 ws' with TryInts zs => TryInts (z :: zs) | r => r end
      | IntOverflow => TryOverflow
      | IntInvalid => TryInvalid
      end
  end.

(** The [na_count] [_try_int64] returns: the NA tokens of the column. *)
Definition na_count (ws : list string) : nat := length (List.filter is_na ws).

(** [_maybe_upcast] on [int64], which [_convert_column_data] calls only
    when [na_count > 0]: [mask = arr == na_value]; if [mask.any()] the
    column becomes [float64] with NaN under the mask. *)
Definition maybe_upcast_int (na : nat) (zs : list Z) : pcolumn :=
  if (0 <? na)%nat && existsb (fun z => (z =? int64_min)%Z) zs
  then PFloat64 (map (fun z => if (z =? int64_min)%Z then FNaN else Fin (inject_Z z)) zs)
  else PInt64 zs.

(** [_try_double]: NA, a number, or a word for infinity. *)
Definition double_cell (w : string) : option fval :=
  if is_na w then Some FNaN
  else match parse_double (String.list_ascii_of_string w) with
       | Some q => Some (Fin q)
       | None => if is_posinf w then Some PosInf else if is_neginf w then Some NegInf else None
       end.

Fixpoint try_double (ws : list string) : option (list fval) :=
  match ws with
  | [] => Some []
  | w :: ws' => x ← double_cell w; xs ← try_double ws'; Some (x :: xs)
  end.

(** [_try_bool_flex_nogil]; [None] in the list is the NA sentinel. *)
Definition bool_cell (w : string) : option (option bool) :=
  if is_na w then Some None
  else if bool_decide (w ∈ true_values) then Some (Some true)
  else if bool_decide (w ∈ false_values) then Some (Some false)
  else Some <$> to_boolean w.

Fixpoint try_bool (ws : list string) : option (list (option bool)) :=
  match ws with
  | [] => Some []
  | w :: ws' => b ← bool_cell w; bs ← try_bool ws'; Some (b :: bs)
  end.

Fixpoint all_some {A} (l : list (option A)) : option (list A) :=
  match l with
  | [] => Some []
  | x :: l' => y ← x; ys ← all_some l'; Some (y :: ys)
  end.

(** [_maybe_upcast] on [bool]: a missing cell makes the column [object]. *)
Definition maybe_upcast_bool (bs : list (option bool)) : pcolumn :=
  match all_some bs with
  | Some bs' => PBool bs'
  | None => PObject (map (fun b => match b with Some b => OBool b | None => ONaN end) bs)
  end.

(** [_string_convert]. *)
Definition string_convert (ws : list string) : pcolumn :=
  PObject (map (fun w => if is_na w then ONaN else OStr w) ws).

(** [_convert_tokens] followed by [_maybe_upcast]. *)
Definition convert_column (ws : list string) : pcolumn :=
  match try_int64 ws with
  | TryInts zs => maybe_upcast_int (na_count ws) zs
  | TryOverflow => POverflow ws
  | TryInvalid =>
      match try_double ws with
      | Some xs => PFloat64 xs
      | None =>
          match try_bool ws with
          | Some bs => maybe_upcast_bool bs
          | None => string_convert ws
          end
      end
  end.

(** ** The frame *)

Record csv_frame := CsvFrame {
  index_cols : list pcolumn;
  columns : list (string * pcolumn)
}.

Definition column_tokens (rows : list (list string)) (j : nat) : list string :=
  map (fun r => nth j r "") rows.

(** [pd.read_csv]: the header is the first record; a file with no record
    raises [EmptyDataError] (a [ValueError]); the field count is the first
    data row's ([TextReader._get_header]), and fields beyond the header's
    count are leading index columns; a file with no data row has empty
    [object] columns.  The names come from [header_names] with the fuel of
    [Header.header_names_total]. *)
Definition read_csv (text : list ascii) : result csv_frame :=
  let* recs := tokenize text in
  match recs with
  | [] => Err (ValueError "No columns to parse from file")
  | hdr :: rows =>
      let field_count := match rows with [] => length hdr | r :: _ => length r end in
      let lead := field_count - length hdr in
      let names := default hdr (header_names (length hdr + 2) hdr) in
      let conv := match rows with [] => fun _ => PObject [] | _ => convert_column end in
      let cols := map (fun j => conv (column_tokens rows j)) (seq 0 field_count) in
      Ok (CsvFrame (firstn lead cols) (zip names (skipn lead cols)))
  end.

Definition dtype_name (c : pcolumn) : option string :=
  match c with
  | PInt64 _ => Some "int64" | POverflow _ => None | PFloat64 _ => Some "float64"
  | PBool _ => Some "bool" | PObject _ => Some "object"
  end.

(** [df.dtypes] (line 15). *)
Definition dtypes (cf : csv_frame) : list (string * option string) :=
  map (fun '(n, c) => (n, dtype_name c)) (columns cf).

Definition col_take (n : nat) (c : pcolumn) : pcolumn :=
  match c with
  | PInt64 zs => PInt64 (firstn n zs) | POverflow ws => POverflow (firstn n ws)
  | PFloat64 xs => PFloat64 (firstn n xs) | PBool bs => PBool (firstn n bs)
  | PObject cs => PObject (firstn n cs)
  end.

(** [df.head()] (line 12): the first five rows. *)
Definition head (cf : csv_frame) : csv_frame :=
  CsvFrame (map (col_take 5) (index_cols cf)) (map (fun '(n, c) => (n, col_take 5 c)) (columns cf)).

(** The number of cells of a parsed column, and the shape of a frame:
    its column names pairwise distinct and each of its columns, index
    columns included, of [n] cells. *)
Definition pcol_len (c : pcolumn) : nat :=
  match c with
  | PInt64 zs => length zs | POverflow ws => length ws | PFloat64 xs => length xs
  | PBool bs => length bs | PObject cs => length cs
  end.

Definition csv_wf (n : nat) (cf : csv_frame) : bool :=
  bool_decide (NoDup (map fst (columns cf))) &&
  forallb (fun c => pcol_len c =? n) (index_cols cf ++ map snd (columns cf)).

(** ** Lemmas *)

Lemma digit_val_char m : (m < 10)%N -> digit_val (pretty_N_char m) = Some (Z.of_N m).
Proof.
  intros Hm. assert (m = 0 \/ m = 1 \/ m = 2 \/ m = 3 \/ m = 4 \/ m = 5 \/ m = 6 \/ m = 7 \/ m = 8 \/ m = 9)%N
    as H by lia.
  repeat destruct H as [->|H]; try reflexivity. subst. reflexivity.
Qed.

(** [pretty_N_go x s] puts the digits of [x] before [s]. *)
Lemma span_pretty_N_go x : forall s ds r,
  span_digits (String.list_ascii_of_string s) = (ds, r) ->
  exists dx, span_digits (String.list_ascii_of_string (pretty_N_go x s)) = (dx ++ ds, r) /\
    digits_to_Z dx = Z.of_N x.
Proof.
  induction (N.lt_wf_0 x) as [x _ IH]; intros s ds r Hs.
  destruct (decide (x = 0%N)) as [->|Hx].
  - exists []. rewrite pretty_N_go_0. done.
  - rewrite pretty_N_go_step by lia.
    assert (Hs' : span_digits (String.list_ascii_of_string (String (pretty_N_char (x `mod` 10)) s)) =
                  (Z.of_N (x `mod` 10) :: ds, r)).
    { simpl. rewrite digit_val_char by (apply N.mod_lt; lia). rewrite Hs. done. }
    destruct (IH (x `div` 10)%N (N.div_lt x 10 ltac:(lia) ltac:(lia)) _ _ _ Hs') as (dx & Hspan & Hval).
    exists (dx ++ [Z.of_N (x `mod` 10)]). rewrite <- app_assoc. split; [done|].
    unfold digits_to_Z in *. rewrite fold_left_app. simpl. rewrite Hval.
    pose proof (N.div_mod x 10 ltac:(lia)). lia.
Qed.

Lemma digit_head c d s :
  digit_val c = Some d -> skip_spaces (c :: s) = c :: s /\ take_sign (c :: s) = (false, c :: s).
Proof. destruct c as [[] [] [] [] [] [] [] []]; cbn; intros H; (discriminate || auto). Qed.

Lemma span_cons s d ds r :
  span_digits s = (d :: ds, r) -> exists c s', s = c :: s' /\ digit_val c = Some d.
Proof.
  destruct s as [|c s]; simpl; [discriminate|].
  destruct (digit_val c) eqn:E; [|discriminate]. destruct (span_digits s).
  intros [= -> _ _]. eauto.
Qed.

(** The text of a positive number: digits and nothing else. *)
Lemma pretty_pos_digits p :
  exists c s' dx, String.list_ascii_of_string (pretty (Npos p)) = c :: s' /\
    skip_spaces (c :: s') = c :: s' /\ take_sign (c :: s') = (false, c :: s') /\
    span_digits (c :: s') = (dx, []) /\ dx <> [] /\ digits_to_Z dx = Z.pos p.
Proof.
  unfold pretty, pretty_N. rewrite decide_False by lia.
  destruct (span_pretty_N_go (Npos p) "" [] [] eq_refl) as (dx & Hspan & Hval).
  rewrite app_nil_r in Hspan. destruct dx as [|d ds]; [discriminate|].
  destruct (span_cons _ _ _ _ Hspan) as (c & s' & Es & Hc). rewrite Es in Hspan |- *.
  destruct (digit_head c d s' Hc). exists c, s', (d :: ds). split_and!; done.
Qed.

Definition in_int64 (z : Z) : Prop := (int64_min <= z <= int64_max)%Z.

Lemma parse_int64_pretty_ok z : in_int64 z -> parse_int64 (String.list_ascii_of_string (pretty z)) = IntOk z.
Proof.
  unfold in_int64, parse_int64. intros Hz. destruct z as [|p|p]; [reflexivity|..].
  - destruct (pretty_pos_digits p) as (c & s' & dx & E & H1 & H2 & H3 & Hne & Hv).
    change (pretty (Z.pos p)) with (pretty (Npos p)). rewrite E, H1, H2, H3.
    destruct dx; [done|]. rewrite <- Hv. simpl.
    rewrite (proj2 (Z.ltb_ge _ _)), (proj2 (Z.ltb_ge _ _)) by lia. reflexivity.
  - destruct (pretty_pos_digits p) as (c & s' & dx & E & H1 & H2 & H3 & Hne & Hv).
    change (String.list_ascii_of_string (pretty (Z.neg p)))
      with ("-"%char :: String.list_ascii_of_string (pretty (Npos p))).
    rewrite E. change (skip_spaces ("-"%char :: c :: s')) with ("-"%char :: c :: s').
    change (take_sign ("-"%char :: c :: s')) with (true, c :: s'). cbv iota beta. rewrite H3.
    destruct dx as [|d dx]; [done|]. cbv iota beta zeta.
    assert (Hn : (- digits_to_Z (d :: dx))%Z = Z.neg p) by lia. rewrite Hn.
    rewrite (proj2 (Z.ltb_ge _ _)), (proj2 (Z.ltb_ge _ _)) by lia. reflexivity.
Qed.

(** No NA word is an integer. *)
Lemma na_not_int w : is_na w = true -> parse_int64 (String.list_ascii_of_string w) = IntInvalid.
Proof.
  unfold is_na. rewrite bool_decide_eq_true, list_elem_of_In. simpl.
  intros H. repeat destruct H as [<-|H]; try reflexivity. contradiction.
Qed.

Lemma pretty_not_na z : in_int64 z -> is_na (pretty z) = false.
Proof.
  intros Hz. destruct (is_na (pretty z)) eqn:E; [|done].
  apply na_not_int in E. rewrite parse_int64_pretty_ok in E by done. discriminate.
Qed.

(** The text of an integer cell, [""] for a missing one. *)
Definition int_text (c : option Z) : string := match c with Some z => pretty z | None => "" end.

Lemma try_int64_text cs :
  (forall z, In (Some z) cs -> in_int64 z) -> try_int64 (map int_text cs) = TryInts (map (default int64_min) cs).
Proof.
  induction cs as [|c cs IH]; intros Hr; [done|]. simpl.
  rewrite IH by (intros z Hz; apply Hr; now right).
  destruct c as [z|]; [|reflexivity]. simpl.
  rewrite pretty_not_na, parse_int64_pretty_ok by (apply Hr; now left). reflexivity.
Qed.

Lemma int_column_ok zs :
  (forall z, In z zs -> in_int64 z /\ z <> int64_min) -> convert_column (map pretty zs) = PInt64 zs.
Proof.
  intros Hz. unfold convert_column.
  replace (map pretty zs) with (map int_text (map Some zs)) by (rewrite map_map; reflexivity).
  rewrite try_int64_text by (intros z (z' & [= <-] & Hin)%in_map_iff; apply Hz, Hin).
  replace (map (default int64_min) (map Some zs)) with zs by (rewrite map_map; symmetry; apply map_id).
  unfold maybe_upcast_int. replace (existsb _ zs) with false; [by rewrite andb_false_r|]. symmetry. apply not_true_iff_false.
  rewrite existsb_exists. intros (z & Hin & E%Z.eqb_eq). exact (proj2 (Hz z Hin) E).
Qed.

(** Written records with a header of distinct names: the columns are the
    converted columns of tokens, under the header's names. *)
Lemma read_csv_write hdr rows :
  NoDup hdr -> ~ In "" hdr -> hdr <> [] -> rows <> [] -> (forall r, In r rows -> length r = length hdr) ->
  read_csv (write_csv (hdr :: rows)) =
  Ok (CsvFrame [] (zip hdr (map (fun j => convert_column (column_tokens rows j)) (seq 0 (length hdr))))).
Proof.
  intros Hnd Hne Hh Hr Hlen. unfold read_csv, tokenize.
  assert (Hn : (1 <= length hdr)%nat) by (destruct hdr; [done|simpl; lia]).
  rewrite (csv_run0 (hdr :: rows) (length hdr)) by (done || (intros r [<-|Hin]; auto)). simpl.
  destruct (header_names_ok (length hdr + 2) hdr) as (h' & c' & E & _ & _ & Hid); [lia|].
  rewrite raw_header_named in Hid, E by done. unfold header_names. rewrite raw_header_named, E by done.
  simpl. rewrite Hid by done.
  destruct rows as [|r rows]; [done|]. rewrite (Hlen r) by (now left). rewrite Nat.sub_diag. reflexivity.
Qed.

Lemma existsb_default_min cs :
  existsb (fun z => (z =? int64_min)%Z) (map (default int64_min) cs) =
  negb (forallb (fun c => match c with Some z => negb (z =? int64_min)%Z | None => false end) cs).
Proof. induction cs as [|[z|] cs IH]; simpl; [done| |done]. rewrite IH. destruct (z =? int64_min)%Z; done. Qed.

(** The NA tokens of a written column are its missing cells. *)
Lemma na_count_text cs :
  (forall z, In (Some z) cs -> in_int64 z) ->
  na_count (map int_text cs) = length (List.filter (fun c : option Z => match c with None => true | Some _ => false end) cs).
Proof.
  unfold na_count. induction cs as [|[z|] cs IH]; intros Hr; simpl; [done| |].
  - rewrite pretty_not_na by (apply Hr; now left). apply IH. intros z' Hz. apply Hr. now right.
  - f_equal. apply IH. intros z' Hz. apply Hr. now right.
Qed.

Lemma none_count_pos (cs : list (option Z)) :
  (0 <? length (List.filter (fun c : option Z => match c with None => true | Some _ => false end) cs))%nat =
  negb (forallb (fun c => match c with Some _ => true | None => false end) cs).
Proof. induction cs as [|[z|] cs IH]; simpl; [done|exact IH|done]. Qed.

Lemma forallb_none_min (cs : list (option Z)) :
  forallb (fun c => match c with Some _ => true | None => false end) cs = false ->
  forallb (fun c => match c with Some z => negb (z =? int64_min)%Z | None => false end) cs = false.
Proof. induction cs as [|[z|] cs IH]; simpl; [done| |done]. intros H. rewrite (IH H). apply andb_false_r. Qed.


(** Lines of spaces and tabs only. *)
Lemma blank_lines_run t lines :
  state t = StartRecord -> field t = [] -> (forall l, In l lines -> forallb is_ws l = true) ->
  run_tok t (concat (map (fun l => l ++ [LF]) lines)) =
  Ok (Tok StartRecord [] (fields t) (records t) (file_lines t + length lines)).
Proof.
  revert t. induction lines as [|l lines IH]; intros t Hs Hb Hw; simpl.
  - rewrite Nat.add_0_r. destruct t; simpl in *; subst; reflexivity.
  - rewrite run_tok_app, blank_line_run by (done || apply Hw; now left). simpl.
    rewrite IH by (done || intros l' Hl'; apply Hw; now right). simpl.
    rewrite Nat.add_succ_r. reflexivity.
Qed.

(** ** What a parsed cell denotes *)

(** A token read as the [int64] [z]. *)
Definition int_token (w : string) (z : Z) : Prop :=
  is_na w = false /\ parse_int64 (String.list_ascii_of_string w) = IntOk z.

(** A token read as the [float64] cell [x]: missing, a double or an
    infinity, or an integer of an upcast [int64] column ([INT64_MIN]
    being the sentinel). *)
Definition float_token (w : string) (x : fval) : Prop :=
  (is_na w = true /\ x = FNaN) \/ double_cell w = Some x \/
  (exists z, int_token w z /\ x = if (z =? int64_min)%Z then FNaN else Fin (inject_Z z)).

(** A token read as a cell of an [object] column. *)
Definition object_token (w : string) (c : ocell) : Prop :=
  (is_na w = true /\ c = ONaN) \/ (is_na w = false /\ c = OStr w) \/
  (exists b, bool_cell w = Some (Some b) /\ c = OBool b).

(** The parsed column holds, cell by cell, what its tokens denote. *)
Definition column_denotes (ws : list string) (c : pcolumn) : Prop :=
  match c with
  | PInt64 zs => Forall2 int_token ws zs
  | POverflow ws' => ws' = ws
  | PFloat64 xs => Forall2 float_token ws xs
  | PBool bs => Forall2 (fun w b => bool_cell w = Some (Some b)) ws bs
  | PObject cs => Forall2 object_token ws cs
  end.

Lemma try_int64_spec ws zs :
  try_int64 ws = TryInts zs ->
  Forall2 (fun w z => (is_na w = true /\ z = int64_min) \/ int_token w z) ws zs.
Proof.
  revert zs. induction ws as [|w ws IH]; simpl; intros zs E; [injection E as <-; constructor|].
  destruct (is_na w) eqn:Hna.
  - destruct (try_int64 ws) eqn:E'; try discriminate. injection E as <-. constructor; auto.
  - destruct (parse_int64 _) eqn:Hp; try discriminate.
    destruct (try_int64 ws) eqn:E'; try discriminate. injection E as <-.
    constructor; [right; split; done|]. auto.
Qed.

(** Without an NA token an [int64] column has no sentinel cell. *)
Lemma int_tokens_no_na ws zs :
  Forall2 (fun w z => (is_na w = true /\ z = int64_min) \/ int_token w z) ws zs ->
  (0 <? na_count ws)%nat && existsb (fun z => (z =? int64_min)%Z) zs = false ->
  Forall2 int_token ws zs.
Proof.
  unfold na_count. induction 1 as [|w z ws zs Hz _ IH]; intros H; constructor;
    cbn [List.filter length existsb] in H.
  - destruct Hz as [[Hna ->]|Hz]; [exfalso|done]. rewrite Hna, Z.eqb_refl in H. simpl in H. discriminate.
  - apply IH. destruct (is_na w).
    + destruct (existsb _ zs); [|apply andb_false_r]. rewrite orb_true_r in H. simpl in H. discriminate.
    + destruct (0 <? length _)%nat; [|done]. simpl in *. apply orb_false_iff in H as [_ H]. exact H.
Qed.

Lemma try_double_spec ws xs : try_double ws = Some xs -> Forall2 (fun w x => double_cell w = Some x) ws xs.
Proof.
  revert xs. induction ws as [|w ws IH]; simpl; intros xs E; [injection E as <-; constructor|].
  destruct (double_cell w) eqn:Hd; [|discriminate]. simpl in E.
  destruct (try_double ws); [|discriminate]. injection E as <-. constructor; auto.
Qed.

Lemma try_bool_spec ws bs : try_bool ws = Some bs -> Forall2 (fun w b => bool_cell w = Some b) ws bs.
Proof.
  revert bs. induction ws as [|w ws IH]; simpl; intros bs E; [injection E as <-; constructor|].
  destruct (bool_cell w) eqn:Hd; [|discriminate]. simpl in E.
  destruct (try_bool ws); [|discriminate]. injection E as <-. constructor; auto.
Qed.

Lemma all_some_spec {A} (l : list (option A)) l' : all_some l = Some l' -> Forall2 (fun x y => x = Some y) l l'.
Proof.
  revert l'. induction l as [|[x|] l IH]; simpl; intros l' E; try discriminate; [injection E as <-; constructor|].
  destruct (all_some l); [|discriminate]. injection E as <-. constructor; auto.
Qed.

Lemma bool_cell_na w : bool_cell w = Some None -> is_na w = true.
Proof.
  unfold bool_cell. destruct (is_na w); [done|].
  repeat case_decide; try discriminate. destruct (to_boolean w); discriminate.
Qed.

(** ** Properties *)

(** C8: Round trip of an integer table.  A table of [int64] values
    (without [INT64_MIN]) under a header of distinct non-empty names,
    written as CSV and read back by [read_csv], gives [int64] columns with
    the same values under the same names, and no index. *)
Theorem read_csv_ints hdr rows :
  NoDup hdr -> ~ In "" hdr -> hdr <> [] -> rows <> [] ->
  (forall r, In r rows -> length r = length hdr) ->
  (forall r z, In r rows -> In z r -> in_int64 z /\ z <> int64_min) ->
  read_csv (write_csv (hdr :: map (map pretty) rows)) =
  Ok (CsvFrame [] (zip hdr (map (fun j => PInt64 (map (fun r => nth j r 0%Z) rows)) (seq 0 (length hdr))))).
Proof.
  intros Hnd Hne Hh Hr Hlen Hz. rewrite read_csv_write; try done.
  - do 3 f_equal. apply map_ext_in. intros j Hj%in_seq.
    assert (E : column_tokens (map (map pretty) rows) j = map pretty (map (fun r => nth j r 0%Z) rows)).
    { unfold column_tokens. rewrite !map_map. apply map_ext_in. intros r Hin.
      rewrite (nth_indep (map pretty r) "" (pretty 0%Z)) by (rewrite length_map, Hlen by done; lia).
      apply map_nth. }
    rewrite E. apply int_column_ok. intros z (r & <- & Hin)%in_map_iff.
    apply (Hz r); [done|]. apply nth_In. rewrite Hlen by done. lia.
  - destruct rows; simpl; congruence.
  - intros r (r' & <- & Hin)%in_map_iff. rewrite length_map. auto.
Qed.

Example read_csv_ints_witness :
  read_csv (write_csv (["x"; "y"] :: map (map pretty) [[1; 2]; [-3; 40]]%Z)) =
  Ok (CsvFrame [] [("x", PInt64 [1; -3]%Z); ("y", PInt64 [2; 40]%Z)]).
Proof.
  apply (read_csv_ints ["x"; "y"] [[1; 2]; [-3; 40]]%Z).
  - apply NoDup_ListNoDup. repeat constructor; simpl; intuition discriminate.
  - simpl. intuition discriminate.
  - discriminate.
  - discriminate.
  - intros r [<-|[<-|[]]]; reflexivity.
  - intros r z [<-|[<-|[]]] Hin; simpl in Hin; repeat destruct Hin as [<-|Hin]; try contradiction;
      unfold in_int64, int64_min, int64_max; simpl; lia.
Defined.

(** C22: Integer columns with missing cells.  A column of [int64] tokens
    and NA tokens is [int64] when no cell is missing, [INT64_MIN] cells
    included ([_maybe_upcast] runs only when [na_count > 0]); otherwise
    it is [float64] with NaN for the missing cells and, since [INT64_MIN]
    is the NA sentinel, also for the cells holding [INT64_MIN]. *)
Theorem convert_int_column cs :
  (forall z, In (Some z) cs -> in_int64 z) ->
  convert_column (map int_text cs) =
  if forallb (fun c => match c with Some _ => true | None => false end) cs
  then PInt64 (map (default 0%Z) cs)
  else PFloat64 (map (fun c => match c with
                               | Some z => if (z =? int64_min)%Z then FNaN else Fin (inject_Z z)
                               | None => FNaN end) cs).
Proof.
  intros Hr. unfold convert_column. rewrite try_int64_text by done. unfold maybe_upcast_int.
  rewrite na_count_text, none_count_pos, existsb_default_min, map_map by done.
  destruct (forallb _ cs) eqn:F; simpl; f_equal.
  - apply map_ext_in. intros [z|] Hin; [reflexivity|].
    rewrite forallb_forall in F. specialize (F None Hin). discriminate.
  - rewrite (forallb_none_min cs F). simpl. f_equal. apply map_ext. intros [z|]; simpl; [reflexivity|].
    now rewrite ?Z.eqb_refl.
Qed.

Example convert_int_column_witness :
  convert_column (map int_text [Some 1; None; Some 3]%Z) = PFloat64 [Fin 1; FNaN; Fin 3] /\
  convert_column (map int_text [Some int64_min; Some 5]%Z) = PInt64 [int64_min; 5]%Z /\
  convert_column (map int_text [Some int64_min; None; Some 5]%Z) = PFloat64 [FNaN; FNaN; Fin 5] /\
  convert_column (map int_text [Some 7; Some (-2)]%Z) = PInt64 [7; -2]%Z.
Proof.
  split_and!; rewrite convert_int_column;
    try (intros z Hin; simpl in Hin; repeat destruct Hin as [[= <-]|Hin]; try contradiction;
         unfold in_int64, int64_min, int64_max; simpl; lia);
    vm_compute; reflexivity.
Defined.

(** C28: A file of blank lines.  [read_csv] on a text of lines holding
    only spaces and tabs (the empty text included) raises pandas'
    [EmptyDataError("No columns to parse from file")]. *)
Theorem read_csv_blank lines :
  (forall l, In l lines -> forallb is_ws l = true) ->
  read_csv (concat (map (fun l => l ++ [LF]) lines)) = Err (ValueError "No columns to parse from file").
Proof.
  intros Hw. unfold read_csv, tokenize. rewrite blank_lines_run by done. reflexivity.
Qed.

Example read_csv_blank_witness :
  read_csv (concat (map (fun l => l ++ [LF]) [[]; [SPACE; TAB]; [SPACE]])) =
  Err (ValueError "No columns to parse from file").
Proof. apply read_csv_blank. intros l [<-|[<-|[<-|[]]]]; reflexivity. Defined.

(** C27: Soundness of dtype inference.  Whatever the tokens of a column,
    every cell of the column [read_csv] makes of them is what its token
    denotes: an [int64] cell is the integer of a non-NA token, a [float64]
    cell is NaN for an NA token, the double or infinity of the token, or
    the integer of an upcast [int64] column (NaN for [INT64_MIN]), a
    [bool] cell is the token's truth value, and an [object] cell is NaN,
    the token itself or, after a missing cell, its truth value. *)
Theorem convert_column_sound ws : column_denotes ws (convert_column ws).
Proof.
  unfold convert_column. destruct (try_int64 ws) as [zs| |] eqn:Ei; simpl; [|reflexivity|].
  - apply try_int64_spec in Ei. unfold maybe_upcast_int. destruct (_ && _) eqn:Ex; simpl.
    + apply Forall2_fmap_r, (Forall2_impl _ _ _ _ Ei). intros w z [[Hna ->]|Hz].
      * left. rewrite Z.eqb_refl. done.
      * right; right. exists z. split; [done|]. destruct (z =? int64_min)%Z; done.
    + exact (int_tokens_no_na ws zs Ei Ex).
  - destruct (try_double ws) as [xs|] eqn:Ed.
    + apply try_double_spec in Ed. simpl. apply (Forall2_impl _ _ _ _ Ed). intros w x Hx. right; left. done.
    + destruct (try_bool ws) as [bs|] eqn:Eb.
      * apply try_bool_spec in Eb. unfold maybe_upcast_bool. destruct (all_some bs) as [bs'|] eqn:Ea; simpl.
        -- apply all_some_spec in Ea. clear -Eb Ea. revert bs bs' Eb Ea. induction ws as [|w ws IH];
             intros bs bs' Eb Ea; inversion Eb; subst; inversion Ea; subst; constructor; [congruence|eauto].
        -- apply Forall2_fmap_r, (Forall2_impl _ _ _ _ Eb). intros w [b|] Hb.
           ++ right; right. eauto.
           ++ left. split; [apply bool_cell_na, Hb|done].
      * simpl. apply Forall2_fmap_r, Forall_Forall2_diag, Forall_forall. intros w _.
        unfold compose, object_token. destruct (is_na w) eqn:Hna; [left|right; left]; done.
Qed.

Lemma try_int64_len ws zs : try_int64 ws = TryInts zs -> length zs = length ws.
Proof. intros H. apply try_int64_spec, Forall2_length in H. done. Qed.

Lemma convert_column_len ws : pcol_len (convert_column ws) = length ws.
Proof.
  unfold convert_column. destruct (try_int64 ws) as [zs| |] eqn:Ei; [|done|].
  - apply try_int64_len in Ei. unfold maybe_upcast_int. destruct (_ && _); simpl; by rewrite ?length_map.
  - destruct (try_double ws) as [xs|] eqn:Ed; [apply try_double_spec, Forall2_length in Ed; done|].
    destruct (try_bool ws) as [bs|] eqn:Eb; [|simpl; by rewrite length_map].
    apply try_bool_spec, Forall2_length in Eb. unfold maybe_upcast_bool.
    destruct (all_some bs) as [bs'|] eqn:Ea; simpl; [|by rewrite length_map].
    apply all_some_spec, Forall2_length in Ea. lia.
Qed.

Lemma fst_zip_take {A B} (l : list A) (k : list B) : map fst (zip l k) = take (length k) l.
Proof. revert k. induction l as [|x l IH]; intros [|y k]; simpl; rewrite ?take_nil; f_equal; auto. Qed.

Lemma read_csv_names hdr : NoDup (default hdr (header_names (length hdr + 2) hdr)).
Proof.
  destruct (header_names_ok (length hdr + 2) hdr) as (h' & c' & E & Hn & _); [lia|].
  unfold header_names. rewrite E. exact Hn.
Qed.


Lemma snd_zip_take {A B} (l : list A) (k : list B) : map snd (zip l k) = take (length l) k.
Proof. revert k. induction l as [|x l IH]; intros [|y k]; simpl; f_equal; auto. Qed.

(** C14: The shape of the frame [read_csv] gives.  Its column names are
    pairwise distinct, and every column, the index columns included, has
    one cell per data record of the file: pandas' [DataFrame] is a table,
    whatever the file (records shorter or longer than the first, repeated
    or empty header fields, a file with no data row). *)
Theorem read_csv_wf text cf :
  read_csv text = Ok cf -> exists hdr rows, tokenize text = Ok (hdr :: rows) /\ csv_wf (length rows) cf = true.
Proof.
  unfold read_csv. destruct (tokenize text) as [[|hdr rows]|e]; cbn [result_bind]; [discriminate| |discriminate].
  intros [= <-]. exists hdr, rows. split; [done|]. apply andb_true_intro. split.
  - apply bool_decide_eq_true_2. cbn [columns]. rewrite fst_zip_take.
    eapply sublist_NoDup; [apply read_csv_names|apply sublist_take].
  - apply forallb_forall, List.Forall_forall. cbn [index_cols columns]. rewrite snd_zip_take.
    set (field_count := match rows with [] => length hdr | _ => _ end).
    assert (Hc : Forall (fun c => (pcol_len c =? length rows) = true)
      (map (fun j => (match rows with [] => fun _ => PObject [] | _ => convert_column end) (column_tokens rows j))
           (seq 0 field_count))).
    { apply List.Forall_forall. intros c (j & <- & _)%in_map_iff. apply Nat.eqb_eq.
      destruct rows; [done|]. rewrite convert_column_len. unfold column_tokens. by rewrite length_map. }
    apply Forall_app. split; [by apply Forall_take|]. by apply Forall_take, Forall_drop.
Qed.

(** A header with a repeated and an empty name, and a data record one
    field wider than it (an index column). *)
Definition wf_ex_text : list ascii :=
  String.list_ascii_of_string ("a,a,,b" +:+ String Tokenizer.LF EmptyString +:+ "x,1,2,3,4" +:+ String Tokenizer.LF EmptyString).

Example read_csv_wf_witness :
  exists cf, read_csv wf_ex_text = Ok cf /\
    exists hdr rows, tokenize wf_ex_text = Ok (hdr :: rows) /\ csv_wf (length rows) cf = true.
Proof.
  eexists. split; [vm_compute; reflexivity|]. apply read_csv_wf. vm_compute. reflexivity.
Defined.

End Csv.
