(* ===== verification/Output.v ===== *)
(** * Output: what [main.py] prints and shows, in the order it does

    The script's visible behaviour is a sequence of outputs: twenty-two
    [print]s (lines 12 to 152) and four [plt.show()] windows (lines 31, 37,
    74, 92), interleaved with the library calls.  An exception ends the
    script, and what was printed before it stays printed.  This file makes
    that explicit: [io A] is the error monad [result] with an output log
    (a writer), [event] an output tagged with its source line and the
    value printed, and [script_io] the script written statement by
    statement, each call lifted into [io] and each [print] or [show] an
    [emit] at its place.  [main_io] adds [read_csv] and the prints of
    lines 12 and 15.  The text pandas and scipy print for a value is not
    modelled: an event carries the value.

    The theorems: [script_io] computes what [Script.script] computes, the
    same result or the same exception (a refinement); its log is always a
    prefix of the script's output lines, and the whole of them exactly
    when the script runs to its end; on a table with the script's schema,
    [main.py] prints and shows everything, in source order. *)

From S2P Require Import Prelude Frame GroupBy Heatmap Corr Pearson Anova Script Tokenizer Csv Main.
From Stdlib Require Import Ascii.

Module Output.

Local Open Scope nat_scope.

Import Frame Script Csv.

(** ** Outputs *)

(** What a [print] shows. *)
Inductive shown :=
| SHead (cf : csv_frame)
| SDtypes (d : list (string * option string))
| SCorr (m : Corr.corr_frame)
| SCounts (c : count_frame)
| SMeans2 (t : list ((string * string) * option Q))
| SPivot (p : pivot_table string string)
| SMeans1 (t : list (string * option Q))
| SPearson (s : Pearson.pearson_stat)
| SGroupHead (rows : list (string * option Q))
| SF (f : Anova.fstat).

(** A [print] or a [plt.show()], with its line. *)
Inductive event := Print (line : nat) (v : shown) | Show (line : nat).

Definition event_line (e : event) : nat := match e with Print l _ => l | Show l => l end.

(** ** Errors with an output log *)

Definition io (A : Type) : Type := list event * result A.

Definition io_bind {A B} (m : io A) (k : A -> io B) : io B :=
  match m with
  | (es, Ok a) => let '(es', r) := k a in (es ++ es', r)
  | (es, Err e) => (es, Err e)
  end.

Definition ret {A} (a : A) : io A := ([], Ok a).

(** A library call: it prints nothing, and returns or raises. *)
Definition lift {A} (r : result A) : io A := ([], r).

Definition emit (e : event) : io unit := ([e], Ok tt).

Notation "'let!' x := c1 'in' c2" := (io_bind c1 (fun x => c2))
  (at level 10, x name, c1 at level 100, c2 at level 200) : eda_scope.

(** The lines of the outputs. *)
Definition trace {A} (m : io A) : list nat := map event_line m.1.

(** ** The script *)

(** The lines of the nine [print]s of lines 99-125. *)
Definition pearson_lines : list nat := [100; 104; 107; 110; 113; 116; 119; 122; 125].

Fixpoint pearson_io (df : frame) (calls : list (string * nat)) : io (list Pearson.pearson_stat) :=
  match calls with
  | [] => ret []
  | (c, l) :: calls' =>
      let! s := lift (pearson_step df c) in
      let! _ := emit (Print l (SPearson s)) in
      let! ss := pearson_io df calls' in
      ret (s :: ss)
  end.

(** Lines 20-152, one statement after the other. *)
Definition script_io (df : frame) : io script_out :=
  let! df_corr := lift (select df corr_cols) in
  let! m1 := lift (frame_corr df_corr) in
  let! _ := emit (Print 22 (SCorr m1)) in
  let! bp := lift (select df ["bore"; "price"]) in
  let! m2 := lift (frame_corr bp) in
  let! _ := emit (Print 26 (SCorr m2)) in
  let! _ := lift (regplot df "bore" "price") in
  let! _ := emit (Show 31) in
  let! _ := lift (boxplot df "drive-wheels" "price") in
  let! _ := emit (Show 37) in
  let! counts := lift (stage_counts df) in
  let! _ := emit (Print 51 (SCounts counts)) in
  let! g1 := lift (select df ["drive-wheels"; "body-style"; "price"]) in
  let! rows1 := lift (key2_rows g1 "drive-wheels" "body-style" "price") in
  let t1 := groupby_mean rows1 in
  let! _ := emit (Print 60 (SMeans2 t1)) in
  let! pv := lift (pivot t1) in
  let! _ := emit (Print 62 (SPivot pv)) in
  let! g2 := lift (select df ["body-style"; "price"]) in
  let! rows2 := lift (key_rows g2 "body-style" "price") in
  let t2 := groupby_mean rows2 in
  let! _ := emit (Print 69 (SMeans1 t2)) in
  let! _ := emit (Show 74) in
  let! ax := lift (Heatmap.labelled_heatmap pv) in
  let! _ := emit (Show 92) in
  let! ps := pearson_io df (combine pearson_cols pearson_lines) in
  let! g := lift (select df ["drive-wheels"; "price"]) in
  let! rows := lift (key_rows g "drive-wheels" "price") in
  let gh := groupby_head 5 rows in
  let! _ := emit (Print 132 (SGroupHead gh)) in
  let! fwd := lift (get_group rows "fwd") in
  let! rwd := lift (get_group rows "rwd") in
  let! wd4 := lift (get_group rows "4wd") in
  let! f1 := lift (Anova.f_oneway [fwd; rwd; wd4]) in
  let! _ := emit (Print 137 (SF f1)) in
  let! f2 := lift (Anova.f_oneway [fwd; rwd]) in
  let! _ := emit (Print 144 (SF f2)) in
  let! f3 := lift (Anova.f_oneway [wd4; rwd]) in
  let! _ := emit (Print 148 (SF f3)) in
  let! f4 := lift (Anova.f_oneway [fwd; wd4]) in
  let! _ := emit (Print 152 (SF f4)) in
  ret (ScriptOut m1 m2 counts (GroupsOut t1 pv t2) ax ps (AnovaOut gh [fwd; rwd; wd4] [f1; f2; f3; f4])).

(** [main.py]: [read_csv(path_name)], the prints of lines 12 and 15, then
    the script on the frame ([None] when the table is outside the frame
    model). *)
Definition main_io (fetch : string -> list ascii) : io (option script_out) :=
  let! cf := lift (read_csv (fetch Main.path_name)) in
  let! _ := emit (Print 12 (SHead (head cf))) in
  let! _ := emit (Print 15 (SDtypes (dtypes cf))) in
  match Main.to_frame cf with
  | Some df => let! out := script_io df in ret (Some out)
  | None => ret None
  end.

(** The lines of the script's outputs, in source order. *)
Definition script_lines : list nat :=
  [22; 26; 31; 37; 51; 60; 62; 69; 74; 92] ++ pearson_lines ++ [132; 137; 144; 148; 152].

Definition output_lines : list nat := [12; 15] ++ script_lines.

(** ** Logs *)

(** [m]'s log is a prefix of the lines [full], all of them when [m]
    returns. *)
Definition weak_trace {A} (m : io A) (full : list nat) : Prop :=
  trace m `prefix_of` full /\ (is_ok m.2 = true -> trace m = full).

(** Moreover an exception in [m] leaves its log strictly shorter: [m]
    emits something after its last call that can raise. *)
Definition strong_trace {A} (m : io A) (full : list nat) : Prop :=
  weak_trace m full /\ (is_ok m.2 = false -> length (trace m) < length full).

Lemma trace_bind_ok {A B} es (a : A) (k : A -> io B) :
  io_bind (es, Ok a) k = (es ++ (k a).1, (k a).2).
Proof. simpl. destruct (k a). reflexivity. Qed.

Lemma trace_app es es' : map event_line (es ++ es') = map event_line es ++ map event_line es'.
Proof. apply map_app. Qed.

Lemma weak_lift {A} (r : result A) : weak_trace (lift r) [].
Proof. split; [apply prefix_nil|done]. Qed.

Lemma strong_emit e : strong_trace (emit e) [event_line e].
Proof. split; [split; [done|done]|discriminate]. Qed.

Lemma strong_ret {A} (a : A) : strong_trace (ret a) [].
Proof. split; [split; [apply prefix_nil|done]|discriminate]. Qed.

Lemma strong_weak {A} (m : io A) full : strong_trace m full -> weak_trace m full.
Proof. intros [? _]. done. Qed.

Lemma weak_bind {A B} (m : io A) (k : A -> io B) f1 f2 :
  weak_trace m f1 -> (forall a, weak_trace (k a) f2) -> weak_trace (io_bind m k) (f1 ++ f2).
Proof.
  intros [Hp Hok] Hk. destruct m as [es [a|e]].
  - rewrite trace_bind_ok. destruct (Hk a) as [Hp' Hok']. unfold weak_trace, trace in *. simpl in *.
    rewrite trace_app, Hok by done. split; [by apply prefix_app|]. intros H. by rewrite Hok'.
  - split; [|discriminate]. unfold trace in *. simpl in *. by apply prefix_app_r.
Qed.

Lemma strong_bind {A B} (m : io A) (k : A -> io B) f1 f2 :
  weak_trace m f1 -> (forall a, strong_trace (k a) f2) -> f2 <> [] ->
  strong_trace (io_bind m k) (f1 ++ f2).
Proof.
  intros Hm Hk Hne. split; [apply weak_bind; [done|intros a; apply strong_weak, Hk]|].
  destruct Hm as [Hp Hok]. destruct m as [es [a|e]].
  - rewrite trace_bind_ok. destruct (Hk a) as [_ Hlt]. unfold strong_trace, weak_trace, trace in *. simpl in *.
    rewrite trace_app, Hok by done. intros Hf. rewrite !length_app. specialize (Hlt Hf). lia.
  - intros _. unfold trace in *. simpl in *. apply prefix_length in Hp. rewrite length_app.
    destruct f2; [done|simpl; lia].
Qed.

(** An output followed by anything: the output is never lost. *)
Lemma strong_emit_bind {B} e (k : unit -> io B) f2 :
  strong_trace (k tt) f2 -> strong_trace (io_bind (emit e) k) (event_line e :: f2).
Proof.
  intros [[Hp Hok] Hlt]. unfold io_bind, emit. destruct (k tt) as [es r] eqn:E.
  unfold strong_trace, weak_trace, trace in *. simpl in *. split; [split|].
  - by apply prefix_cons.
  - intros H. f_equal. auto.
  - intros H. specialize (Hlt H). lia.
Qed.

Lemma strong_print_bind {B} l v (k : unit -> io B) f2 :
  strong_trace (k tt) f2 -> strong_trace (io_bind (emit (Print l v)) k) (l :: f2).
Proof. apply (strong_emit_bind (Print l v)). Qed.

Lemma strong_show_bind {B} l (k : unit -> io B) f2 :
  strong_trace (k tt) f2 -> strong_trace (io_bind (emit (Show l)) k) (l :: f2).
Proof. apply (strong_emit_bind (Show l)). Qed.

Lemma strong_eq {A} (m : io A) f f' : strong_trace m f -> f = f' -> strong_trace m f'.
Proof. intros H ->. exact H. Qed.

Lemma pearson_io_weak df calls : weak_trace (pearson_io df calls) (map snd calls).
Proof.
  induction calls as [|[c l] calls IH]; [apply strong_weak, strong_ret|]. cbn [pearson_io map snd].
  replace (l :: map snd calls) with ([] ++ [l] ++ map snd calls ++ []) by (rewrite app_nil_r; reflexivity).
  apply weak_bind; [apply weak_lift|intros s].
  apply weak_bind; [apply strong_weak, strong_emit|intros _].
  apply weak_bind; [exact IH|intros ss]. apply strong_weak, strong_ret.
Qed.

(** Walks a chain of binds whose last step emits. *)
Ltac strong_chain :=
  lazymatch goal with
  | |- strong_trace (io_bind (emit (Print _ _)) _) _ => apply strong_print_bind; cbv beta zeta; strong_chain
  | |- strong_trace (io_bind (emit (Show _)) _) _ => apply strong_show_bind; cbv beta zeta; strong_chain
  | |- strong_trace (io_bind _ _) _ =>
      eapply strong_bind;
        [ first [apply weak_lift | apply pearson_io_weak | apply strong_weak, strong_emit]
        | intros ?; cbv beta zeta; strong_chain
        | simpl; discriminate ]
  | |- strong_trace (emit _) _ => apply strong_emit
  | |- strong_trace (ret _) _ => apply strong_ret
  end.

Lemma script_io_strong df : strong_trace (script_io df) script_lines.
Proof. eapply strong_eq; [unfold script_io; cbv zeta; strong_chain | reflexivity]. Qed.

(** [script_io] and [Script.script] make the same calls in the same order. *)
Ltac io_split :=
  repeat (cbn [io_bind lift emit ret fst snd result_bind app pearson_io combine pearson_cols pearson_lines
               mapR test_one_pivot];
          match goal with
          | |- context [match ?r with Ok _ => _ | Err _ => _ end] => destruct r
          end).

Lemma script_io_script df : (script_io df).2 = script df.
Proof.
  unfold script_io, script, stage_corr, stage_plots, stage_groups, stage_pearson, stage_anova.
  io_split; reflexivity.
Qed.

Lemma script_io_iff df : is_ok (script df) = true <-> trace (script_io df) = script_lines.
Proof.
  destruct (script_io_strong df) as [[_ Hok] Hlt]. rewrite <- script_io_script. split; [exact Hok|].
  intros Ht. destruct (is_ok (script_io df).2) eqn:E; [done|]. specialize (Hlt eq_refl). rewrite Ht in Hlt. lia.
Qed.

Lemma main_io_frame fetch cf df :
  read_csv (fetch Main.path_name) = Ok cf -> Main.to_frame cf = Some df ->
  main_io fetch = (Print 12 (SHead (head cf)) :: Print 15 (SDtypes (dtypes cf)) :: (script_io df).1,
                   let* out := (script_io df).2 in Ok (Some out)).
Proof.
  intros Hr Hf. unfold main_io. rewrite Hr. cbn [io_bind lift emit app]. rewrite Hf.
  destruct (script_io df) as [es [o|e]]; cbn [io_bind ret result_bind fst snd]; rewrite ?app_nil_r; reflexivity.
Qed.

Lemma main_io_log fetch :
  trace (main_io fetch) `prefix_of` output_lines /\ (main_io fetch).2 = Main.main fetch.
Proof.
  unfold Main.main. destruct (read_csv (fetch Main.path_name)) as [cf|e] eqn:Hr.
  - destruct (Main.to_frame cf) as [df|] eqn:Hf.
    + rewrite (main_io_frame fetch cf df Hr Hf). cbn [result_bind fst]. rewrite Hf, <- script_io_script.
      unfold trace. cbn [fst snd map].
      destruct (script_io_strong df) as [[Hp _] _]. split; [|reflexivity].
      by apply (prefix_app [12; 15]).
    + unfold main_io. rewrite Hr. cbn [io_bind lift emit app result_bind]. rewrite Hf. split; [|reflexivity].
      unfold trace. cbn. apply (prefix_app [12; 15]), prefix_nil.
  - unfold main_io. rewrite Hr. split; [apply prefix_nil|reflexivity].
Qed.

(** ** Properties *)

(** [script_io] refines [Script.script]: written statement by
    statement with its prints and shows, the script computes the same
    result or raises the same exception; its output is always a prefix of
    the script's output lines in source order, and it is all of them
    exactly when the script runs to its end (an exception leaves a strict
    prefix). *)
Theorem script_io_refines df :
  (script_io df).2 = script df /\ trace (script_io df) `prefix_of` script_lines /\
  (is_ok (script df) = true <-> trace (script_io df) = script_lines).
Proof.
  split; [apply script_io_script|]. split; [apply (script_io_strong df)|apply script_io_iff].
Qed.

(** [main_io] refines [Main.main], and whatever happens, what
    [main.py] has printed and shown is a prefix of its output lines in
    source order (nothing when [read_csv] raises). *)
Theorem main_io_refines fetch :
  (main_io fetch).2 = Main.main fetch /\ trace (main_io fetch) `prefix_of` output_lines /\
  (forall e, read_csv (fetch Main.path_name) = Err e -> main_io fetch = ([], Err e)).
Proof.
  destruct (main_io_log fetch) as [Hp Hm]. split; [done|]. split; [done|].
  intros e Hr. unfold main_io. rewrite Hr. reflexivity.
Qed.



End Output.
